(** * kind-soul-notes: patient records for psychologists

    A verification development for the PsiCare application: the database
    migration (tables, row-level-security policies, triggers) and the page
    components that talk to it through the generated REST client.

    The SQL of the migration is declarative, so it is transcribed as data
    (table definitions, policies) and given meaning by a small model of how
    PostgreSQL runs a statement under row-level security.  The pages are
    modelled as functions that build queries, hand them to a backend and
    move the component state. *)

From Stdlib Require Import Ascii String.
From stdpp Require Import base strings list gmap pretty sorting.

Open Scope string_scope.
Open Scope list_scope.

(** ** Values *)

(** A UUID and every other column value is kept as its text; the type of a
    column is recorded, the text is not parsed against it.  A row maps a
    column name to its value; a column that is absent from the map is NULL. *)
Abbreviation uuid := string (only parsing).
Abbreviation row := (gmap string string) (only parsing).

(** ** The migration: tables *)

Module Sql.

Inductive sqltype := UUID | TEXT | DATE | TIMESTAMPTZ.

Inductive default_expr :=
| gen_random_uuid
| now
| CURRENT_DATE
| Literal (s : string).

(** Every foreign key of the migration is declared [ON DELETE CASCADE]. *)
Inductive constraint :=
| PRIMARY_KEY
| NOT_NULL
| REFERENCES_ON_DELETE_CASCADE (t c : string)
| DEFAULT (d : default_expr)
| CHECK_IN (vs : list string).

Record column := Col {
  col_name : string;
  col_type : sqltype;
  col_constraints : list constraint
}.

Record table := Table {
  tbl_name : string;
  tbl_columns : list column
}.

Definition profiles : table :=
  Table "profiles"
    [ Col "id" UUID [PRIMARY_KEY; REFERENCES_ON_DELETE_CASCADE "auth.users" "id"];
      Col "full_name" TEXT [NOT_NULL];
      Col "crp" TEXT [];
      Col "phone" TEXT [];
      Col "created_at" TIMESTAMPTZ [NOT_NULL; DEFAULT now];
      Col "updated_at" TIMESTAMPTZ [NOT_NULL; DEFAULT now] ].

Definition patients : table :=
  Table "patients"
    [ Col "id" UUID [PRIMARY_KEY; DEFAULT gen_random_uuid];
      Col "psychologist_id" UUID
        [NOT_NULL; REFERENCES_ON_DELETE_CASCADE "auth.users" "id"];
      Col "full_name" TEXT [NOT_NULL];
      Col "email" TEXT [];
      Col "phone" TEXT [];
      Col "birth_date" DATE [];
      Col "cpf" TEXT [];
      Col "address" TEXT [];
      Col "emergency_contact" TEXT [];
      Col "emergency_phone" TEXT [];
      Col "notes" TEXT [];
      Col "status" TEXT
        [DEFAULT (Literal "active");
         CHECK_IN ["active"; "inactive"; "discharged"]];
      Col "created_at" TIMESTAMPTZ [NOT_NULL; DEFAULT now];
      Col "updated_at" TIMESTAMPTZ [NOT_NULL; DEFAULT now] ].

Definition patient_records : table :=
  Table "patient_records"
    [ Col "id" UUID [PRIMARY_KEY; DEFAULT gen_random_uuid];
      Col "patient_id" UUID
        [NOT_NULL; REFERENCES_ON_DELETE_CASCADE "patients" "id"];
      Col "psychologist_id" UUID
        [NOT_NULL; REFERENCES_ON_DELETE_CASCADE "auth.users" "id"];
      Col "session_date" DATE [NOT_NULL; DEFAULT CURRENT_DATE];
      Col "session_type" TEXT
        [DEFAULT (Literal "individual");
         CHECK_IN ["individual"; "couple"; "family"; "group"]];
      Col "main_complaint" TEXT [];
      Col "session_notes" TEXT [];
      Col "observations" TEXT [];
      Col "next_session_goals" TEXT [];
      Col "mood_state" TEXT [];
      Col "interventions" TEXT [];
      Col "created_at" TIMESTAMPTZ [NOT_NULL; DEFAULT now];
      Col "updated_at" TIMESTAMPTZ [NOT_NULL; DEFAULT now] ].

(** The tables of schema [public], in the order the migration creates them. *)
Definition schema : list table := [profiles; patients; patient_records].

(** [ALTER TABLE ... ENABLE ROW LEVEL SECURITY] *)
Definition row_level_security : list string :=
  ["profiles"; "patients"; "patient_records"].

(** ** The migration: policies *)

Inductive command := SELECT | INSERT | UPDATE | DELETE.

#[global] Instance command_eq_dec : EqDecision command.
Proof. solve_decision. Defined.

(** The expressions the policies are written in: [auth.uid()], a column of
    the row, and [=] between two of them. *)
Inductive scalar :=
| auth_uid
| column_ref (c : string).

Inductive predicate :=
| Equals (a b : scalar).

#[global] Instance scalar_eq_dec : EqDecision scalar.
Proof. solve_decision. Defined.
#[global] Instance predicate_eq_dec : EqDecision predicate.
Proof. solve_decision. Defined.

Record policy := Policy {
  pol_name : string;
  pol_table : string;
  pol_for : command;
  pol_using : option predicate;
  pol_with_check : option predicate
}.

Definition USING (e : predicate) : option predicate * option predicate :=
  (Some e, None).
Definition WITH_CHECK (e : predicate) : option predicate * option predicate :=
  (None, Some e).

Definition CREATE_POLICY (name t : string) (c : command)
    (body : option predicate * option predicate) : policy :=
  Policy name t c (fst body) (snd body).

Definition policies : list policy :=
  [ CREATE_POLICY "Users can view own profile" "profiles"
      SELECT (USING (Equals auth_uid (column_ref "id")));
    CREATE_POLICY "Users can update own profile" "profiles"
      UPDATE (USING (Equals auth_uid (column_ref "id")));
    CREATE_POLICY "Users can insert own profile" "profiles"
      INSERT (WITH_CHECK (Equals auth_uid (column_ref "id")));

    CREATE_POLICY "Psychologists can view own patients" "patients"
      SELECT (USING (Equals auth_uid (column_ref "psychologist_id")));
    CREATE_POLICY "Psychologists can insert own patients" "patients"
      INSERT (WITH_CHECK (Equals auth_uid (column_ref "psychologist_id")));
    CREATE_POLICY "Psychologists can update own patients" "patients"
      UPDATE (USING (Equals auth_uid (column_ref "psychologist_id")));
    CREATE_POLICY "Psychologists can delete own patients" "patients"
      DELETE (USING (Equals auth_uid (column_ref "psychologist_id")));

    CREATE_POLICY "Psychologists can view own records" "patient_records"
      SELECT (USING (Equals auth_uid (column_ref "psychologist_id")));
    CREATE_POLICY "Psychologists can insert own records" "patient_records"
      INSERT (WITH_CHECK (Equals auth_uid (column_ref "psychologist_id")));
    CREATE_POLICY "Psychologists can update own records" "patient_records"
      UPDATE (USING (Equals auth_uid (column_ref "psychologist_id")));
    CREATE_POLICY "Psychologists can delete own records" "patient_records"
      DELETE (USING (Equals auth_uid (column_ref "psychologist_id"))) ].

(** ** Row-level security, as PostgreSQL applies it

    [auth.uid()] is the identity carried by the caller's token, NULL for an
    anonymous caller.  [=] is three-valued: it is NULL as soon as one side
    is, and a policy lets a row through only when its expression is true. *)

Definition eval_scalar (uid : option uuid) (r : row) (s : scalar)
    : option string :=
  match s with
  | auth_uid => uid
  | column_ref c => r !! c
  end.

Definition eval_predicate (uid : option uuid) (r : row) (e : predicate)
    : option bool :=
  match e with
  | Equals a b =>
      match eval_scalar uid r a, eval_scalar uid r b with
      | Some x, Some y => Some (bool_decide (x = y))
      | _, _ => None
      end
  end.

Definition is_true (v : option bool) : bool :=
  match v with Some true => true | _ => false end.

Definition policies_for (t : string) (c : command) : list policy :=
  filter (λ p, pol_table p = t ∧ pol_for p = c) policies.

(** The expression a policy applies to an existing row ([USING]) and to a
    row about to be written ([WITH CHECK], which falls back on [USING] when
    the policy gives none). *)
Definition using_expr (p : policy) : option predicate := pol_using p.
Definition check_expr (p : policy) : option predicate :=
  match pol_with_check p with
  | Some e => Some e
  | None => pol_using p
  end.

Definition passes (uid : option uuid) (r : row) (e : option predicate)
    : bool :=
  match e with
  | Some e => is_true (eval_predicate uid r e)
  | None => true
  end.

(** Policies are permissive: a row is let through when one policy of the
    table for the command does so, and with row security enabled and no
    policy for the command nothing is. *)
Definition visible (uid : option uuid) (t : string) (c : command) (r : row)
    : bool :=
  if bool_decide (t ∈ row_level_security) then
    existsb (λ p, passes uid r (using_expr p)) (policies_for t c)
  else true.

Definition writable (uid : option uuid) (t : string) (c : command) (r : row)
    : bool :=
  if bool_decide (t ∈ row_level_security) then
    existsb (λ p, passes uid r (check_expr p)) (policies_for t c)
  else true.

(** What the policies let caller [uid] do with row [r] of table [t]:
    read, update or delete an existing row, insert a new one. *)
Definition permitted (uid : option uuid) (t : string) (c : command) (r : row)
    : bool :=
  match c with
  | INSERT => writable uid t INSERT r
  | _ => visible uid t c r
  end.

(** The column of a table that points at [auth.users (id)]: the account the
    row belongs to. *)
Definition references_users (c : column) : bool :=
  existsb (λ k, match k with
                | REFERENCES_ON_DELETE_CASCADE "auth.users" "id" => true
                | _ => false
                end) (col_constraints c).

Definition ownership_columns (t : table) : list string :=
  col_name <$> filter (λ c, references_users c = true) (tbl_columns t).

Definition find_table (t : string) : option table :=
  snd <$> list_find (λ tb, tbl_name tb = t) schema.

(** The account a row of table [t] belongs to. *)
Definition owner (t : string) (r : row) : option uuid :=
  match find_table t with
  | Some tb =>
      match ownership_columns tb with
      | [c] => r !! c
      | _ => None
      end
  | None => None
  end.

End Sql.

(** ** The database *)

Module Db.
Import Sql.

(** The sign-up metadata of an account is a JSON object; its members are
    JSON scalars here. *)
Inductive json :=
| JNull
| JBool (b : bool)
| JNumber (n : Z)
| JString (s : string).

(** [auth.users] belongs to the identity service; the migration uses its
    [id] and [raw_user_meta_data]. *)
Record auth_user := AuthUser {
  user_id : uuid;
  raw_user_meta_data : option (gmap string json)
}.

Record database := Database {
  auth_users : list auth_user;
  public : gmap string (list row)
}.

Definition empty : database := Database [] ∅.

Definition rows_of (db : database) (t : string) : list row :=
  default [] (public db !! t).

Definition set_rows (t : string) (rs : list row) (db : database) : database :=
  Database (auth_users db) (<[t := rs]> (public db)).

(** The non-NULL values found in column [c] of table [t]. *)
Definition column_values (db : database) (t c : string) : list string :=
  if bool_decide (t = "auth.users") then
    if bool_decide (c = "id") then user_id <$> auth_users db else []
  else omap (λ r : row, r !! c) (rows_of db t).

(** What [gen_random_uuid()], [now()] and [CURRENT_DATE] give when a
    statement runs. *)
Record clock := Clock {
  random_uuid : uuid;
  timestamp : string;
  today : string
}.

Definition eval_default (k : clock) (d : default_expr) : string :=
  match d with
  | gen_random_uuid => random_uuid k
  | now => timestamp k
  | CURRENT_DATE => today k
  | Literal s => s
  end.

Definition column_default (c : column) : option default_expr :=
  head (omap (λ k, match k with DEFAULT d => Some d | _ => None end)
             (col_constraints c)).

(** The values of an INSERT or of the SET of an UPDATE: a column given
    [None] is set to NULL. *)
Abbreviation assignment := (gmap string (option string)) (only parsing).

(** The row an INSERT builds: a column that is not mentioned takes its
    default, NULL when it has none. *)
Definition new_row (k : clock) (t : table) (values : assignment) : row :=
  foldr (λ c (r : row),
           match values !! col_name c with
           | Some (Some v) => <[col_name c := v]> r
           | Some None => r
           | None =>
               match column_default c with
               | Some d => <[col_name c := eval_default k d]> r
               | None => r
               end
           end) ∅ (tbl_columns t).

Definition assign (set : assignment) (r : row) : row :=
  map_fold (λ c v (r : row),
              match v with
              | Some v => <[c := v]> r
              | None => delete c r
              end) r set.

Definition known_columns (t : table) (values : assignment) : bool :=
  bool_decide (dom values ⊆ list_to_set (col_name <$> tbl_columns t)).

(** [update_updated_at_column()], run [BEFORE UPDATE ... FOR EACH ROW] on
    the three tables. *)
Definition update_updated_at_column (k : clock) (NEW : row) : row :=
  <["updated_at" := timestamp k]> NEW.

Definition before_update (t : string) (k : clock) (NEW : row) : row :=
  if bool_decide (t ∈ ["profiles"; "patients"; "patient_records"])
  then update_updated_at_column k NEW
  else NEW.

(** *** Constraints *)

Definition satisfies (db : database) (c : string) (r : row) (k : constraint)
    : bool :=
  match k with
  | PRIMARY_KEY | NOT_NULL => bool_decide (is_Some (r !! c))
  | REFERENCES_ON_DELETE_CASCADE t' c' =>
      match r !! c with
      | Some v => bool_decide (v ∈ column_values db t' c')
      | None => true
      end
  | DEFAULT _ => true
  | CHECK_IN vs =>
      match r !! c with
      | Some v => bool_decide (v ∈ vs)
      | None => true
      end
  end.

Definition is_primary_key (c : column) : bool :=
  existsb (λ k, match k with PRIMARY_KEY => true | _ => false end)
          (col_constraints c).

Definition column_ok (db : database) (t : table) (c : column) : bool :=
  forallb (λ r, forallb (satisfies db (col_name c) r) (col_constraints c))
          (rows_of db (tbl_name t))
  && (if is_primary_key c
      then bool_decide (NoDup (column_values db (tbl_name t) (col_name c)))
      else true).

(** Every constraint of the schema holds, and account ids are unique. *)
Definition consistent (db : database) : bool :=
  bool_decide (NoDup (user_id <$> auth_users db))
  && forallb (λ t, forallb (column_ok db t) (tbl_columns t)) schema.

(** *** Referential actions *)

(** The foreign keys [(t', c', c)]: column [c'] of table [t'] references
    column [c] of table [t]. *)
Definition referencing (t : string) : list (string * string * string) :=
  tb ← schema;
  col ← tbl_columns tb;
  omap (λ k, match k with
             | REFERENCES_ON_DELETE_CASCADE t0 c =>
                 if bool_decide (t0 = t)
                 then Some (tbl_name tb, col_name col, c) else None
             | _ => None
             end) (col_constraints col).

Definition refers_to (c' c : string) (dead : list row) (r : row) : bool :=
  match r !! c' with
  | Some v => bool_decide (v ∈ omap (λ d : row, d !! c) dead)
  | None => false
  end.

(** [ON DELETE CASCADE]: once the rows [dead] of table [t] are gone, the
    rows that reference them go too, and so on.  The database does this
    itself; row security has no say in it. *)
Fixpoint cascade (fuel : nat) (t : string) (dead : list row) (db : database)
    : database :=
  match fuel with
  | O => db
  | S fuel =>
      foldr (λ '(t', c', c) db,
               let rs := rows_of db t' in
               cascade fuel t' (filter (λ r, refers_to c' c dead r = true) rs)
                 (set_rows t' (filter (λ r, refers_to c' c dead r = false) rs)
                           db))
            db (referencing t)
  end.

(** *** Statements *)

(** Who runs a statement: a client of the REST interface, with the identity
    of its token if it has one, or the owner of the tables, whom row
    security does not bind. *)
Inductive caller :=
| Owner
| Client (uid : option uuid).

Definition may_see (who : caller) (t : string) (c : command) (r : row)
    : bool :=
  match who with
  | Owner => true
  | Client uid => visible uid t c r
  end.

Definition may_write (who : caller) (t : string) (c : command) (r : row)
    : bool :=
  match who with
  | Owner => true
  | Client uid => writable uid t c r
  end.

Inductive statement :=
| Select (t : string) (where_ : row → bool)
| Insert (t : string) (values : assignment)
| Update (t : string) (set : assignment) (where_ : row → bool)
| Delete (t : string) (where_ : row → bool).

Inductive error :=
| undefined_table
| undefined_column
| row_security_violation
| constraint_violation.

(** A statement ends in an error, which leaves the database as it was, or in
    a new database and the rows it read or wrote. *)
Inductive result :=
| Ok (db : database) (rs : list row)
| Error (e : error).

Definition commit (db : database) (rs : list row) : result :=
  if consistent db then Ok db rs else Error constraint_violation.

(** One statement.  SELECT, UPDATE and DELETE reach the rows that pass the
    policies of their command ([USING]) and the WHERE clause; INSERT and
    UPDATE must write rows that pass [WITH CHECK].  (PostgreSQL also asks
    the rows an UPDATE, a DELETE or a RETURNING clause reads to pass the
    SELECT policies; in this migration those have the same expression as
    the policies of the other commands.) *)

Definition exec (k : clock) (who : caller) (s : statement) (db : database)
    : result :=
  match s with
  | Select t where_ =>
      match find_table t with
      | None => Error undefined_table
      | Some _ =>
          Ok db (filter (λ r, may_see who t SELECT r && where_ r = true)
                        (rows_of db t))
      end
  | Insert t values =>
      match find_table t with
      | None => Error undefined_table
      | Some tb =>
          if known_columns tb values then
            let r := new_row k tb values in
            if may_write who t INSERT r
            then commit (set_rows t (rows_of db t ++ [r]) db) [r]
            else Error row_security_violation
          else Error undefined_column
      end
  | Update t set where_ =>
      match find_table t with
      | None => Error undefined_table
      | Some tb =>
          if known_columns tb set then
            let hit r := may_see who t UPDATE r && where_ r in
            let upd r := if hit r then before_update t k (assign set r) else r in
            let old := rows_of db t in
            if forallb (λ r, may_write who t UPDATE (upd r))
                       (filter (λ r, hit r = true) old)
            then commit (set_rows t (upd <$> old) db)
                        (upd <$> filter (λ r, hit r = true) old)
            else Error row_security_violation
          else Error undefined_column
      end
  | Delete t where_ =>
      match find_table t with
      | None => Error undefined_table
      | Some _ =>
          let hit r := may_see who t DELETE r && where_ r in
          let old := rows_of db t in
          let dead := filter (λ r, hit r = true) old in
          commit (cascade (length schema) t dead
                    (set_rows t (filter (λ r, hit r = false) old) db))
                 dead
      end
  end.

(** *** The sign-up trigger *)

(** [object ->> key]: the member as text; NULL when the object is NULL, has
    no such member, or the member is JSON null. *)
Definition json_text (j : json) : option string :=
  match j with
  | JNull => None
  | JBool b => Some (if b then "true" else "false")
  | JNumber n => Some (pretty n)
  | JString s => Some s
  end.

Definition arrow_text (o : option (gmap string json)) (key : string)
    : option string :=
  match o with
  | Some m =>
      match m !! key with
      | Some j => json_text j
      | None => None
      end
  | None => None
  end.

Definition COALESCE (a : option string) (b : string) : string := default b a.

(** [handle_new_user()] is [SECURITY DEFINER]: its INSERT runs as the owner
    of the function, not as the account being created. *)
Definition handle_new_user (k : clock) (NEW : auth_user) (db : database)
    : result :=
  exec k Owner
    (Insert "profiles"
       {[ "id" := Some (user_id NEW);
          "full_name" :=
            Some (COALESCE (arrow_text (raw_user_meta_data NEW) "full_name")
                           "Psicólogo(a)") ]})
    db.

(** [INSERT INTO auth.users], with [on_auth_user_created] fired [AFTER
    INSERT ... FOR EACH ROW]; an error in the trigger undoes the insert. *)
Definition insert_auth_user (k : clock) (NEW : auth_user) (db : database)
    : result :=
  handle_new_user k NEW (Database (auth_users db ++ [NEW]) (public db)).

(** [DELETE FROM auth.users WHERE id = ...], with the cascades it sets off. *)
Definition delete_auth_user (id : uuid) (db : database) : result :=
  commit
    (cascade (S (length schema)) "auth.users" [{[ "id" := id ]}]
       (Database (filter (λ u, user_id u ≠ id) (auth_users db)) (public db)))
    [].

(** *** Histories *)

(** What happens to the database once the migration is in place: accounts
    are created and removed by the identity service, and clients send
    statements. *)
Inductive event :=
| SignUp (k : clock) (NEW : auth_user)
| AccountRemoved (id : uuid)
| Request (k : clock) (uid : option uuid) (s : statement).

Definition run_event (e : event) (db : database) : result :=
  match e with
  | SignUp k NEW => insert_auth_user k NEW db
  | AccountRemoved id => delete_auth_user id db
  | Request k uid s => exec k (Client uid) s db
  end.

Definition after (r : result) (db : database) : database :=
  match r with
  | Ok db' _ => db'
  | Error _ => db
  end.

Definition step (db : database) (e : event) : database :=
  after (run_event e db) db.

Definition history (es : list event) : database := foldl step empty es.

End Db.

(** ** The generated REST client *)

Module Supabase.
Import Sql Db.

(** The four kinds of request the client can build.  [returning] is set by
    a [.select()] chained after a write. *)
Inductive verb :=
| select (count_exact head_only : bool)
| insert (values : gmap string (option string)) (returning : bool)
| update (values : gmap string (option string)) (returning : bool)
| delete.

Inductive cardinality := many | single | maybeSingle.

Record query := Query {
  table_ : string;
  method : verb;
  filters : list (string * string);
  ordering : option (string * bool);
  limit_ : option nat;
  expect : cardinality
}.

(** The builder calls, in the order the pages chain them. *)
Definition from (t : string) : query :=
  Query t (select false false) [] None None many.
Definition select_ (q : query) : query :=
  match method q with
  | insert v _ =>
      Query (table_ q) (insert v true) (filters q) (ordering q) (limit_ q)
            (expect q)
  | update v _ =>
      Query (table_ q) (update v true) (filters q) (ordering q) (limit_ q)
            (expect q)
  | select _ _ | delete => q
  end.
Definition select_count_head (q : query) : query :=
  Query (table_ q) (select true true) (filters q) (ordering q) (limit_ q)
        (expect q).
Definition insert_ (values : gmap string (option string)) (q : query)
    : query :=
  Query (table_ q) (insert values false) (filters q) (ordering q) (limit_ q)
        (expect q).
Definition update_ (values : gmap string (option string)) (q : query)
    : query :=
  Query (table_ q) (update values false) (filters q) (ordering q) (limit_ q)
        (expect q).
Definition delete_ (q : query) : query :=
  Query (table_ q) delete (filters q) (ordering q) (limit_ q) (expect q).
Definition eq (c v : string) (q : query) : query :=
  Query (table_ q) (method q) (filters q ++ [(c, v)]) (ordering q) (limit_ q)
        (expect q).
Definition order (c : string) (ascending : bool) (q : query) : query :=
  Query (table_ q) (method q) (filters q) (Some (c, ascending)) (limit_ q)
        (expect q).
Definition limit (n : nat) (q : query) : query :=
  Query (table_ q) (method q) (filters q) (ordering q) (Some n) (expect q).
Definition single_ (q : query) : query :=
  Query (table_ q) (method q) (filters q) (ordering q) (limit_ q) single.
Definition maybeSingle_ (q : query) : query :=
  Query (table_ q) (method q) (filters q) (ordering q) (limit_ q) maybeSingle.

Inductive payload :=
| null
| object (r : row)
| array (rs : list row).

Inductive failure :=
| database_error (e : Db.error)
| not_a_single_row.

Record response := Response {
  data : payload;
  count : option nat;
  error : option failure
}.

Definition failed (e : failure) : response := Response null None (Some e).

(** [.eq(c, v)]: the column is not NULL and equals [v]. *)
Definition matches (fs : list (string * string)) (r : row) : bool :=
  forallb (λ '(c, v), bool_decide (r !! c = Some v)) fs.

(** [ORDER BY c]: ascending puts NULL last, descending first.  Text is
    compared byte by byte. *)
Definition key_le (a b : option string) : bool :=
  match a, b with
  | _, None => true
  | None, Some _ => false
  | Some x, Some y => String.leb x y
  end.

Definition row_le (c : string) (ascending : bool) (r1 r2 : row) : Prop :=
  (if ascending then key_le (r1 !! c) (r2 !! c)
   else key_le (r2 !! c) (r1 !! c)) = true.

#[global] Instance row_le_dec c asc r1 r2 : Decision (row_le c asc r1 r2).
Proof. unfold row_le. apply _. Defined.

Definition sorted (o : option (string * bool)) (rs : list row) : list row :=
  match o with
  | Some (c, asc) => merge_sort (row_le c asc) rs
  | None => rs
  end.

Definition limited (n : option nat) (rs : list row) : list row :=
  match n with
  | Some n => take n rs
  | None => rs
  end.

Definition shaped (c : cardinality) (rs : list row) (cnt : option nat)
    : response :=
  match c with
  | many => Response (array rs) cnt None
  | single =>
      match rs with
      | [r] => Response (object r) cnt None
      | _ => failed not_a_single_row
      end
  | maybeSingle =>
      match rs with
      | [] => Response null cnt None
      | [r] => Response (object r) cnt None
      | _ => failed not_a_single_row
      end
  end.

(** The rows a read query ranges over: those of the table the caller may
    see and that pass the query's own filters. *)
Definition selected (k : clock) (who : caller) (q : query) (db : database)
    : result :=
  exec k who (Select (table_ q) (matches (filters q))) db.

(** The REST interface answering query [q] sent by [who]. *)
Definition respond (k : clock) (who : caller) (q : query) (db : database)
    : database * response :=
  match method q with
  | select count_exact head_only =>
      match selected k who q db with
      | Error e => (db, failed (database_error e))
      | Ok _ rs =>
          let cnt := if count_exact then Some (length rs) else None in
          if head_only then (db, Response null cnt None)
          else (db, shaped (expect q)
                           (limited (limit_ q) (sorted (ordering q) rs)) cnt)
      end
  | insert values returning =>
      match exec k who (Insert (table_ q) values) db with
      | Error e => (db, failed (database_error e))
      | Ok db' rs =>
          if returning then (db', shaped (expect q) rs None)
          else (db', Response null None None)
      end
  | update values returning =>
      match exec k who (Update (table_ q) values (matches (filters q))) db with
      | Error e => (db, failed (database_error e))
      | Ok db' rs =>
          if returning then (db', shaped (expect q) rs None)
          else (db', Response null None None)
      end
  | delete =>
      match exec k who (Delete (table_ q) (matches (filters q))) db with
      | Error e => (db, failed (database_error e))
      | Ok db' _ => (db', Response null None None)
      end
  end.



End Supabase.

(** ** JavaScript strings *)

Module Js.

(** [s.startsWith(t)] and [s.includes(t)]. *)
Fixpoint startsWith (s t : string) {struct t} : bool :=
  match t, s with
  | EmptyString, _ => true
  | String b t', String a s' => bool_decide (a = b) && startsWith s' t'
  | String _ _, EmptyString => false
  end.

Fixpoint includes (s t : string) : bool :=
  startsWith s t ||
  match s with
  | EmptyString => false
  | String _ s' => includes s' t
  end.

(** [t] occurs in [s]: some characters, then [t], then the rest. *)
Definition occurs_in (t s : string) : Prop :=
  ∃ a b : string, s = a +:+ t +:+ b.

(** [toLowerCase] and [trim] are taken as the language gives them; what the
    pages rely on is that the empty string lower-cases to itself. *)
Class StringMethods := {
  toLowerCase : string → string;
  trim : string → string;
  toLowerCase_empty : toLowerCase "" = ""
}.

(** [s || null] on a string: the empty string is falsy. *)
Definition or_null (s : string) : option string :=
  if bool_decide (s = "") then None else Some s.

(** The two methods on strings of ASCII characters. *)
Definition lower_ascii (a : ascii) : ascii :=
  let n := nat_of_ascii a in
  if bool_decide (65 ≤ n ≤ 90)%nat then ascii_of_nat (n + 32) else a.

Fixpoint lower (s : string) : string :=
  match s with
  | EmptyString => EmptyString
  | String a s' => String (lower_ascii a) (lower s')
  end.

Definition is_space (a : ascii) : bool :=
  let n := nat_of_ascii a in
  bool_decide (n = 32 ∨ 9 ≤ n ≤ 13)%nat.

Fixpoint trimStart (s : string) : string :=
  match s with
  | EmptyString => EmptyString
  | String a s' => if is_space a then trimStart s' else s
  end.

Fixpoint trimEnd (s : string) : string :=
  match s with
  | EmptyString => EmptyString
  | String a s' =>
      match trimEnd s' with
      | EmptyString => if is_space a then EmptyString else String a EmptyString
      | rest => String a rest
      end
  end.

#[export] Instance ascii_methods : StringMethods := {|
  toLowerCase := lower;
  trim := λ s, trimEnd (trimStart s);
  toLowerCase_empty := eq_refl
|}.

End Js.

(** ** The pages *)

Module Pages.
Import Supabase Js.

Notation "q |> f" := (f q) (at level 45, left associativity, only parsing).

(** How a page reaches the database: it hands over a query and gets the
    answer back, the database having moved on meanwhile. *)
Definition backend := query → Db.database → Db.database * response.

(** What a handler does besides moving its component's state. *)
Inductive effect :=
| sent (q : query)
| toast (title description : string) (variant : option string)
| navigate (to : string)
| console_error (label : string)
| signIn (email password : string)
| signUp (email password fullName : string)
| signOut.

(** [data || []] *)
Definition or_empty (p : payload) : list row :=
  match p with
  | array rs => rs
  | object r => [r]
  | null => []
  end.

(** [count || 0] *)
Definition or_zero (n : option nat) : nat := default 0%nat n.

(** The queries among the effects. *)
Definition queries (es : list effect) : list query :=
  omap (λ e, match e with sent q => Some q | _ => None end) es.

(** *** Dashboard *)

Module Dashboard.

Record DashboardStats := Stats {
  totalPatients : nat;
  activePatients : nat;
  totalRecords : nat
}.

Record state := State {
  patients : list row;
  stats : DashboardStats;
  loading : bool
}.

Definition initial : state := State [] (Stats 0 0 0) true.

Definition recent_patients : query :=
  from "patients" |> select_ |> order "created_at" false |> limit 5.
Definition count_patients : query :=
  from "patients" |> select_count_head.
Definition count_active_patients : query :=
  from "patients" |> select_count_head |> eq "status" "active".
Definition count_records : query :=
  from "patient_records" |> select_count_head.

Definition fetchDashboardData (request : backend) (st : state)
    (db : Db.database) : Db.database * state * list effect :=
  let '(db, patientsRes) := request recent_patients db in
  match error patientsRes with
  | Some _ =>
      (db, State (patients st) (stats st) false,
       [sent recent_patients;
        console_error "Error fetching dashboard data:"])
  | None =>
      let '(db, total) := request count_patients db in
      let '(db, active) := request count_active_patients db in
      let '(db, records) := request count_records db in
      (db,
       State (or_empty (data patientsRes))
             (Stats (or_zero (count total)) (or_zero (count active))
                    (or_zero (count records)))
             false,
       [sent recent_patients; sent count_patients;
        sent count_active_patients; sent count_records])
  end.

End Dashboard.

(** *** Patients *)

Module Patients.

Record Patient := {
  id : string;
  full_name : string;
  email : option string;
  phone : option string;
  status : string;
  created_at : string
}.

(** The answer's objects, read at the type the page declares for them.  The
    columns the page types as [string] are NOT NULL in the table. *)
Definition as_Patient (r : row) : Patient :=
  {| id := default "" (r !! "id");
     full_name := default "" (r !! "full_name");
     email := r !! "email";
     phone := r !! "phone";
     status := default "" (r !! "status");
     created_at := default "" (r !! "created_at") |}.

Record state := State {
  patients : list Patient;
  filteredPatients : list Patient;
  searchTerm : string;
  loading : bool
}.

Definition initial : state := State [] [] "" true.

(** The callback of [patients.filter(...)]; [?.] on a null email or phone
    gives undefined, which is falsy. *)
Definition search_matches `{StringMethods} (searchTerm : string)
    (patient : Patient) : bool :=
  includes (toLowerCase (full_name patient)) (toLowerCase searchTerm)
  || match email patient with
     | Some e => includes (toLowerCase e) (toLowerCase searchTerm)
     | None => false
     end
  || match phone patient with
     | Some p => includes p searchTerm
     | None => false
     end.

(** What the search is meant to find: the term occurs in the name or in the
    e-mail address once both sides are lower-cased, or in the phone number
    as it is typed. *)
Definition found `{StringMethods} (searchTerm : string) (patient : Patient)
    : Prop :=
  occurs_in (toLowerCase searchTerm) (toLowerCase (full_name patient))
  ∨ (∃ e, email patient = Some e
          ∧ occurs_in (toLowerCase searchTerm) (toLowerCase e))
  ∨ (∃ p, phone patient = Some p ∧ occurs_in searchTerm p).

Definition filtered `{StringMethods} (searchTerm : string)
    (patients : list Patient) : list Patient :=
  List.filter (search_matches searchTerm) patients.

(** The effect that runs when [searchTerm] or [patients] changes. *)
Definition search_effect `{StringMethods} (st : state) : state :=
  State (patients st) (filtered (searchTerm st) (patients st))
        (searchTerm st) (loading st).

Definition setSearchTerm `{StringMethods} (value : string) (st : state)
    : state :=
  search_effect (State (patients st) (filteredPatients st) value (loading st)).

Definition all_patients : query :=
  from "patients" |> select_ |> order "full_name" true.

Definition fetchPatients `{StringMethods} (request : backend) (st : state)
    (db : Db.database) : Db.database * state * list effect :=
  let '(db, res) := request all_patients db in
  match error res with
  | Some _ =>
      (db, State (patients st) (filteredPatients st) (searchTerm st) false,
       [sent all_patients; console_error "Error fetching patients:"])
  | None =>
      let got := as_Patient <$> or_empty (data res) in
      (db, search_effect (State got got (searchTerm st) false),
       [sent all_patients])
  end.

End Patients.

(** *** NewPatient *)

Module NewPatient.

Record formData := {
  full_name : string;
  email : string;
  phone : string;
  birth_date : string;
  cpf : string;
  address : string;
  emergency_contact : string;
  emergency_phone : string;
  notes : string;
  status : string
}.

Definition initial : formData :=
  {| full_name := ""; email := ""; phone := ""; birth_date := ""; cpf := "";
     address := ""; emergency_contact := ""; emergency_phone := "";
     notes := ""; status := "active" |}.

(** The object given to [.insert(...)]. *)
Definition new_patient `{StringMethods} (user_id : uuid) (f : formData)
    : gmap string (option string) :=
  {[ "psychologist_id" := Some user_id;
     "full_name" := Some (trim (full_name f));
     "email" := or_null (email f);
     "phone" := or_null (phone f);
     "birth_date" := or_null (birth_date f);
     "cpf" := or_null (cpf f);
     "address" := or_null (address f);
     "emergency_contact" := or_null (emergency_contact f);
     "emergency_phone" := or_null (emergency_phone f);
     "notes" := or_null (notes f);
     "status" := Some (status f) ]}.

(** The fields of the form that may be left empty, with the column each
    one goes to. *)
Definition optional_fields : list (string * (formData → string)) :=
  [ ("email", email); ("phone", phone); ("birth_date", birth_date);
    ("cpf", cpf); ("address", address);
    ("emergency_contact", emergency_contact);
    ("emergency_phone", emergency_phone); ("notes", notes) ].

Definition insert_patient `{StringMethods} (user_id : uuid) (f : formData)
    : query :=
  from "patients" |> insert_ (new_patient user_id f) |> select_ |> single_.

Definition name_required : effect :=
  toast "Nome obrigatório" "Por favor, informe o nome do paciente."
        (Some "destructive").
Definition created : effect :=
  toast "Paciente cadastrado!" "O paciente foi adicionado com sucesso." None.
Definition not_created : list effect :=
  [ console_error "Error creating patient:";
    toast "Erro ao cadastrar"
          "Não foi possível cadastrar o paciente. Tente novamente."
          (Some "destructive") ].

(** [user] is the signed-in account as the page sees it, null when there is
    none. *)
Definition handleSubmit `{StringMethods} (request : backend)
    (user : option uuid) (f : formData) (db : Db.database)
    : Db.database * list effect :=
  match user with
  | None => (db, [])
  | Some user_id =>
      if bool_decide (trim (full_name f) = "") then (db, [name_required])
      else
        let q := insert_patient user_id f in
        let '(db, res) := request q db in
        (db,
         sent q ::
         match error res, data res with
         | Some _, _ => not_created
         | None, object r =>
             [created; navigate ("/patients/" +:+ default "undefined" (r !! "id"))]
         | None, array _ => [created; navigate "/patients/undefined"]
         | None, null => created :: not_created
         end)
  end.

End NewPatient.

(** *** PatientDetail *)

Module PatientDetail.

Record NewRecord := {
  session_date : string;
  session_type : string;
  main_complaint : string;
  session_notes : string;
  observations : string;
  next_session_goals : string;
  mood_state : string;
  interventions : string
}.

(** [today] is [new Date().toISOString().split('T')[0]]. *)
Definition blank (today : string) : NewRecord :=
  {| session_date := today; session_type := "individual";
     main_complaint := ""; session_notes := ""; observations := "";
     next_session_goals := ""; mood_state := ""; interventions := "" |}.

Record state := State {
  patient : option row;
  records : list row;
  loading : bool;
  isNewRecordOpen : bool;
  newRecord : NewRecord
}.

Definition initial (today : string) : state :=
  State None [] true false (blank today).

Definition the_patient (id : string) : query :=
  from "patients" |> select_ |> eq "id" id |> maybeSingle_.
Definition the_records (id : string) : query :=
  from "patient_records" |> select_ |> eq "patient_id" id
    |> order "session_date" false.

Definition not_loaded : list effect :=
  [ console_error "Error fetching patient:";
    toast "Erro" "Não foi possível carregar os dados do paciente."
          (Some "destructive") ].

Definition fetchPatientData (request : backend) (id : string) (st : state)
    (db : Db.database) : Db.database * state * list effect :=
  let '(db, patientRes) := request (the_patient id) db in
  let '(db, recordsRes) := request (the_records id) db in
  let asked := [sent (the_patient id); sent (the_records id)] in
  let done_ := State (patient st) (records st) false (isNewRecordOpen st)
                     (newRecord st) in
  match error patientRes, error recordsRes with
  | Some _, _ | None, Some _ => (db, done_, asked ++ not_loaded)
  | None, None =>
      match data patientRes with
      | object r =>
          (db,
           State (Some r) (or_empty (data recordsRes)) false
                 (isNewRecordOpen st) (newRecord st),
           asked)
      | _ => (db, done_, asked ++ [navigate "/patients"])
      end
  end.

(** The object given to [.insert(...)]; a member that is undefined is left
    out when the object is sent. *)
Definition new_record (patient : row) (user_id : uuid) (n : NewRecord)
    : gmap string (option string) :=
  let rest : gmap string (option string) :=
    {[ "psychologist_id" := Some user_id;
       "session_date" := Some (session_date n);
       "session_type" := Some (session_type n);
       "main_complaint" := or_null (main_complaint n);
       "session_notes" := or_null (session_notes n);
       "observations" := or_null (observations n);
       "next_session_goals" := or_null (next_session_goals n);
       "mood_state" := or_null (mood_state n);
       "interventions" := or_null (interventions n) ]} in
  match patient !! "id" with
  | Some pid => <["patient_id" := Some pid]> rest
  | None => rest
  end.

Definition insert_record (patient : row) (user_id : uuid) (n : NewRecord)
    : query :=
  from "patient_records" |> insert_ (new_record patient user_id n).

Definition record_created : effect :=
  toast "Prontuário criado!" "O registro foi adicionado com sucesso." None.
Definition record_not_created : list effect :=
  [ console_error "Error creating record:";
    toast "Erro" "Não foi possível criar o prontuário." (Some "destructive") ].

Definition handleCreateRecord (request : backend) (user : option uuid)
    (id today : string) (st : state) (db : Db.database)
    : Db.database * state * list effect :=
  match user, patient st with
  | Some user_id, Some p =>
      let q := insert_record p user_id (newRecord st) in
      let '(db, res) := request q db in
      match error res with
      | Some _ => (db, st, sent q :: record_not_created)
      | None =>
          let st := State (patient st) (records st) (loading st) false
                          (blank today) in
          let '(db, st, es) := fetchPatientData request id st db in
          (db, st, sent q :: record_created :: es)
      end
  | _, _ => (db, st, [])
  end.

End PatientDetail.

(** *** Auth *)

Module Auth.

(** The page leaves signing in and up to the [useAuth] hook; [outcome] is
    the error message the hook reports, if any. *)
Definition handleSubmit `{StringMethods} (isLogin : bool)
    (email password fullName : string) (outcome : option string)
    : list effect :=
  if isLogin then
    signIn email password ::
    match outcome with
    | Some message =>
        [toast "Erro ao entrar"
               (if bool_decide (message = "Invalid login credentials")
                then "Email ou senha incorretos" else message)
               (Some "destructive")]
    | None => []
    end
  else if bool_decide (trim fullName = "") then
    [toast "Nome obrigatório" "Por favor, informe seu nome completo."
           (Some "destructive")]
  else
    signUp email password fullName ::
    match outcome with
    | Some message =>
        [toast "Erro ao cadastrar"
               (if includes message "already registered"
                then "Este email já está cadastrado" else message)
               (Some "destructive")]
    | None => [toast "Conta criada com sucesso!" "Bem-vindo(a) ao PsiCare." None]
    end.

End Auth.

(** *** AppSidebar *)

Module AppSidebar.

Definition handleSignOut : list effect := [signOut; navigate "/auth"].

End AppSidebar.

(** *** Everything a page does *)

(** The effects of one run of one handler of one page, or of the sidebar
    the pages share. *)
Inductive page_run `{StringMethods} (request : backend)
    : list effect → Prop :=
| run_fetchDashboardData st db :
    page_run request (Dashboard.fetchDashboardData request st db).2
| run_fetchPatients st db :
    page_run request (Patients.fetchPatients request st db).2
| run_NewPatient_handleSubmit user f db :
    page_run request (NewPatient.handleSubmit request user f db).2
| run_fetchPatientData id st db :
    page_run request (PatientDetail.fetchPatientData request id st db).2
| run_handleCreateRecord user id today st db :
    page_run request
      (PatientDetail.handleCreateRecord request user id today st db).2
| run_Auth_handleSubmit isLogin email password fullName outcome :
    page_run request
      (Auth.handleSubmit isLogin email password fullName outcome)
| run_handleSignOut : page_run request AppSidebar.handleSignOut.

(** The queries written in the pages. *)
Inductive page_query `{StringMethods} : query → Prop :=
| dashboard_recent_patients : page_query Dashboard.recent_patients
| dashboard_count_patients : page_query Dashboard.count_patients
| dashboard_count_active_patients :
    page_query Dashboard.count_active_patients
| dashboard_count_records : page_query Dashboard.count_records
| patients_all_patients : page_query Patients.all_patients
| newpatient_insert_patient user_id f :
    page_query (NewPatient.insert_patient user_id f)
| detail_the_patient id : page_query (PatientDetail.the_patient id)
| detail_the_records id : page_query (PatientDetail.the_records id)
| detail_insert_record p user_id n :
    page_query (PatientDetail.insert_record p user_id n).


(** The SQL command a query stands for. *)
Definition command_of (q : query) : Sql.command :=
  match method q with
  | select _ _ => Sql.SELECT
  | insert _ _ => Sql.INSERT
  | update _ _ => Sql.UPDATE
  | delete => Sql.DELETE
  end.

(** The pages offer command [c] on table [t] when one of their queries is
    that command on that table. *)
Definition offered `{StringMethods} (t : string) (c : Sql.command) : Prop :=
  ∃ q, page_query q ∧ table_ q = t ∧ command_of q = c.

End Pages.

(** ** What the claims speak about *)

Module Access.
Import Sql Db.

(** A policy whose expression is [auth.uid() = c], with [c] the column of
    its table that points at the account. *)
Definition owner_equality (p : policy) : Prop :=
  ∃ tb c,
    find_table (pol_table p) = Some tb ∧ ownership_columns tb = [c] ∧
    ((pol_using p = Some (Equals auth_uid (column_ref c))
      ∧ pol_with_check p = None)
     ∨ (pol_using p = None
        ∧ pol_with_check p = Some (Equals auth_uid (column_ref c)))).

(** The rows of table [t] that belong to account [u]. *)
Definition owned_by (u : uuid) (t : string) (db : database) : list row :=
  filter (λ r, owner t r = Some u) (rows_of db t).

(** The two tables that hold clinical data. *)
Definition clinical (t : string) : Prop :=
  t = "patients" ∨ t = "patient_records".

(** Account [id] has a row in [profiles]. *)
Definition has_profile (db : database) (id : uuid) : Prop :=
  ∃ r : row, r ∈ rows_of db "profiles" ∧ r !! "id" = Some id.

(** The table a statement is about. *)
Definition target (s : statement) : string :=
  match s with
  | Select t _ | Insert t _ | Update t _ _ | Delete t _ => t
  end.

End Access.

(** ** Sample data *)

Module Sample.
Import Sql Db Supabase Js Pages.

Definition ana : uuid := "11111111-aaaa".
Definition bruno : uuid := "22222222-bbbb".

Definition ana_signs_up : event :=
  SignUp (Clock "" "2025-12-16 09:00" "2025-12-16")
         (AuthUser ana (Some {[ "full_name" := JString "Ana Souza" ]})).
Definition bruno_signs_up : event :=
  SignUp (Clock "" "2025-12-16 09:05" "2025-12-16") (AuthUser bruno None).

(** Bruno registers a patient. *)
Definition bruno_adds_patient : event :=
  Request (Clock "33333333-cccc" "2025-12-16 10:00" "2025-12-16") (Some bruno)
    (Insert "patients"
       {[ "psychologist_id" := Some bruno; "full_name" := Some "Carla" ]}).

(** Ana files, under her own name, a record about Bruno's patient. *)
Definition ana_adds_record : event :=
  Request (Clock "44444444-dddd" "2025-12-16 11:00" "2025-12-16") (Some ana)
    (Insert "patient_records"
       {[ "patient_id" := Some "33333333-cccc";
          "psychologist_id" := Some ana;
          "session_notes" := Some "first session" ]}).

(** [WHERE id = '33333333-cccc']: the patient Bruno registered. *)
Definition carla (r : row) : bool :=
  bool_decide (r !! "id" = Some "33333333-cccc").

Definition two_accounts : database := history [ana_signs_up; bruno_signs_up].

Definition shared_patient : database :=
  history [ana_signs_up; bruno_signs_up; bruno_adds_patient; ana_adds_record].

(** A database in which a clinician [v] has one patient, with id [id], and
    one record about that patient. *)
Definition patient_of (v id : string) : row :=
  {[ "id" := id; "psychologist_id" := v; "full_name" := "Elisa";
     "status" := "active"; "created_at" := "2025-12-16 10:00";
     "updated_at" := "2025-12-16 10:00" ]}.
Definition record_of (v id : string) : row :=
  {[ "id" := "66666666-ffff"; "patient_id" := id; "psychologist_id" := v;
     "session_date" := "2025-12-16"; "created_at" := "2025-12-16 11:00";
     "updated_at" := "2025-12-16 11:00" ]}.
Definition practice_of (v id : string) : database :=
  Database [AuthUser v None]
    {[ "patients" := [patient_of v id];
       "patient_records" := [record_of v id] ]}.



Definition later : clock := Clock "55555555-eeee" "2025-12-17 08:00" "2025-12-17".

Definition form : NewPatient.formData :=
  {| NewPatient.full_name := "  Davi Lima ";
     NewPatient.email := "";
     NewPatient.phone := "555-0101";
     NewPatient.birth_date := "";
     NewPatient.cpf := "";
     NewPatient.address := "";
     NewPatient.emergency_contact := "";
     NewPatient.emergency_phone := "";
     NewPatient.notes := "";
     NewPatient.status := "active" |}.

End Sample.

(** ** Badges, forms and the sidebar *)

Module Badges.

(** What every object literal inherits from [Object.prototype]: reading one
    of these names from a lookup table gives a function or an object, not
    an entry of the table. *)
Definition Object_prototype : list string :=
  [ "constructor"; "__proto__"; "hasOwnProperty"; "isPrototypeOf";
    "propertyIsEnumerable"; "toLocaleString"; "toString"; "valueOf";
    "__defineGetter__"; "__defineSetter__"; "__lookupGetter__";
    "__lookupSetter__" ].

(** The name a value is looked up under: null reads the member "null". *)
Definition property_key (v : option string) : string := default "null" v.

Record variant := Variant {
  label : option string;
  className : option string
}.

Definition variants : gmap string variant :=
  {[ "active" :=
       Variant (Some "Ativo")
               (Some "bg-success/10 text-success border-success/20");
     "inactive" :=
       Variant (Some "Inativo") (Some "bg-muted text-muted-foreground");
     "discharged" :=
       Variant (Some "Alta") (Some "bg-info/10 text-info border-info/20") ]}.

(** [variants[status] || variants.inactive], then the label and class read
    off the result; an inherited member has neither. *)
Definition getStatusBadge (status : option string) : variant :=
  let key := property_key status in
  match variants !! key with
  | Some v => v
  | None =>
      if bool_decide (key ∈ Object_prototype) then Variant None None
      else default (Variant None None) (variants !! "inactive")
  end.

Definition labels : gmap string string :=
  {[ "individual" := "Individual"; "couple" := "Casal";
     "family" := "Família"; "group" := "Grupo" ]}.

(** What [labels[type] || type] evaluates to: a text, null, or a member
    inherited from [Object.prototype], which is a function or an object. *)
Inductive shown :=
| text (s : string)
| inherited (name : string)
| nothing.

(** [labels[type] || type]; the labels and the inherited members are all
    truthy. *)
Definition getSessionTypeBadge (type : option string) : shown :=
  match labels !! property_key type with
  | Some l => text l
  | None =>
      if bool_decide (property_key type ∈ Object_prototype)
      then inherited (property_key type)
      else match type with
           | Some s => text s
           | None => nothing
           end
  end.

End Badges.

Module Forms.
Import Pages.

(** [setFormData((prev) => ({ ...prev, [field]: value }))] on the
    new-patient form.  A name that is none of the form's fields adds a
    member nothing reads. *)
Definition handleChange (field value : string) (prev : NewPatient.formData)
    : NewPatient.formData :=
  let set (name old : string) :=
    if bool_decide (field = name) then value else old in
  {| NewPatient.full_name := set "full_name" (NewPatient.full_name prev);
     NewPatient.email := set "email" (NewPatient.email prev);
     NewPatient.phone := set "phone" (NewPatient.phone prev);
     NewPatient.birth_date := set "birth_date" (NewPatient.birth_date prev);
     NewPatient.cpf := set "cpf" (NewPatient.cpf prev);
     NewPatient.address := set "address" (NewPatient.address prev);
     NewPatient.emergency_contact :=
       set "emergency_contact" (NewPatient.emergency_contact prev);
     NewPatient.emergency_phone :=
       set "emergency_phone" (NewPatient.emergency_phone prev);
     NewPatient.notes := set "notes" (NewPatient.notes prev);
     NewPatient.status := set "status" (NewPatient.status prev) |}.

(** The same on the new-record form of the detail page. *)
Definition handleNewRecordChange (field value : string)
    (prev : PatientDetail.NewRecord) : PatientDetail.NewRecord :=
  let set (name old : string) :=
    if bool_decide (field = name) then value else old in
  {| PatientDetail.session_date :=
       set "session_date" (PatientDetail.session_date prev);
     PatientDetail.session_type :=
       set "session_type" (PatientDetail.session_type prev);
     PatientDetail.main_complaint :=
       set "main_complaint" (PatientDetail.main_complaint prev);
     PatientDetail.session_notes :=
       set "session_notes" (PatientDetail.session_notes prev);
     PatientDetail.observations :=
       set "observations" (PatientDetail.observations prev);
     PatientDetail.next_session_goals :=
       set "next_session_goals" (PatientDetail.next_session_goals prev);
     PatientDetail.mood_state :=
       set "mood_state" (PatientDetail.mood_state prev);
     PatientDetail.interventions :=
       set "interventions" (PatientDetail.interventions prev) |}.

End Forms.

(** ** Typed values as text *)

Module Typed.
Import Js Pages.

(** The model keeps a date and a uuid as the text PostgreSQL prints for
    them, and compares and stores that text as it is.  A request may carry
    other text: text that is no value of the column's type, which the
    database refuses before the statement runs, or another spelling of the
    same value.  What is stated about a request that carries text of its
    own (what is typed in a form, the id in an address) is stated for
    text in the printed form, for which comparing and storing the text is
    comparing and storing the value. *)

Definition digit (a : ascii) : option nat :=
  let n := nat_of_ascii a in
  if bool_decide (48 ≤ n ≤ 57)%nat then Some (n - 48)%nat else None.

Fixpoint number_from (acc : nat) (ds : list ascii) : option nat :=
  match ds with
  | [] => Some acc
  | d :: ds =>
      match digit d with
      | Some v => number_from (10 * acc + v)%nat ds
      | None => None
      end
  end.

Definition number (ds : list ascii) : option nat := number_from 0 ds.

Definition leap_year (y : nat) : bool :=
  bool_decide (y `mod` 4 = 0)%nat
  && (negb (bool_decide (y `mod` 100 = 0)%nat)
      || bool_decide (y `mod` 400 = 0)%nat).

Definition days_in_month (y m : nat) : nat :=
  match m with
  | 1 | 3 | 5 | 7 | 8 | 10 | 12 => 31
  | 4 | 6 | 9 | 11 => 30
  | 2 => if leap_year y then 29 else 28
  | _ => 0
  end%nat.

(** A date of the years 1 to 9999 as [yyyy-mm-dd]: what a date input
    holds when it is filled in, and what the database prints. *)
Definition is_date (s : string) : bool :=
  match list_ascii_of_string s with
  | [y1; y2; y3; y4; d1; m1; m2; d2; n1; n2] =>
      bool_decide (d1 = "-"%char) && bool_decide (d2 = "-"%char)
      && match number [y1; y2; y3; y4], number [m1; m2], number [n1; n2] with
         | Some y, Some m, Some d =>
             bool_decide (1 ≤ y ∧ 1 ≤ d ≤ days_in_month y m)%nat
         | _, _, _ => false
         end
  | _ => false
  end.

Definition is_lower_hex (a : ascii) : bool :=
  let n := nat_of_ascii a in
  bool_decide (48 ≤ n ≤ 57 ∨ 97 ≤ n ≤ 102)%nat.

(** A uuid as the database prints it: 8, 4, 4, 4 and 12 hexadecimal
    digits in lower case, with dashes between the groups. *)
Definition is_uuid (s : string) : bool :=
  let cs := list_ascii_of_string s in
  bool_decide (length cs = 36%nat)
  && forallb (λ '(i, c),
                if bool_decide (i ∈ [8; 13; 18; 23]%nat)
                then bool_decide (c = "-"%char)
                else is_lower_hex c)
             (imap (λ i c, (i, c)) cs).

(** A text column holds every text without the character NUL. *)
Definition is_text (s : string) : bool :=
  forallb (λ c, negb (bool_decide (c = "000"%char))) (list_ascii_of_string s).

(** The new-patient form holds what [patients] takes: texts, and a date
    of birth that is left empty or is a date. *)
Definition patient_form `{StringMethods} (f : NewPatient.formData) : Prop :=
  (NewPatient.birth_date f = "" ∨ is_date (NewPatient.birth_date f) = true)
  ∧ is_text (trim (NewPatient.full_name f)) = true
  ∧ ∀ c get, (c, get) ∈ NewPatient.optional_fields → is_text (get f) = true.

(** The new-record form holds what [patient_records] takes: a session
    date that is a date, and texts. *)
Definition record_form (n : PatientDetail.NewRecord) : Prop :=
  is_date (PatientDetail.session_date n) = true
  ∧ Forall (λ get : PatientDetail.NewRecord → string, is_text (get n) = true)
           [ PatientDetail.main_complaint; PatientDetail.session_notes;
             PatientDetail.observations; PatientDetail.next_session_goals;
             PatientDetail.mood_state; PatientDetail.interventions ].

End Typed.

Module Sidebar.
Import Js.

Definition menuItems : list (string * string) :=
  [ ("Dashboard", "/dashboard"); ("Pacientes", "/patients");
    ("Novo Paciente", "/patients/new") ].

Definition isActive (pathname path : string) : bool :=
  if bool_decide (path = "/dashboard")
  then bool_decide (pathname = "/dashboard")
  else startsWith pathname path.

(** The titles of the menu entries drawn as active. *)
Definition active (pathname : string) : list string :=
  fst <$> filter (λ item, isActive pathname item.2 = true) menuItems.

End Sidebar.

Module PatientsView.
Import Pages.

(** What the list page draws under the search box: a spinner while it
    loads; when [filteredPatients] is empty a message, with or without
    the button to register a first patient; otherwise one card for each
    patient of [filteredPatients]. *)
Inductive view :=
| spinner
| empty (message : string) (first_patient_button : bool)
| cards (ps : list Patients.Patient).

Definition render (st : Patients.state) : view :=
  if Patients.loading st then spinner
  else
    match Patients.filteredPatients st with
    | [] =>
        if bool_decide (Patients.searchTerm st = "")
        then empty "Você ainda não tem pacientes cadastrados." true
        else empty "Nenhum paciente encontrado com esse termo." false
    | ps => cards ps
    end.

End PatientsView.

(** * Properties *)

Import Sql Db Access.

(** ** The schema and the policies *)

Lemma find_table_inv t tb :
  find_table t = Some tb →
  (t = "profiles" ∧ tb = profiles) ∨ (t = "patients" ∧ tb = patients)
  ∨ (t = "patient_records" ∧ tb = patient_records).
Proof.
  unfold find_table. intros H.
  apply fmap_Some in H as [[i tb'] [H ->]].
  apply list_find_Some in H as (Hi & Ht & _). simpl in *.
  assert (tb' ∈ schema) as Hin by (eapply list_elem_of_lookup_2; eauto).
  unfold schema in Hin.
  repeat (apply elem_of_cons in Hin as [-> | Hin]); subst; auto.
  by apply elem_of_nil in Hin.
Qed.

Lemma owner_profiles r : owner "profiles" r = r !! "id".
Proof. reflexivity. Qed.
Lemma owner_patients r : owner "patients" r = r !! "psychologist_id".
Proof. reflexivity. Qed.
Lemma owner_patient_records r :
  owner "patient_records" r = r !! "psychologist_id".
Proof. reflexivity. Qed.

Lemma policies_for_elem p t c :
  p ∈ policies_for t c ↔ p ∈ policies ∧ pol_table p = t ∧ pol_for p = c.
Proof. unfold policies_for. rewrite list_elem_of_filter. tauto. Qed.

Lemma policy_passes_owner p uid r e :
  p ∈ policies →
  using_expr p = Some e ∨ check_expr p = Some e →
  is_true (eval_predicate uid r e) = true →
  ∃ u, uid = Some u ∧ owner (pol_table p) r = Some u.
Proof.
  intros Hp He Hpass. unfold policies in Hp.
  repeat (apply elem_of_cons in Hp as [-> | Hp]);
    try (by apply elem_of_nil in Hp);
    cbv [CREATE_POLICY USING WITH_CHECK using_expr check_expr pol_using
         pol_with_check pol_table fst snd] in *;
    (destruct He as [He | He]; simplify_eq);
    rewrite ?owner_profiles, ?owner_patients, ?owner_patient_records;
    unfold eval_predicate, eval_scalar in Hpass;
    destruct uid as [u|]; try discriminate;
    (match type of Hpass with
     | context [r !! ?c] => destruct (r !! c) as [x|] eqn:Hx
     end); try discriminate;
    unfold is_true in Hpass; case_bool_decide; try discriminate; subst;
    eauto.
Qed.

Lemma visible_owner uid t c r :
  t ∈ row_level_security → c ≠ INSERT → visible uid t c r = true →
  ∃ u, uid = Some u ∧ owner t r = Some u.
Proof.
  intros Ht Hc H. unfold visible in H.
  rewrite bool_decide_eq_true_2 in H by done.
  apply existsb_exists in H as (p & Hp & Hpass).
  apply list_elem_of_In, policies_for_elem in Hp as (Hp & <- & <-).
  unfold passes in Hpass. destruct (using_expr p) as [e|] eqn:He.
  - eapply policy_passes_owner; eauto.
  - exfalso. clear Hpass Ht. unfold policies in Hp.
    repeat (apply elem_of_cons in Hp as [-> | Hp]);
      try (by apply elem_of_nil in Hp); try discriminate;
      by apply Hc.
Qed.

Lemma writable_owner uid t c r :
  t ∈ row_level_security → writable uid t c r = true →
  ∃ u, uid = Some u ∧ owner t r = Some u.
Proof.
  intros Ht H. unfold writable in H.
  rewrite bool_decide_eq_true_2 in H by done.
  apply existsb_exists in H as (p & Hp & Hpass).
  apply list_elem_of_In, policies_for_elem in Hp as (Hp & <- & <-).
  unfold passes in Hpass. destruct (check_expr p) as [e|] eqn:He.
  - eapply policy_passes_owner; eauto.
  - exfalso. clear Hpass Ht. unfold policies in Hp.
    repeat (apply elem_of_cons in Hp as [-> | Hp]);
      try (by apply elem_of_nil in Hp); discriminate.
Qed.

Lemma permitted_owner uid t c r :
  t ∈ row_level_security → permitted uid t c r = true →
  ∃ u, uid = Some u ∧ owner t r = Some u.
Proof.
  intros Ht H. destruct c; simpl in H;
    solve [ eapply writable_owner; eauto
          | eapply visible_owner; eauto; discriminate ].
Qed.

(** Conversely, the owner of a row passes every policy there is for it. *)
Ltac eval_policies_for :=
  repeat match goal with
  | |- context [policies_for ?t ?c] =>
      let l := eval vm_compute in (policies_for t c) in
      change (policies_for t c) with l
  | |- context [bool_decide (?t ∈ row_level_security)] =>
      rewrite (bool_decide_eq_true_2 (t ∈ row_level_security))
        by (unfold row_level_security; set_solver)
  end.

Lemma owner_permitted u t c r :
  policies_for t c ≠ [] → owner t r = Some u →
  permitted (Some u) t c r = true.
Proof.
  intros Hne Ho.
  destruct (policies_for t c) as [|p ps] eqn:Hps; [done|].
  assert (p ∈ policies_for t c) as Hp by (rewrite Hps; left).
  apply policies_for_elem in Hp as (Hp & <- & <-).
  clear Hne Hps. unfold policies in Hp.
  repeat (apply elem_of_cons in Hp as [-> | Hp]);
    try (by apply elem_of_nil in Hp);
    cbv [CREATE_POLICY USING WITH_CHECK pol_table pol_for fst snd] in *;
    rewrite ?owner_profiles, ?owner_patients, ?owner_patient_records in Ho;
    cbv [permitted visible writable]; eval_policies_for;
    cbv [existsb passes using_expr check_expr pol_using
         pol_with_check eval_predicate eval_scalar is_true];
    rewrite Ho, bool_decide_eq_true_2; done.
Qed.

Lemma policy_owner_equality p : p ∈ policies → owner_equality p.
Proof.
  intros Hp. unfold policies in Hp.
  repeat (apply elem_of_cons in Hp as [-> | Hp]);
    try (by apply elem_of_nil in Hp);
    (eexists _, _; split; [reflexivity|]; split; [reflexivity|]);
    cbn; tauto.
Qed.

Lemma no_policy_not_permitted uid t c r :
  t ∈ row_level_security → policies_for t c = [] →
  permitted uid t c r = false.
Proof.
  intros Ht Hnone.
  destruct c; cbv [permitted visible writable];
    rewrite bool_decide_eq_true_2, Hnone by done; reflexivity.
Qed.

(** C3, as the code has it: [patients] and [patient_records] have a policy
    for each of SELECT, INSERT, UPDATE and DELETE, and [profiles] for
    SELECT, INSERT and UPDATE; each of these policies compares [auth.uid()]
    with the owner column, and lets the owner of a row through.  There is
    no policy for DELETE on [profiles], so nobody, the owner included, may
    delete a profile row. *)
Theorem policies_cover_commands :
  (∀ t c, t ∈ row_level_security → (t, c) ≠ ("profiles", DELETE) →
     (∃ p, p ∈ policies_for t c ∧ owner_equality p)
     ∧ ∀ u r, owner t r = Some u → permitted (Some u) t c r = true)
  ∧ policies_for "profiles" DELETE = []
  ∧ ∀ uid r, permitted uid "profiles" DELETE r = false.
Proof.
  split; [|split].
  - intros t c Ht Hne.
    assert (∃ p, p ∈ policies_for t c) as [p Hp].
    { unfold row_level_security in Ht.
      repeat (apply elem_of_cons in Ht as [-> | Ht]);
        try (by apply elem_of_nil in Ht);
        destruct c; try done;
        (eexists; vm_compute; left). }
    split.
    + exists p. split; [done|].
      apply policies_for_elem in Hp as [Hp _].
      by apply policy_owner_equality.
    + intros u r Ho. apply owner_permitted; [|done].
      intros Hnil. rewrite Hnil in Hp. by apply elem_of_nil in Hp.
  - reflexivity.
  - intros uid r. apply no_policy_not_permitted; [|reflexivity].
    unfold row_level_security. set_solver.
Qed.

(** C3 at one table and command: the owner of a patient may delete it. *)
Lemma policies_cover_commands_witness :
  "patients" ∈ row_level_security ∧ ("patients", DELETE) ≠ ("profiles", DELETE)
  ∧ (∃ p, p ∈ policies_for "patients" DELETE ∧ owner_equality p).
Proof.
  assert ("patients" ∈ row_level_security) as H1
    by (unfold row_level_security; set_solver).
  assert (("patients", DELETE) ≠ ("profiles", DELETE)) as H2 by discriminate.
  split; [exact H1|]. split; [exact H2|].
  exact (proj1 (proj1 policies_cover_commands "patients" DELETE H1 H2)).
Defined.

(** C3 as the claim has it fails at [profiles] and DELETE: there is no
    policy, and the owner of a profile row may not delete it. *)
Lemma profiles_delete_refused :
  let r : row := {[ "id" := "u1"; "full_name" := "Ana" ]} in
  owner "profiles" r = Some "u1"
  ∧ policies_for "profiles" DELETE = []
  ∧ permitted (Some "u1") "profiles" DELETE r = false.
Proof. vm_compute. auto. Qed.

(** ** The queries of the pages *)

Import Supabase Js Pages.

Section PageQueries.
Context `{StringMethods}.
Variable request : backend.

Lemma fetchDashboardData_queries st db q :
  q ∈ queries (Dashboard.fetchDashboardData request st db).2 →
  q ∈ [Dashboard.recent_patients; Dashboard.count_patients;
       Dashboard.count_active_patients; Dashboard.count_records].
Proof.
  unfold Dashboard.fetchDashboardData.
  destruct (request _ db) as [db1 r1]. destruct (error r1).
  - cbn. rewrite list_elem_of_singleton. intros ->. left.
  - destruct (request _ db1) as [db2 r2]. destruct (request _ db2) as [db3 r3].
    destruct (request _ db3) as [db4 r4]. cbn. done.
Qed.

Lemma fetchPatients_queries st db :
  queries (Patients.fetchPatients request st db).2 = [Patients.all_patients].
Proof.
  unfold Patients.fetchPatients.
  destruct (request _ db) as [db1 r1]. by destruct (error r1).
Qed.

Lemma NewPatient_handleSubmit_queries user f db :
  queries (NewPatient.handleSubmit request user f db).2 =
  match user with
  | Some user_id =>
      if bool_decide (trim (NewPatient.full_name f) = "") then []
      else [NewPatient.insert_patient user_id f]
  | None => []
  end.
Proof.
  unfold NewPatient.handleSubmit. destruct user as [u|]; [|done].
  case_bool_decide; [done|].
  destruct (request _ db) as [db1 r1].
  by destruct (error r1), (data r1).
Qed.

Lemma fetchPatientData_queries id st db :
  queries (PatientDetail.fetchPatientData request id st db).2 =
  [PatientDetail.the_patient id; PatientDetail.the_records id].
Proof.
  unfold PatientDetail.fetchPatientData.
  destruct (request _ db) as [db1 r1]. destruct (request _ db1) as [db2 r2].
  by destruct (error r1), (error r2), (data r1).
Qed.

Lemma handleCreateRecord_queries user id today st db q :
  q ∈ queries
        (PatientDetail.handleCreateRecord request user id today st db).2 →
  (∃ p u, user = Some u ∧ PatientDetail.patient st = Some p
          ∧ q = PatientDetail.insert_record p u (PatientDetail.newRecord st))
  ∨ q = PatientDetail.the_patient id ∨ q = PatientDetail.the_records id.
Proof.
  unfold PatientDetail.handleCreateRecord.
  destruct user as [u|], (PatientDetail.patient st) as [p|];
    try (cbn; set_solver).
  destruct (request _ db) as [db1 r1]. destruct (error r1).
  - cbn. rewrite list_elem_of_singleton. intros ->. left. eauto.
  - match goal with
    | |- context [PatientDetail.fetchPatientData ?r ?i ?s ?d] =>
        pose proof (fetchPatientData_queries i s d) as Hq;
        destruct (PatientDetail.fetchPatientData r i s d) as [[db2 st2] es]
    end.
    cbn in *. rewrite Hq. rewrite !elem_of_cons.
    intros [-> | [-> | [-> | Hnil]]]; eauto 7.
    by apply elem_of_nil in Hnil.
Qed.

Lemma Auth_handleSubmit_queries isLogin email password fullName outcome :
  queries (Auth.handleSubmit isLogin email password fullName outcome) = [].
Proof.
  unfold Auth.handleSubmit.
  destruct isLogin, outcome; try done; by case_bool_decide.
Qed.

(** Whatever a handler sends is one of the queries written in the pages. *)
Lemma page_run_query es q :
  page_run request es → q ∈ queries es → page_query q.
Proof.
  intros Hrun Hq. destruct Hrun.
  - apply fetchDashboardData_queries in Hq.
    repeat (apply elem_of_cons in Hq as [-> | Hq]); try constructor.
    by apply elem_of_nil in Hq.
  - rewrite fetchPatients_queries in Hq.
    apply list_elem_of_singleton in Hq as ->. constructor.
  - rewrite NewPatient_handleSubmit_queries in Hq.
    destruct user; [|by apply elem_of_nil in Hq].
    case_bool_decide; [by apply elem_of_nil in Hq|].
    apply list_elem_of_singleton in Hq as ->. constructor.
  - rewrite fetchPatientData_queries in Hq.
    repeat (apply elem_of_cons in Hq as [-> | Hq]); try constructor.
    by apply elem_of_nil in Hq.
  - apply handleCreateRecord_queries in Hq
      as [(p & u & _ & _ & ->) | [-> | ->]]; constructor.
  - rewrite Auth_handleSubmit_queries in Hq. by apply elem_of_nil in Hq.
  - by apply elem_of_nil in Hq.
Qed.

End PageQueries.

Lemma page_query_table `{StringMethods} q :
  page_query q → clinical (table_ q).
Proof. unfold clinical. destruct 1; cbn; auto. Qed.

(** C7: every query a page component sends goes to [patients] or to
    [patient_records]; none goes to [profiles] or to any other table. *)
Theorem page_queries_target_two_tables `{StringMethods}
    (request : backend) (es : list effect) (q : query) :
  page_run request es → q ∈ queries es →
  (table_ q = "patients" ∨ table_ q = "patient_records")
  ∧ table_ q ≠ "profiles".
Proof.
  intros Hrun Hq.
  pose proof (page_query_table q (page_run_query request es q Hrun Hq)) as Ht.
  split; [exact Ht|]. destruct Ht as [-> | ->]; discriminate.
Qed.

(** ** What the pages offer *)

Lemma page_query_commands `{StringMethods} q :
  page_query q → command_of q = SELECT ∨ command_of q = INSERT.
Proof. destruct 1; cbn; auto. Qed.

Lemma not_offered_update_delete `{StringMethods} t c :
  c = UPDATE ∨ c = DELETE → ¬ offered t c.
Proof.
  intros Hc (q & Hq & _ & Hcmd).
  apply page_query_commands in Hq. rewrite Hcmd in Hq.
  destruct Hc as [-> | ->], Hq; discriminate.
Qed.

(** C5 as the claim has it fails: no page sends an UPDATE or a DELETE on
    [patients]. *)
Lemma patients_update_delete_not_offered :
  ¬ offered "patients" UPDATE ∧ ¬ offered "patients" DELETE.
Proof. split; apply not_offered_update_delete; auto. Qed.

(** C6 as the claim has it fails: no page sends an UPDATE or a DELETE on
    [patient_records]. *)
Lemma records_update_delete_not_offered :
  ¬ offered "patient_records" UPDATE ∧ ¬ offered "patient_records" DELETE.
Proof. split; apply not_offered_update_delete; auto. Qed.


(** ** Searching the patient list *)

Lemma startsWith_spec s t : startsWith s t = true ↔ ∃ b, s = t +:+ b.
Proof.
  revert s. induction t as [|c t IH]; intros s; simpl.
  - split; [intros _; by exists s | done].
  - destruct s as [|a s]; simpl.
    + split; [done | intros [b Hb]; discriminate].
    + rewrite andb_true_iff, bool_decide_eq_true, IH. split.
      * intros [-> [b ->]]. by exists b.
      * intros [b Hb]. injection Hb as -> ->. eauto.
Qed.

Lemma includes_spec s t : includes s t = true ↔ occurs_in t s.
Proof.
  unfold occurs_in. induction s as [|c s IH]; simpl.
  - rewrite orb_false_r, startsWith_spec. split.
    + intros [b Hb]. exists "", b. exact Hb.
    + intros ([|x a] & b & Hab); [exists b; exact Hab | discriminate].
  - rewrite orb_true_iff, startsWith_spec, IH. split.
    + intros [[b Hb] | (a & b & ->)].
      * exists "", b. exact Hb.
      * exists (String c a), b. reflexivity.
    + intros ([|x a] & b & Hab); simpl in Hab.
      * left. exists b. exact Hab.
      * right. injection Hab as -> ->. exists a, b. reflexivity.
Qed.

Lemma includes_empty s : includes s "" = true.
Proof. apply includes_spec. exists "", s. reflexivity. Qed.

Lemma search_matches_found `{StringMethods} term p :
  Patients.search_matches term p = true ↔ Patients.found term p.
Proof.
  unfold Patients.search_matches, Patients.found.
  rewrite !orb_true_iff, includes_spec.
  destruct (Patients.email p) as [e|], (Patients.phone p) as [ph|];
    rewrite ?includes_spec; split;
    intros [[?|?]|?]
    || intros [?|[(? & ? & ?)|(? & ? & ?)]]; simplify_eq; eauto; try done.
Qed.

(** The search on ASCII text: the name and the e-mail address are matched
    whatever the case, the phone number as typed. *)
Example search_ascii :
  let p := {| Patients.id := "1"; Patients.full_name := "Ana Souza";
              Patients.email := Some "ANA@clinic.example";
              Patients.phone := Some "555-AB"; Patients.status := "active";
              Patients.created_at := "2025-12-16" |} in
  Patients.filtered "SOUZA" [p] = [p]
  ∧ Patients.filtered "ana@" [p] = [p]
  ∧ Patients.filtered "555-AB" [p] = [p]
  ∧ Patients.filtered "555-ab" [p] = [].
Proof. by vm_compute. Qed.

Lemma filtered_spec `{StringMethods}
    (searchTerm : string) (patients : list Patients.Patient) :
  (∀ p, p ∈ Patients.filtered searchTerm patients ↔
        p ∈ patients ∧ Patients.found searchTerm p)
  ∧ (∀ dec : ∀ p, Decision (Patients.found searchTerm p),
       Patients.filtered searchTerm patients =
       filter (Patients.found searchTerm) patients)
  ∧ Patients.filtered "" patients = patients.
Proof.
  unfold Patients.filtered. split; [|split].
  - intros p. rewrite list_elem_of_In, filter_In, <- list_elem_of_In.
    by rewrite search_matches_found.
  - intros dec. induction patients as [|p ps IH]; [done|].
    simpl. rewrite filter_cons, IH.
    destruct (Patients.search_matches searchTerm p) eqn:Hm;
      destruct (decide (Patients.found searchTerm p)) as [Hf|Hf]; try done.
    + exfalso. by apply Hf, search_matches_found.
    + apply search_matches_found in Hf. congruence.
  - induction patients as [|p ps IH]; [done|].
    simpl. rewrite IH. unfold Patients.search_matches.
    by rewrite toLowerCase_empty, includes_empty.
Qed.

(** C8: the filtered list of the list page.  Whenever the search term or
    the patients change, the effect leaves both as they are and sets the
    filtered list to exactly the patients, in the order and number of the
    full list, whose name or e-mail address has the term in it once both
    are lower-cased, or whose phone number has the term in it as typed;
    under the empty term it is the full list.  Typing a term sets the
    term and filters by it, a fetch that works filters what it fetched by
    the term in the box, and once the page has loaded the cards it draws
    are those of the filtered list. *)
Theorem search_keeps_matching_patients `{StringMethods}
    (st : Patients.state) :
  let term := Patients.searchTerm st in
  let st' := Patients.search_effect st in
  Patients.patients st' = Patients.patients st
  ∧ Patients.searchTerm st' = term
  ∧ (∀ p, p ∈ Patients.filteredPatients st' ↔
          p ∈ Patients.patients st ∧ Patients.found term p)
  ∧ (∀ dec : ∀ p, Decision (Patients.found term p),
       Patients.filteredPatients st'
       = filter (Patients.found term) (Patients.patients st))
  ∧ (term = "" → Patients.filteredPatients st' = Patients.patients st)
  ∧ (∀ value,
       let typed := Patients.setSearchTerm value st in
       Patients.searchTerm typed = value
       ∧ Patients.patients typed = Patients.patients st
       ∧ ∀ p, p ∈ Patients.filteredPatients typed ↔
              p ∈ Patients.patients st ∧ Patients.found value p)
  ∧ (∀ request db,
       let fetched := (Patients.fetchPatients request st db).1.2 in
       error (request Patients.all_patients db).2 = None →
       Patients.searchTerm fetched = term
       ∧ ∀ p, p ∈ Patients.filteredPatients fetched ↔
              p ∈ Patients.patients fetched ∧ Patients.found term p)
  ∧ (Patients.loading st = false →
       ∀ p, (∃ ps, PatientsView.render st' = PatientsView.cards ps ∧ p ∈ ps)
            ↔ p ∈ Patients.patients st ∧ Patients.found term p).
Proof.
  cbv zeta. unfold Patients.setSearchTerm, Patients.search_effect.
  cbn [Patients.patients Patients.filteredPatients Patients.searchTerm
       Patients.loading].
  split; [done|]. split; [done|].
  split; [apply filtered_spec|]. split; [apply filtered_spec|].
  split; [intros ->;
          apply (proj2 (proj2 (filtered_spec "" (Patients.patients st))))|].
  split; [intros value; split; [done|]; split; [done|]; apply filtered_spec|].
  split.
  - intros request db. unfold Patients.fetchPatients, Patients.search_effect.
    destruct (request Patients.all_patients db) as [db1 res]. simpl.
    intros ->. split; [done|]. apply filtered_spec.
  - intros Hloaded p. unfold PatientsView.render.
    cbn [Patients.loading Patients.filteredPatients Patients.searchTerm].
    rewrite Hloaded.
    rewrite <- (proj1 (filtered_spec (Patients.searchTerm st)
                         (Patients.patients st)) p).
    destruct (Patients.filtered _ _) as [|p0 ps0]; split.
    + intros (ps & Hcards & _). by case_bool_decide.
    + by intros ?%elem_of_nil.
    + by intros (ps & [= <-] & Hin).
    + intros Hin. by eexists.
Qed.

(** C8 on ASCII text: with SOUZA in the search box, Ana Souza is in the
    filtered list. *)
Lemma search_keeps_matching_patients_witness :
  let p := {| Patients.id := "1"; Patients.full_name := "Ana Souza";
              Patients.email := Some "ANA@clinic.example";
              Patients.phone := Some "555-AB"; Patients.status := "active";
              Patients.created_at := "2025-12-16" |} in
  let st := Patients.State [p] [] "SOUZA" false in
  p ∈ Patients.filteredPatients (Patients.search_effect st).
Proof.
  cbv zeta.
  apply (proj1 (proj2 (proj2 (search_keeps_matching_patients
                                (Patients.State _ [] "SOUZA" false)))) _).
  split; [left|]. left. by exists "ana ", "".
Defined.

(** ** Rows built by INSERT *)

Lemma new_row_columns k (cols : list column) (values : gmap string (option string)) c :
  c ∉ col_name <$> cols → new_row k (Table "" cols) values !! c = None.
Proof.
  unfold new_row. simpl. induction cols as [|c0 cols IH]; simpl; intros Hc.
  - apply lookup_empty.
  - apply not_elem_of_cons in Hc as [Hne Hc]. specialize (IH Hc).
    destruct (values !! col_name c0) as [[v|]|]; [|done|].
    + by rewrite lookup_insert_ne.
    + destruct (column_default c0); [by rewrite lookup_insert_ne | done].
Qed.

Lemma new_row_lookup k tb (values : gmap string (option string)) col :
  NoDup (col_name <$> tbl_columns tb) → col ∈ tbl_columns tb →
  new_row k tb values !! col_name col =
  match values !! col_name col with
  | Some v => v
  | None => eval_default k <$> column_default col
  end.
Proof.
  unfold new_row. induction (tbl_columns tb) as [|c0 cols IH]; simpl.
  - intros _ Hin. by apply elem_of_nil in Hin.
  - intros Hnd Hin. apply NoDup_cons in Hnd as [Hc0 Hnd].
    apply elem_of_cons in Hin as [-> | Hin].
    + pose proof (new_row_columns k cols values (col_name c0) Hc0) as Hnone.
      unfold new_row in Hnone. simpl in Hnone.
      destruct (values !! col_name c0) as [[v|]|]; [|done|].
      * by rewrite lookup_insert_eq.
      * destruct (column_default c0); [by rewrite lookup_insert_eq | done].
    + assert (col_name c0 ≠ col_name col) as Hne.
      { intros Heq. apply Hc0. rewrite Heq. by apply list_elem_of_fmap_2. }
      specialize (IH Hnd Hin).
      destruct (values !! col_name c0) as [[v|]|]; [|done|].
      * by rewrite lookup_insert_ne.
      * destruct (column_default c0); [by rewrite lookup_insert_ne | done].
Qed.

Lemma patients_columns_NoDup : NoDup (col_name <$> tbl_columns patients).
Proof. apply (bool_decide_unpack _). vm_compute. exact I. Qed.

Lemma rows_of_set_rows t rs db : rows_of (set_rows t rs db) t = rs.
Proof. unfold rows_of, set_rows. simpl. by rewrite lookup_insert_eq. Qed.

Lemma rows_of_set_rows_ne t t' rs db :
  t ≠ t' → rows_of (set_rows t rs db) t' = rows_of db t'.
Proof.
  intros Hne. unfold rows_of, set_rows. simpl. by rewrite lookup_insert_ne.
Qed.

Lemma commit_Ok db rs db' rs' :
  commit db rs = Ok db' rs' → db' = db ∧ rs' = rs ∧ consistent db = true.
Proof. unfold commit. destruct (consistent db); intros; by simplify_eq. Qed.

Lemma exec_insert_Ok k who t values db db' rs :
  exec k who (Insert t values) db = Ok db' rs →
  ∃ tb, find_table t = Some tb
        ∧ rs = [new_row k tb values]
        ∧ db' = set_rows t (rows_of db t ++ [new_row k tb values]) db
        ∧ may_write who t INSERT (new_row k tb values) = true
        ∧ consistent db' = true.
Proof.
  unfold exec. destruct (find_table t) as [tb|]; [|done].
  destruct (known_columns tb values); [|done].
  destruct (may_write who t INSERT _) eqn:Hw; [|done].
  intros (-> & -> & Hc)%commit_Ok. eauto 10.
Qed.

(** ** Submitting the new-patient form *)

Lemma new_patient_lookups `{StringMethods} u f :
  NewPatient.new_patient u f !! "full_name"
  = Some (Some (trim (NewPatient.full_name f)))
  ∧ NewPatient.new_patient u f !! "psychologist_id" = Some (Some u)
  ∧ ∀ c get, (c, get) ∈ NewPatient.optional_fields →
             NewPatient.new_patient u f !! c = Some (or_null (get f)).
Proof.
  split; [reflexivity|]. split; [reflexivity|].
  intros c get Hin. unfold NewPatient.optional_fields in Hin.
  repeat (apply elem_of_cons in Hin as [Heq | Hin];
          [injection Heq as -> ->; reflexivity|]).
  by apply elem_of_nil in Hin.
Qed.

Lemma optional_fields_columns c get :
  (c, get) ∈ NewPatient.optional_fields →
  ∃ col, col ∈ tbl_columns patients ∧ col_name col = c.
Proof.
  intros Hin. unfold NewPatient.optional_fields in Hin.
  repeat (apply elem_of_cons in Hin as [Heq | Hin];
          [injection Heq as -> ->;
           eexists (Col _ _ _); split; [|reflexivity];
           unfold patients; simpl;
           repeat first [apply list_elem_of_here
                        | apply list_elem_of_further]|]).
  by apply elem_of_nil in Hin.
Qed.

(** The row the form's INSERT builds. *)
Lemma new_patient_row `{StringMethods} k u f :
  let r := new_row k patients (NewPatient.new_patient u f) in
  r !! "full_name" = Some (trim (NewPatient.full_name f))
  ∧ r !! "psychologist_id" = Some u
  ∧ ∀ c get, (c, get) ∈ NewPatient.optional_fields → r !! c = or_null (get f).
Proof.
  destruct (new_patient_lookups u f) as (Hname & Hpsy & Hopt).
  pose proof patients_columns_NoDup as Hnd.
  split; [|split].
  - rewrite (new_row_lookup k patients _ (Col "full_name" TEXT [NOT_NULL]) Hnd).
    + simpl. by rewrite Hname.
    + unfold patients. simpl.
      repeat first [apply list_elem_of_here | apply list_elem_of_further].
  - rewrite (new_row_lookup k patients _
               (Col "psychologist_id" UUID
                  [NOT_NULL; REFERENCES_ON_DELETE_CASCADE "auth.users" "id"])
               Hnd).
    + simpl. by rewrite Hpsy.
    + unfold patients. simpl.
      repeat first [apply list_elem_of_here | apply list_elem_of_further].
  - intros c get Hin.
    destruct (optional_fields_columns c get Hin) as (col & Hcol & <-).
    rewrite (new_row_lookup k patients _ col Hnd Hcol).
    by rewrite (Hopt _ _ Hin).
Qed.

Lemma or_null_spec s :
  (s = "" → or_null s = None) ∧ (s ≠ "" → or_null s = Some s).
Proof. unfold or_null. case_bool_decide; split; intros; congruence. Qed.

(** C9, as the code has it.  With nobody signed in, submitting the form
    does nothing at all.  With someone signed in, the INSERT is sent exactly
    when the trimmed name is not empty; a blank name gives the error
    message and leaves the database as it was.  The INSERT carries the
    trimmed name and null for every optional field left empty, and when the
    database accepts it the new row of [patients] has that name and NULL in
    those columns. *)
Theorem new_patient_form_submitted `{StringMethods}
    (k : clock) (who : caller) (u : uuid) (f : NewPatient.formData)
    (db : database) :
  let request := respond k who in
  let q := NewPatient.insert_patient u f in
  let out := NewPatient.handleSubmit request (Some u) f db in
  NewPatient.handleSubmit request None f db = (db, [])
  ∧ ((∃ q', q' ∈ queries out.2 ∧ command_of q' = INSERT)
     ↔ trim (NewPatient.full_name f) ≠ "")
  ∧ (trim (NewPatient.full_name f) = "" →
       out = (db, [NewPatient.name_required]))
  ∧ (trim (NewPatient.full_name f) ≠ "" →
       queries out.2 = [q]
       ∧ method q = insert (NewPatient.new_patient u f) true
       ∧ NewPatient.new_patient u f !! "full_name"
         = Some (Some (trim (NewPatient.full_name f)))
       ∧ (∀ c get, (c, get) ∈ NewPatient.optional_fields → get f = "" →
            NewPatient.new_patient u f !! c = Some None)
       ∧ (out.1 = db
          ∨ ∃ r, rows_of out.1 "patients" = rows_of db "patients" ++ [r]
                 ∧ r !! "full_name" = Some (trim (NewPatient.full_name f))
                 ∧ ∀ c get, (c, get) ∈ NewPatient.optional_fields →
                            get f = "" → r !! c = None)).
Proof.
  intros request q out. subst out.
  split; [reflexivity|].
  pose proof (NewPatient_handleSubmit_queries request (Some u) f db) as Hq.
  cbn beta iota in Hq.
  split; [|split].
  - rewrite Hq. case_bool_decide as Hblank; split.
    + intros (q' & Hin & _). by apply elem_of_nil in Hin.
    + done.
    + done.
    + intros _. exists q. split; [left | reflexivity].
  - intros Hblank. unfold NewPatient.handleSubmit.
    by rewrite bool_decide_eq_true_2.
  - intros Hname. destruct (new_patient_lookups u f) as (Hn & _ & Hopt).
    split; [by rewrite Hq, bool_decide_eq_false_2|].
    split; [reflexivity|]. split; [exact Hn|]. split.
    { intros c get Hin Hempty. rewrite (Hopt _ _ Hin).
      by rewrite (proj1 (or_null_spec _) Hempty). }
    unfold NewPatient.handleSubmit.
    rewrite bool_decide_eq_false_2 by done.
    fold q. unfold request.
    change (respond k who q db) with
      (match exec k who (Insert "patients" (NewPatient.new_patient u f)) db with
       | Error e => (db, failed (database_error e))
       | Ok db' rs => (db', shaped single rs None)
       end).
    destruct (exec k who _ db) as [db' rs|e] eqn:Hexec; [|by left].
    right. apply exec_insert_Ok in Hexec as (tb & Htb & -> & -> & _ & _).
    assert (tb = patients) as ->
      by (change (find_table "patients") with (Some patients) in Htb;
          congruence).
    destruct (new_patient_row k u f) as (Hr & _ & Hro).
    eexists. cbn [shaped]. cbn [fst data error].
    split; [apply rows_of_set_rows|]. split; [exact Hr|].
    intros c get Hin Hempty. rewrite (Hro _ _ Hin).
    by apply or_null_spec.
Qed.

(** ** Statements under row security *)

Lemma find_table_secured t tb :
  find_table t = Some tb → t ∈ row_level_security.
Proof.
  intros [[-> _] | [[-> _] | [-> _]]]%find_table_inv;
    unfold row_level_security; set_solver.
Qed.

Lemma exec_select_Ok k who t w db db' rs :
  exec k who (Select t w) db = Ok db' rs →
  t ∈ row_level_security ∧ db' = db
  ∧ rs = filter (λ r, may_see who t SELECT r && w r = true) (rows_of db t).
Proof.
  unfold exec. destruct (find_table t) as [tb|] eqn:Ht; [|done].
  intros; simplify_eq. eauto using find_table_secured.
Qed.

Lemma exec_update_Ok k who t set w db db' rs :
  exec k who (Update t set w) db = Ok db' rs →
  let hit r := may_see who t UPDATE r && w r in
  let upd r := if hit r then before_update t k (assign set r) else r in
  t ∈ row_level_security
  ∧ db' = set_rows t (upd <$> rows_of db t) db
  ∧ rs = upd <$> filter (λ r, hit r = true) (rows_of db t)
  ∧ Forall (λ r, may_write who t UPDATE (upd r) = true)
           (filter (λ r, hit r = true) (rows_of db t)).
Proof.
  unfold exec. destruct (find_table t) as [tb|] eqn:Ht; [|done].
  destruct (known_columns tb set); [|done].
  destruct (forallb _ _) eqn:Hall; [|done].
  intros (-> & -> & _)%commit_Ok. cbn zeta.
  split; [eauto using find_table_secured|]. split; [done|]. split; [done|].
  apply Forall_forall. intros r Hr. rewrite forallb_forall in Hall.
  apply Hall. by apply list_elem_of_In.
Qed.

Lemma exec_delete_Ok k who t w db db' rs :
  exec k who (Delete t w) db = Ok db' rs →
  let hit r := may_see who t DELETE r && w r in
  t ∈ row_level_security
  ∧ rs = filter (λ r, hit r = true) (rows_of db t)
  ∧ db' = cascade (length schema) t rs
            (set_rows t (filter (λ r, hit r = false) (rows_of db t)) db).
Proof.
  unfold exec. destruct (find_table t) as [tb|] eqn:Ht; [|done].
  intros (-> & -> & _)%commit_Ok. cbn zeta.
  eauto using find_table_secured.
Qed.

Lemma cascade_profiles n dead db : cascade n "profiles" dead db = db.
Proof. by destruct n. Qed.

Lemma cascade_patient_records n dead db :
  cascade n "patient_records" dead db = db.
Proof. by destruct n. Qed.

Lemma cascade_patients n dead db :
  cascade (S n) "patients" dead db =
  set_rows "patient_records"
    (filter (λ r, refers_to "patient_id" "id" dead r = false)
            (rows_of db "patient_records")) db.
Proof.
  change (cascade (S n) "patients" dead db) with
    (cascade n "patient_records"
       (filter (λ r, refers_to "patient_id" "id" dead r = true)
               (rows_of db "patient_records"))
       (set_rows "patient_records"
          (filter (λ r, refers_to "patient_id" "id" dead r = false)
                  (rows_of db "patient_records")) db)).
  apply cascade_patient_records.
Qed.

Section Isolation.
Variables (k : clock) (uid : option uuid) (v : uuid).
Hypothesis other : uid ≠ Some v.

Lemma may_see_owner t c r :
  t ∈ row_level_security → c ≠ INSERT →
  may_see (Client uid) t c r = true → owner t r = uid.
Proof.
  intros Ht Hc Hsee. simpl in Hsee.
  destruct (visible_owner _ _ _ _ Ht Hc Hsee) as (u' & Hu & Ho). congruence.
Qed.

Lemma may_write_owner t c r :
  t ∈ row_level_security →
  may_write (Client uid) t c r = true → owner t r = uid.
Proof.
  intros Ht Hw. simpl in Hw.
  destruct (writable_owner _ _ _ _ Ht Hw) as (u' & Hu & Ho). congruence.
Qed.

Lemma owned_by_set_rows t rs db :
  owned_by v t (set_rows t rs db) = filter (λ r, owner t r = Some v) rs.
Proof. unfold owned_by. by rewrite rows_of_set_rows. Qed.

Lemma owned_by_set_rows_ne t t' rs db :
  t ≠ t' → owned_by v t' (set_rows t rs db) = owned_by v t' db.
Proof. intros. unfold owned_by. by rewrite rows_of_set_rows_ne. Qed.

(** Rewriting rows that are not [v]'s into rows that are not [v]'s leaves
    [v]'s rows as they were. *)
Lemma filter_owner_fmap t (upd : row → row) (l : list row) :
  Forall (λ r, upd r = r
               ∨ (owner t r ≠ Some v ∧ owner t (upd r) ≠ Some v)) l →
  filter (λ r, owner t r = Some v) (upd <$> l)
  = filter (λ r, owner t r = Some v) l.
Proof.
  induction 1 as [|r l Hr _ IH]; [done|].
  rewrite fmap_cons, !filter_cons, IH.
  destruct Hr as [-> | [Hr Hr']]; [done|].
  by rewrite !decide_False.
Qed.

Lemma insert_keeps_others t values db db' rs t' :
  exec k (Client uid) (Insert t values) db = Ok db' rs →
  owned_by v t' db' = owned_by v t' db.
Proof.
  intros (tb & Htb & -> & -> & Hw & _)%exec_insert_Ok.
  apply may_write_owner in Hw; [|eauto using find_table_secured].
  destruct (decide (t = t')) as [<-|Hne]; [|by apply owned_by_set_rows_ne].
  rewrite owned_by_set_rows, filter_app, filter_cons, decide_False.
  - by rewrite filter_nil, app_nil_r.
  - by rewrite Hw.
Qed.

Lemma update_keeps_others t set w db db' rs t' :
  exec k (Client uid) (Update t set w) db = Ok db' rs →
  owned_by v t' db' = owned_by v t' db.
Proof.
  intros (Ht & -> & _ & Hall)%exec_update_Ok.
  destruct (decide (t = t')) as [<-|Hne]; [|by apply owned_by_set_rows_ne].
  rewrite owned_by_set_rows. apply filter_owner_fmap.
  apply Forall_forall. intros r Hr.
  destruct (may_see (Client uid) t UPDATE r && w r) eqn:Hhit; [|by left].
  right. rewrite Forall_forall in Hall.
  specialize (Hall r). rewrite list_elem_of_filter in Hall.
  specialize (Hall (conj Hhit Hr)). cbn beta in Hall. rewrite Hhit in Hall.
  apply may_write_owner in Hall; [|done].
  apply andb_true_iff in Hhit as [Hsee _].
  apply may_see_owner in Hsee; [|done..].
  by rewrite Hall, Hsee.
Qed.

Lemma delete_hits_own t w r :
  t ∈ row_level_security →
  (may_see (Client uid) t DELETE r && w r) = true → owner t r = uid.
Proof.
  intros Ht [Hsee _]%andb_true_iff. by apply may_see_owner in Hsee.
Qed.

Lemma filter_not_hit t (hit : row → bool) (l : list row) :
  (∀ r, hit r = true → owner t r = uid) →
  filter (λ r, owner t r = Some v) (filter (λ r, hit r = false) l)
  = filter (λ r, owner t r = Some v) l.
Proof.
  intros Hhit. induction l as [|r l IH]; [done|].
  rewrite (filter_cons (λ r, hit r = false)). destruct (hit r) eqn:Hr.
  - rewrite decide_False by done. rewrite IH, filter_cons.
    rewrite decide_False; [done|]. by rewrite (Hhit _ Hr).
  - rewrite decide_True by done. by rewrite !filter_cons, IH.
Qed.

(** A DELETE on [patients] takes with it, whoever owns them, the records
    that refer to a deleted patient; nothing else of [v]'s goes. *)
Lemma delete_keeps_others t w db db' rs :
  exec k (Client uid) (Delete t w) db = Ok db' rs →
  owned_by v "patients" db' = owned_by v "patients" db
  ∧ owned_by v "patient_records" db' =
    if bool_decide (t = "patients")
    then filter (λ r, refers_to "patient_id" "id" rs r = false)
                (owned_by v "patient_records" db)
    else owned_by v "patient_records" db.
Proof.
  intros (Ht & -> & ->)%exec_delete_Ok.
  set (hit := λ r, may_see (Client uid) t DELETE r && w r).
  assert (∀ r, hit r = true → owner t r = uid) as Hown
    by (intros r; by apply delete_hits_own).
  change (length schema) with 3.
  unfold row_level_security in Ht.
  repeat (apply elem_of_cons in Ht as [-> | Ht]);
    try (by apply elem_of_nil in Ht).
  - rewrite cascade_profiles, !owned_by_set_rows_ne by done.
    by rewrite bool_decide_eq_false_2.
  - rewrite cascade_patients, bool_decide_eq_true_2 by done. split.
    + rewrite owned_by_set_rows_ne, owned_by_set_rows by done.
      by apply filter_not_hit.
    + rewrite owned_by_set_rows, rows_of_set_rows_ne by done.
      unfold owned_by. rewrite !list_filter_filter.
      apply list_filter_iff. tauto.
  - rewrite cascade_patient_records, bool_decide_eq_false_2 by done. split.
    + by rewrite owned_by_set_rows_ne.
    + rewrite owned_by_set_rows. by apply filter_not_hit.
Qed.

End Isolation.

Lemma clinical_secured t : clinical t → t ∈ row_level_security.
Proof. intros [-> | ->]; unfold row_level_security; set_solver. Qed.

Lemma clinical_owner t r : clinical t → owner t r = r !! "psychologist_id".
Proof. by intros [-> | ->]. Qed.

Lemma visible_iff_owner u t c r :
  clinical t → c ≠ INSERT →
  visible (Some u) t c r = true ↔ owner t r = Some u.
Proof.
  intros Ht Hc. split.
  - intros Hv. apply (may_see_owner (Some u) t c r); auto using clinical_secured.
  - intros Ho.
    assert (permitted (Some u) t c r = true) as Hp.
    { apply owner_permitted; [|done].
      destruct Ht as [-> | ->], c; vm_compute; discriminate. }
    by destruct c.
Qed.

(** C1, as the code has it.  For an authenticated caller [u] and a row of
    [patients] or [patient_records]: (1) the policies permit SELECT,
    INSERT, UPDATE or DELETE only if the row's [psychologist_id] is [u];
    (2) every row a statement of [u] reads or writes is [u]'s own, and a
    SELECT returns exactly [u]'s rows that pass its WHERE clause, whatever
    rows others have; (3) a statement of [u] leaves the patients of any
    other clinician [v] untouched, and [v]'s records too, but for one case:
    a DELETE on [patients] also removes, through ON DELETE CASCADE, the
    records that refer to a deleted patient, [v]'s among them. *)
Theorem clinical_rows_isolated (k : clock) (u : uuid) :
  (∀ t c r, clinical t → permitted (Some u) t c r = true →
     r !! "psychologist_id" = Some u)
  ∧ (∀ s db db' rs, clinical (target s) →
       exec k (Client (Some u)) s db = Ok db' rs →
       ∀ r, r ∈ rs → r !! "psychologist_id" = Some u)
  ∧ (∀ t w db db' rs, clinical t →
       exec k (Client (Some u)) (Select t w) db = Ok db' rs →
       db' = db ∧ rs = filter (λ r, w r = true) (owned_by u t db))
  ∧ (∀ v s db db' rs, v ≠ u →
       exec k (Client (Some u)) s db = Ok db' rs →
       owned_by v "patients" db' = owned_by v "patients" db
       ∧ ((∀ w, s ≠ Delete "patients" w) →
          owned_by v "patient_records" db' = owned_by v "patient_records" db)
       ∧ (∀ w, s = Delete "patients" w →
          (∀ r, r ∈ rs → r !! "psychologist_id" = Some u)
          ∧ owned_by v "patient_records" db' =
            filter (λ r, refers_to "patient_id" "id" rs r = false)
                   (owned_by v "patient_records" db))).
Proof.
  split; [|split; [|split]].
  - intros t c r Ht Hp. rewrite <- (clinical_owner t r Ht).
    destruct (permitted_owner _ _ _ _ (clinical_secured t Ht) Hp)
      as (u' & Hu & Ho). congruence.
  - intros s db db' rs Ht Hexec r Hr.
    rewrite <- (clinical_owner _ r Ht).
    pose proof (clinical_secured _ Ht) as Hsec.
    destruct s as [t w | t values | t set w | t w]; simpl in Ht, Hsec.
    + apply exec_select_Ok in Hexec as (_ & _ & ->).
      apply list_elem_of_filter in Hr as [[Hsee _]%andb_true_iff _].
      by apply may_see_owner in Hsee.
    + apply exec_insert_Ok in Hexec as (tb & _ & -> & _ & Hw & _).
      apply list_elem_of_singleton in Hr as ->.
      by apply may_write_owner in Hw.
    + apply exec_update_Ok in Hexec as (_ & _ & -> & Hall).
      apply list_elem_of_fmap in Hr as (r0 & -> & Hr0).
      rewrite Forall_forall in Hall.
      by apply (may_write_owner (Some u) t UPDATE), Hall.
    + apply exec_delete_Ok in Hexec as (_ & -> & _).
      apply list_elem_of_filter in Hr as [Hhit _].
      by apply (delete_hits_own (Some u) t w).
  - intros t w db db' rs Ht (_ & -> & ->)%exec_select_Ok.
    split; [done|]. unfold owned_by. rewrite list_filter_filter.
    apply list_filter_iff. intros r. simpl.
    rewrite andb_true_iff, (visible_iff_owner u t SELECT r Ht) by done.
    tauto.
  - intros v s db db' rs Hv Hexec.
    assert (Some u ≠ Some v) as Hv' by congruence.
    destruct s as [t w | t values | t set w | t w].
    + apply exec_select_Ok in Hexec as (_ & -> & _). by repeat split.
    + split; [|split];
        [ eapply insert_keeps_others; eauto
        | intros _; eapply insert_keeps_others; eauto
        | intros w Heq; discriminate ].
    + split; [|split];
        [ eapply update_keeps_others; eauto
        | intros _; eapply update_keeps_others; eauto
        | intros w' Heq; discriminate ].
    + pose proof (delete_keeps_others k (Some u) v Hv' t w db db' rs Hexec)
        as [Hp Hr].
      split; [done|]. split.
      * intros Hne. rewrite Hr, bool_decide_eq_false_2; [done|].
        intros ->. by apply (Hne w).
      * intros w' Heq. injection Heq as -> _.
        rewrite bool_decide_eq_true_2 in Hr by done. split; [|done].
        apply exec_delete_Ok in Hexec as (Hsec & -> & _).
        intros r [Hhit _]%list_elem_of_filter.
        rewrite <- owner_patients. by apply (delete_hits_own (Some u) _ w).
Qed.

(** C1 on the sample data: Bruno deletes his patients, and nothing of
    Ana's patients changes. *)
Lemma clinical_rows_isolated_witness :
  Sample.ana ≠ Sample.bruno
  ∧ owned_by Sample.ana "patients"
      (after (exec Sample.later (Client (Some Sample.bruno))
                (Delete "patients" Sample.carla) Sample.shared_patient)
             Sample.shared_patient)
    = owned_by Sample.ana "patients" Sample.shared_patient.
Proof.
  assert (Sample.ana ≠ Sample.bruno) as Hne by discriminate.
  split; [exact Hne|].
  destruct (exec Sample.later (Client (Some Sample.bruno))
              (Delete "patients" Sample.carla) Sample.shared_patient)
    as [db' rs|e] eqn:Hexec; [|reflexivity].
  exact (proj1 (proj2 (proj2 (proj2
           (clinical_rows_isolated Sample.later Sample.bruno)))
           Sample.ana _ _ _ _ Hne Hexec)).
Defined.

(** C1 as the claim has it fails where it says that one clinician's
    statements never affect the other's rows.  Ana has filed a record about
    a patient of Bruno's; when Bruno deletes his patients, Ana's record
    goes with them. *)
Lemma cascade_removes_record_of_other_clinician :
  let before := Sample.shared_patient in
  let outcome :=
    exec Sample.later (Client (Some Sample.bruno))
         (Delete "patients" Sample.carla) before in
  Sample.ana ≠ Sample.bruno
  ∧ length (owned_by Sample.ana "patient_records" before) = 1%nat
  ∧ (∃ db' rs, outcome = Ok db' rs)
  ∧ owned_by Sample.ana "patient_records" (after outcome before) = [].
Proof.
  cbv zeta. split; [discriminate|]. split; [by vm_compute|].
  split; [|by vm_compute].
  destruct (exec _ _ _ _) as [db' rs|e] eqn:Hexec; [eauto|].
  by vm_compute in Hexec.
Qed.

(** ** The claims on the sample data *)

(** C9 on the sample form: Ana is signed in, the name is not blank, and the
    INSERT that is sent carries the trimmed name. *)
Lemma new_patient_form_submitted_witness :
  trim (NewPatient.full_name Sample.form) ≠ ""
  ∧ queries (NewPatient.handleSubmit
               (respond Sample.later (Client (Some Sample.ana)))
               (Some Sample.ana) Sample.form Sample.two_accounts).2
    = [NewPatient.insert_patient Sample.ana Sample.form]
  ∧ NewPatient.new_patient Sample.ana Sample.form !! "full_name"
    = Some (Some "Davi Lima").
Proof.
  assert (trim (NewPatient.full_name Sample.form) ≠ "") as Hname
    by (vm_compute; discriminate).
  split; [exact Hname|].
  destruct (proj2 (proj2 (proj2
              (new_patient_form_submitted Sample.later
                 (Client (Some Sample.ana)) Sample.ana Sample.form
                 Sample.two_accounts))) Hname) as (Hq & _ & Hn & _).
  split; [exact Hq | exact Hn].
Defined.

(** C9 as the claim has it fails when nobody is signed in: the name is not
    blank and still no INSERT is sent, and a blank name gives no message. *)
Lemma submit_without_user_does_nothing :
  let request := respond Sample.later (Client None) in
  trim (NewPatient.full_name Sample.form) ≠ ""
  ∧ NewPatient.handleSubmit request None Sample.form Sample.two_accounts
    = (Sample.two_accounts, [])
  ∧ trim (NewPatient.full_name NewPatient.initial) = ""
  ∧ NewPatient.handleSubmit request None NewPatient.initial
      Sample.two_accounts
    = (Sample.two_accounts, []).
Proof. cbv zeta. split; [vm_compute; discriminate|]. by repeat split. Qed.


(** ** Accounts and their profiles *)

Lemma cascade_unfold n t dead db :
  cascade (S n) t dead db =
  foldr (λ '(t', c', c) db,
           let rs := rows_of db t' in
           cascade n t' (filter (λ r, refers_to c' c dead r = true) rs)
             (set_rows t' (filter (λ r, refers_to c' c dead r = false) rs) db))
        db (referencing t).
Proof. reflexivity. Qed.

Lemma referencing_auth_users :
  referencing "auth.users" =
  [ ("profiles", "id", "id"); ("patients", "psychologist_id", "id");
    ("patient_records", "psychologist_id", "id") ].
Proof. reflexivity. Qed.

Lemma cascade_auth_users_profiles n dead db :
  let db' := cascade (S (S n)) "auth.users" dead db in
  rows_of db' "profiles" =
    filter (λ r, refers_to "id" "id" dead r = false) (rows_of db "profiles")
  ∧ auth_users db' = auth_users db.
Proof.
  cbv zeta. rewrite cascade_unfold, referencing_auth_users. cbn [foldr].
  rewrite cascade_profiles, cascade_patients, cascade_patient_records.
  split.
  - rewrite rows_of_set_rows. by rewrite !rows_of_set_rows_ne by done.
  - reflexivity.
Qed.

Lemma profiles_columns_NoDup : NoDup (col_name <$> tbl_columns profiles).
Proof. apply (bool_decide_unpack _). vm_compute. exact I. Qed.

(** What the sign-up trigger inserts. *)
Lemma handle_new_user_Ok k NEW db db' rs :
  handle_new_user k NEW db = Ok db' rs →
  ∃ r : row,
    rows_of db' "profiles" = rows_of db "profiles" ++ [r]
    ∧ auth_users db' = auth_users db
    ∧ r !! "id" = Some (user_id NEW)
    ∧ r !! "full_name" =
      Some (COALESCE (arrow_text (raw_user_meta_data NEW) "full_name")
                     "Psicólogo(a)").
Proof.
  unfold handle_new_user.
  intros (tb & Htb & -> & -> & _ & _)%exec_insert_Ok.
  change (find_table "profiles") with (Some profiles) in Htb.
  injection Htb as <-.
  eexists. split; [apply rows_of_set_rows|]. split; [reflexivity|].
  pose proof profiles_columns_NoDup as Hnd. split.
  - rewrite (new_row_lookup k profiles _
               (Col "id" UUID
                  [PRIMARY_KEY; REFERENCES_ON_DELETE_CASCADE "auth.users" "id"])
               Hnd); [reflexivity|].
    unfold profiles. simpl. apply list_elem_of_here.
  - rewrite (new_row_lookup k profiles _ (Col "full_name" TEXT [NOT_NULL])
               Hnd); [reflexivity|].
    unfold profiles. simpl.
    apply list_elem_of_further, list_elem_of_here.
Qed.

Lemma insert_auth_user_Ok k NEW db db' rs :
  insert_auth_user k NEW db = Ok db' rs →
  auth_users db' = auth_users db ++ [NEW]
  ∧ ∃ r : row,
      rows_of db' "profiles" = rows_of db "profiles" ++ [r]
      ∧ r !! "id" = Some (user_id NEW)
      ∧ r !! "full_name" =
        Some (COALESCE (arrow_text (raw_user_meta_data NEW) "full_name")
                       "Psicólogo(a)").
Proof.
  unfold insert_auth_user.
  intros (r & Hrows & Husers & Hid & Hname)%handle_new_user_Ok.
  split; [exact Husers|]. exists r. auto.
Qed.

Lemma has_profile_rows db db' id :
  rows_of db' "profiles" = rows_of db "profiles" →
  has_profile db id → has_profile db' id.
Proof. unfold has_profile. by intros ->. Qed.

Lemma update_keeps_profile_ids k uid set w db db' rs id :
  exec k (Client uid) (Update "profiles" set w) db = Ok db' rs →
  has_profile db id → has_profile db' id.
Proof.
  intros (Ht & -> & _ & Hall)%exec_update_Ok (r & Hr & Hid).
  set (hit := λ r, may_see (Client uid) "profiles" UPDATE r && w r) in *.
  set (upd := λ r, if hit r then before_update "profiles" k (assign set r)
                   else r) in *.
  exists (upd r). rewrite rows_of_set_rows. split.
  - by apply list_elem_of_fmap_2.
  - destruct (hit r) eqn:Hhit.
    + rewrite Forall_forall in Hall. specialize (Hall r).
      rewrite list_elem_of_filter in Hall. specialize (Hall (conj Hhit Hr)).
      apply writable_owner in Hall as (u1 & Hu1 & Ho1); [|done].
      pose proof Hhit as [Hsee _]%andb_true_iff.
      apply visible_owner in Hsee as (u2 & Hu2 & Ho2); [|done..].
      fold (hit r) in Ho1. fold (upd r) in Ho1.
      rewrite owner_profiles in Ho1, Ho2. congruence.
    + subst upd. cbn beta. by rewrite Hhit.
Qed.

Lemma delete_keeps_profiles k uid t w db db' rs :
  exec k (Client uid) (Delete t w) db = Ok db' rs →
  rows_of db' "profiles" = rows_of db "profiles".
Proof.
  intros (Ht & -> & ->)%exec_delete_Ok.
  change (length schema) with 3. unfold row_level_security in Ht.
  repeat (apply elem_of_cons in Ht as [-> | Ht]);
    try (by apply elem_of_nil in Ht).
  - rewrite cascade_profiles, rows_of_set_rows.
    induction (rows_of db "profiles") as [|r l IH]; [done|].
    rewrite filter_cons, IH, decide_True; [done|].
    apply andb_false_iff. left.
    apply (no_policy_not_permitted uid "profiles" DELETE r); [|reflexivity].
    unfold row_level_security. set_solver.
  - rewrite cascade_patients. by rewrite !rows_of_set_rows_ne by done.
  - rewrite cascade_patient_records. by rewrite rows_of_set_rows_ne by done.
Qed.

Lemma exec_keeps_auth_users k who s db db' rs :
  exec k who s db = Ok db' rs → auth_users db' = auth_users db.
Proof.
  destruct s as [t w | t values | t set w | t w].
  - by intros (_ & -> & _)%exec_select_Ok.
  - by intros (tb & _ & _ & -> & _)%exec_insert_Ok.
  - by intros (_ & -> & _)%exec_update_Ok.
  - intros (Ht & -> & ->)%exec_delete_Ok.
    change (length schema) with 3. unfold row_level_security in Ht.
    repeat (apply elem_of_cons in Ht as [-> | Ht]);
      try (by apply elem_of_nil in Ht).
    + by rewrite cascade_profiles.
    + by rewrite cascade_patients.
    + by rewrite cascade_patient_records.
Qed.

Lemma request_keeps_profiles k uid s db db' rs id :
  exec k (Client uid) s db = Ok db' rs →
  has_profile db id → has_profile db' id.
Proof.
  destruct s as [t w | t values | t set w | t w]; intros Hexec.
  - by apply exec_select_Ok in Hexec as (_ & -> & _).
  - apply exec_insert_Ok in Hexec as (tb & _ & _ & -> & _).
    intros (r & Hr & Hid). exists r. split; [|done].
    destruct (decide (t = "profiles")) as [->|Hne].
    + rewrite rows_of_set_rows. apply elem_of_app. by left.
    + by rewrite rows_of_set_rows_ne.
  - destruct (decide (t = "profiles")) as [->|Hne].
    + by eapply update_keeps_profile_ids.
    + apply exec_update_Ok in Hexec as (_ & -> & _).
      apply has_profile_rows. by rewrite rows_of_set_rows_ne.
  - apply has_profile_rows. by eapply delete_keeps_profiles.
Qed.

Lemma delete_auth_user_Ok id db db' rs :
  delete_auth_user id db = Ok db' rs →
  auth_users db' = filter (λ u, user_id u ≠ id) (auth_users db)
  ∧ rows_of db' "profiles" =
    filter (λ r, refers_to "id" "id" [{[ "id" := id ]}] r = false)
           (rows_of db "profiles").
Proof.
  unfold delete_auth_user. intros (-> & _ & _)%commit_Ok.
  change (length schema) with 3.
  destruct (cascade_auth_users_profiles 2 [{[ "id" := id ]}]
              (Database (filter (λ u, user_id u ≠ id) (auth_users db))
                        (public db))) as [Hrows Husers].
  split; [exact Husers | exact Hrows].
Qed.

(** Whatever happens next, the accounts there are keep a profile. *)
Lemma step_keeps_profiles db e :
  (∀ u, u ∈ auth_users db → has_profile db (user_id u)) →
  ∀ u, u ∈ auth_users (step db e) → has_profile (step db e) (user_id u).
Proof.
  intros Hinv u. unfold step.
  destruct (run_event e db) as [db' rs|err] eqn:Hrun; simpl; [|by apply Hinv].
  destruct e as [k NEW | id | k uid s]; simpl in Hrun.
  - apply insert_auth_user_Ok in Hrun as (-> & r & Hrows & Hid & _).
    intros [Hu | ->%list_elem_of_singleton]%elem_of_app.
    + destruct (Hinv u Hu) as (r0 & Hr0 & Hid0). exists r0.
      split; [|done]. rewrite Hrows. apply elem_of_app. by left.
    + exists r. split; [|done]. rewrite Hrows. apply elem_of_app.
      right. left.
  - apply delete_auth_user_Ok in Hrun as (-> & Hrows).
    intros [Hne Hu]%list_elem_of_filter.
    destruct (Hinv u Hu) as (r0 & Hr0 & Hid0). exists r0.
    split; [|done]. rewrite Hrows. apply list_elem_of_filter. split; [|done].
    unfold refers_to. rewrite Hid0. apply bool_decide_eq_false_2.
    cbn. rewrite lookup_singleton_eq. cbn.
    rewrite list_elem_of_singleton. done.
  - rewrite (exec_keeps_auth_users _ _ _ _ _ _ Hrun). intros Hu.
    eapply request_keeps_profiles; eauto.
Qed.

Lemma history_snoc es e : history (es ++ [e]) = step (history es) e.
Proof. unfold history. by rewrite foldl_app. Qed.

Lemma history_has_profiles es u :
  u ∈ auth_users (history es) → has_profile (history es) (user_id u).
Proof.
  revert u. induction es as [|e es IH] using rev_ind.
  - intros u Hu. by apply elem_of_nil in Hu.
  - intros u. rewrite history_snoc. by apply step_keeps_profiles.
Qed.

(** C10: when a row is inserted into [auth.users], the database afterwards
    holds that account and a row of [profiles] with the same id; its
    [full_name] is the text of the [full_name] member of the sign-up
    metadata when there is one that is not null, and 'Psicólogo(a)' when
    the metadata is NULL, has no such member, or has it null.  From then
    on, through sign-ups, removals of accounts and statements of clients,
    every account there is has a profile. *)
Theorem every_account_has_profile :
  (∀ k NEW db db' rs, insert_auth_user k NEW db = Ok db' rs →
     NEW ∈ auth_users db'
     ∧ ∃ r : row,
         r ∈ rows_of db' "profiles" ∧ r !! "id" = Some (user_id NEW)
         ∧ (∀ m j name, raw_user_meta_data NEW = Some m →
              m !! "full_name" = Some j → json_text j = Some name →
              r !! "full_name" = Some name)
         ∧ (∀ m name, raw_user_meta_data NEW = Some m →
              m !! "full_name" = Some (JString name) →
              r !! "full_name" = Some name)
         ∧ (raw_user_meta_data NEW = None
            ∨ (∃ m, raw_user_meta_data NEW = Some m
                    ∧ (m !! "full_name" = None
                       ∨ m !! "full_name" = Some JNull)) →
            r !! "full_name" = Some "Psicólogo(a)"))
  ∧ (∀ es u, u ∈ auth_users (history es) →
       has_profile (history es) (user_id u)).
Proof.
  split; [|apply history_has_profiles].
  intros k NEW db db' rs (Husers & r & Hrows & Hid & Hname)%insert_auth_user_Ok.
  split; [rewrite Husers; apply elem_of_app; right; left|].
  exists r. split; [rewrite Hrows; apply elem_of_app; right; left|].
  split; [exact Hid|].
  unfold arrow_text, COALESCE in Hname.
  assert (∀ m j name, raw_user_meta_data NEW = Some m →
            m !! "full_name" = Some j → json_text j = Some name →
            r !! "full_name" = Some name) as Hgen.
  { intros m j name Hm Hj Ht. by rewrite Hname, Hm, Hj, Ht. }
  split; [exact Hgen|]. split; [intros m name Hm Hj; by eapply Hgen|].
  intros [Hnone | (m & Hm & [Hj | Hj])]; rewrite Hname.
  - by rewrite Hnone.
  - by rewrite Hm, Hj.
  - by rewrite Hm, Hj.
Qed.

(** C10 on the sample data: Ana signs up with her name in the metadata,
    and gets a profile under that name. *)
Lemma every_account_has_profile_witness :
  let NEW := AuthUser Sample.ana (Some {[ "full_name" := JString "Ana Souza" ]}) in
  ∃ db' rs,
    insert_auth_user Sample.later NEW empty = Ok db' rs
    ∧ ∃ r : row, r ∈ rows_of db' "profiles"
                 ∧ r !! "id" = Some Sample.ana
                 ∧ r !! "full_name" = Some "Ana Souza".
Proof.
  cbv zeta.
  destruct (insert_auth_user Sample.later
              (AuthUser Sample.ana (Some {[ "full_name" := JString "Ana Souza" ]}))
              empty) as [db' rs|e] eqn:Hins; [|by vm_compute in Hins].
  exists db', rs. split; [reflexivity|].
  destruct (proj1 every_account_has_profile _ _ _ _ _ Hins)
    as (_ & r & Hr & Hid & _ & Hname & _).
  exists r. split; [exact Hr|]. split; [exact Hid|].
  apply (Hname {[ "full_name" := JString "Ana Souza" ]} "Ana Souza");
    reflexivity.
Defined.

(** ** Who owns a row *)

Lemma insert_auth_user_rows k NEW db db' rs t r v :
  user_id NEW ≠ v → insert_auth_user k NEW db = Ok db' rs →
  r ∈ owned_by v t db' → r ∈ owned_by v t db.
Proof.
  intros Hne Hins. destruct (decide (t = "profiles")) as [->|Ht].
  - apply insert_auth_user_Ok in Hins as (_ & r0 & Hrows & Hid & _).
    unfold owned_by. rewrite Hrows, filter_app, elem_of_app.
    intros [Hr | Hr]; [done|].
    apply list_elem_of_filter in Hr as [Ho ->%list_elem_of_singleton].
    rewrite owner_profiles in Ho. congruence.
  - unfold insert_auth_user, handle_new_user in Hins.
    apply exec_insert_Ok in Hins as (tb & _ & _ & -> & _).
    unfold owned_by. by rewrite rows_of_set_rows_ne.
Qed.

(** A cascade only takes rows away. *)
Lemma cascade_removes n t dead db t' r :
  r ∈ rows_of (cascade n t dead db) t' → r ∈ rows_of db t'.
Proof.
  revert t dead db r. induction n as [|n IHn]; intros t dead db r; [done|].
  rewrite cascade_unfold.
  induction (referencing t) as [|[[t1 c1] c] l IHl]; [done|].
  cbn [foldr]. cbv zeta. intros Hr%IHn. apply IHl.
  destruct (decide (t1 = t')) as [->|Hne].
  - rewrite rows_of_set_rows in Hr. by apply list_elem_of_filter in Hr as [_ ?].
  - by rewrite rows_of_set_rows_ne in Hr.
Qed.

Lemma delete_auth_user_removes id db db' rs t r :
  delete_auth_user id db = Ok db' rs →
  r ∈ rows_of db' t → r ∈ rows_of db t.
Proof.
  unfold delete_auth_user. intros (-> & _ & _)%commit_Ok.
  by intros Hr%cascade_removes.
Qed.

(** No statement of somebody else adds to the rows of [v]. *)
Lemma exec_adds_nothing_to_others k uid v s db db' rs t r :
  uid ≠ Some v → t ∈ row_level_security →
  exec k (Client uid) s db = Ok db' rs →
  r ∈ owned_by v t db' → r ∈ owned_by v t db.
Proof.
  intros Hv Ht Hexec. destruct s as [t0 w | t0 values | t0 set w | t0 w].
  - by apply exec_select_Ok in Hexec as (_ & -> & _).
  - by rewrite (insert_keeps_others k uid v Hv _ _ _ _ _ t Hexec).
  - by rewrite (update_keeps_others k uid v Hv _ _ _ _ _ _ t Hexec).
  - destruct (delete_keeps_others k uid v Hv _ _ _ _ _ Hexec) as [Hp Hr].
    unfold row_level_security in Ht.
    repeat (apply elem_of_cons in Ht as [-> | Ht]);
      try (by apply elem_of_nil in Ht).
    + unfold owned_by. by rewrite (delete_keeps_profiles _ _ _ _ _ _ _ Hexec).
    + by rewrite Hp.
    + rewrite Hr. case_bool_decide; [|done].
      by intros [_ ?]%list_elem_of_filter.
Qed.

Lemma step_adds_nothing_to_others db e v t r :
  t ∈ row_level_security →
  (∀ k s, e ≠ Request k (Some v) s) →
  (∀ k NEW, e = SignUp k NEW → user_id NEW ≠ v) →
  r ∈ owned_by v t (step db e) → r ∈ owned_by v t db.
Proof.
  intros Ht He Hnew. unfold step.
  destruct (run_event e db) as [db' rs|err] eqn:Hrun; simpl; [|done].
  destruct e as [k NEW | id | k uid s]; simpl in Hrun.
  - eapply insert_auth_user_rows; eauto.
  - unfold owned_by. rewrite !list_elem_of_filter. intros [Ho Hr].
    split; [done|]. by eapply delete_auth_user_removes.
  - apply (exec_adds_nothing_to_others k uid v) with (s := s) (rs := rs);
      [|done..].
    intros ->. by apply (He k s).
Qed.

(** C2: every policy of the migration compares [auth.uid()] with the
    column of its table that points at the account: [id] in [profiles],
    [psychologist_id] in [patients] and [patient_records].  That account is
    the one who created the row: an INSERT by [u] on one of the three
    tables stores a row that carries [u]'s id, and nothing anybody else
    does, no sign-up or removal of another account and no statement of
    another caller, adds to the rows that carry [v]'s id. *)
Theorem policies_keyed_on_owner :
  Forall owner_equality policies
  ∧ ownership_columns profiles = ["id"]
  ∧ ownership_columns patients = ["psychologist_id"]
  ∧ ownership_columns patient_records = ["psychologist_id"]
  ∧ (∀ k u t values db db' rs, t ∈ row_level_security →
       exec k (Client (Some u)) (Insert t values) db = Ok db' rs →
       ∃ r : row, rs = [r] ∧ rows_of db' t = rows_of db t ++ [r]
                  ∧ owner t r = Some u)
  ∧ (∀ db e v t r, t ∈ row_level_security →
       (∀ k s, e ≠ Request k (Some v) s) →
       (∀ k NEW, e = SignUp k NEW → user_id NEW ≠ v) →
       r ∈ owned_by v t (step db e) → r ∈ owned_by v t db).
Proof.
  split; [|repeat split].
  - apply Forall_forall. apply policy_owner_equality.
  - intros k u t values db db' rs Ht
      (tb & Htb & -> & -> & Hw & _)%exec_insert_Ok.
    eexists. split; [reflexivity|]. split; [apply rows_of_set_rows|].
    by apply (may_write_owner (Some u) t INSERT).
  - intros db e v t r. apply step_adds_nothing_to_others.
Qed.

(** C2 on the sample data: Bruno's deleting his patient adds nothing to
    the records that carry Ana's id. *)
Lemma policies_keyed_on_owner_witness :
  "patient_records" ∈ row_level_security
  ∧ ∀ r, r ∈ owned_by Sample.ana "patient_records"
               (step Sample.shared_patient
                  (Request Sample.later (Some Sample.bruno)
                     (Delete "patients" Sample.carla))) →
         r ∈ owned_by Sample.ana "patient_records" Sample.shared_patient.
Proof.
  assert ("patient_records" ∈ row_level_security) as Ht
    by (unfold row_level_security; set_solver).
  split; [exact Ht|]. intros r.
  apply (proj2 (proj2 (proj2 (proj2 (proj2 policies_keyed_on_owner))))
           Sample.shared_patient _ Sample.ana "patient_records" r Ht).
  - intros k s Heq. discriminate.
  - intros k NEW Heq. discriminate.
Defined.

(** ** Reading through the pages *)

Lemma practice_consistent v id : consistent (Sample.practice_of v id) = true.
Proof.
  vm_compute.
  repeat match goal with
  | |- context [match ?x with left _ => _ | right _ => _ end] =>
      destruct x as [?|Hn]; [|exfalso; apply Hn; left]
  end.
  reflexivity.
Qed.


Lemma exec_select_clinical k u t w db :
  clinical t →
  exec k (Client (Some u)) (Select t w) db
  = Ok db (filter (λ r, w r = true) (owned_by u t db)).
Proof.
  intros Ht. unfold exec.
  assert (is_Some (find_table t)) as [tb ->] by (destruct Ht as [-> | ->]; eauto).
  f_equal. unfold owned_by. rewrite list_filter_filter.
  apply list_filter_iff. intros r. simpl.
  rewrite andb_true_iff, (visible_iff_owner u t SELECT r Ht) by done.
  tauto.
Qed.









(** C7 on the sample data: the list page, run for Ana, sends its one query
    to [patients]. *)
Lemma page_queries_target_two_tables_witness :
  let request := respond Sample.later (Client (Some Sample.ana)) in
  let es := (Patients.fetchPatients request Patients.initial
               Sample.shared_patient).2 in
  page_run request es ∧ Patients.all_patients ∈ queries es
  ∧ table_ Patients.all_patients = "patients".
Proof.
  cbv zeta.
  assert (page_run (respond Sample.later (Client (Some Sample.ana)))
            (Patients.fetchPatients
               (respond Sample.later (Client (Some Sample.ana)))
               Patients.initial Sample.shared_patient).2) as Hrun
    by constructor.
  assert (Patients.all_patients
          ∈ queries (Patients.fetchPatients
                       (respond Sample.later (Client (Some Sample.ana)))
                       Patients.initial Sample.shared_patient).2) as Hq
    by (rewrite fetchPatients_queries; left).
  split; [exact Hrun|]. split; [exact Hq|].
  destruct (page_queries_target_two_tables _ _ _ Hrun Hq) as [[Ht | Ht] _];
    [exact Ht | discriminate Ht].
Defined.

(** * Further properties *)

Ltac in_list :=
  repeat first [apply list_elem_of_here | apply list_elem_of_further].

(** ** What a consistent database holds *)

Lemma consistent_spec db :
  consistent db = true ↔
  NoDup (user_id <$> auth_users db)
  ∧ ∀ tb c, tb ∈ schema → c ∈ tbl_columns tb →
      (∀ r k, r ∈ rows_of db (tbl_name tb) → k ∈ col_constraints c →
              satisfies db (col_name c) r k = true)
      ∧ (is_primary_key c = true →
         NoDup (column_values db (tbl_name tb) (col_name c))).
Proof.
  unfold consistent. rewrite andb_true_iff, bool_decide_eq_true.
  apply and_iff_compat_l. rewrite forallb_forall. split.
  - intros Hall tb c Htb Hc. apply list_elem_of_In in Htb, Hc.
    specialize (Hall tb Htb). rewrite forallb_forall in Hall.
    specialize (Hall c Hc). unfold column_ok in Hall.
    apply andb_true_iff in Hall as [Hrows Hpk]. split.
    + intros r k Hr Hk. rewrite forallb_forall in Hrows.
      apply list_elem_of_In in Hr, Hk. specialize (Hrows r Hr).
      rewrite forallb_forall in Hrows. by apply Hrows.
    + intros Hkey. rewrite Hkey in Hpk. by apply bool_decide_eq_true in Hpk.
  - intros Hall tb Htb. apply forallb_forall. intros c Hc.
    apply list_elem_of_In in Htb, Hc.
    destruct (Hall tb c Htb Hc) as [Hrows Hpk].
    unfold column_ok. apply andb_true_iff. split.
    + apply forallb_forall. intros r Hr. apply forallb_forall. intros k Hk.
      apply list_elem_of_In in Hr, Hk. by apply Hrows.
    + destruct (is_primary_key c); [|done].
      apply bool_decide_eq_true. by apply Hpk.
Qed.

Lemma exec_consistent k who s db db' rs :
  consistent db = true → exec k who s db = Ok db' rs → consistent db' = true.
Proof.
  intros Hc. destruct s as [t w | t values | t set w | t w].
  - by intros (_ & -> & _)%exec_select_Ok.
  - by intros (tb & _ & _ & _ & _ & ?)%exec_insert_Ok.
  - unfold exec. destruct (find_table t); [|done].
    destruct (known_columns _ _); [|done]. destruct (forallb _ _); [|done].
    by intros (-> & _ & ?)%commit_Ok.
  - unfold exec. destruct (find_table t); [|done].
    by intros (-> & _ & ?)%commit_Ok.
Qed.

Lemma step_consistent db e :
  consistent db = true → consistent (step db e) = true.
Proof.
  intros Hc. unfold step.
  destruct (run_event e db) as [db' rs|err] eqn:Hrun; simpl; [|done].
  destruct e as [k NEW | id | k uid s]; simpl in Hrun.
  - unfold insert_auth_user, handle_new_user in Hrun.
    by apply exec_insert_Ok in Hrun as (tb & _ & _ & _ & _ & ?).
  - unfold delete_auth_user in Hrun. by apply commit_Ok in Hrun as (-> & _ & ?).
  - by eapply exec_consistent.
Qed.

Lemma history_consistent es : consistent (history es) = true.
Proof.
  induction es as [|e es IH] using rev_ind; [by vm_compute|].
  rewrite history_snoc. by apply step_consistent.
Qed.

(** The CHECK constraints on [status] and [session_type], and the NOT NULL
    and foreign-key constraints the pages lean on. *)
Lemma consistent_patient db r :
  consistent db = true → r ∈ rows_of db "patients" →
  (r !! "status" = None
   ∨ r !! "status" = Some "active" ∨ r !! "status" = Some "inactive"
   ∨ r !! "status" = Some "discharged")
  ∧ is_Some (r !! "id") ∧ is_Some (r !! "full_name")
  ∧ ∃ u, r !! "psychologist_id" = Some u ∧ u ∈ user_id <$> auth_users db.
Proof.
  intros [_ Hall]%consistent_spec Hr.
  assert (patients ∈ schema) as Htb by (unfold schema; in_list).
  assert (∀ c, c ∈ tbl_columns patients →
            ∀ k, k ∈ col_constraints c →
                 satisfies db (col_name c) r k = true) as Hsat.
  { intros c Hc k Hk. by apply (Hall patients c Htb Hc). }
  split; [|split; [|split]].
  - specialize (Hsat (Col "status" TEXT
                        [DEFAULT (Literal "active");
                         CHECK_IN ["active"; "inactive"; "discharged"]])).
    specialize (Hsat ltac:(unfold patients; simpl; in_list)
                  (CHECK_IN ["active"; "inactive"; "discharged"])
                  ltac:(simpl; in_list)).
    simpl in Hsat. destruct (r !! "status") as [v|]; [|by left].
    apply bool_decide_eq_true in Hsat. right.
    repeat (apply elem_of_cons in Hsat as [-> | Hsat]); auto.
    by apply elem_of_nil in Hsat.
  - specialize (Hsat (Col "id" UUID [PRIMARY_KEY; DEFAULT gen_random_uuid])
                  ltac:(unfold patients; simpl; in_list) PRIMARY_KEY
                  ltac:(simpl; in_list)).
    by apply bool_decide_eq_true in Hsat.
  - specialize (Hsat (Col "full_name" TEXT [NOT_NULL])
                  ltac:(unfold patients; simpl; in_list) NOT_NULL
                  ltac:(simpl; in_list)).
    by apply bool_decide_eq_true in Hsat.
  - pose proof (Hsat (Col "psychologist_id" UUID
                        [NOT_NULL;
                         REFERENCES_ON_DELETE_CASCADE "auth.users" "id"])
                  ltac:(unfold patients; simpl; in_list)) as Hp.
    pose proof (Hp NOT_NULL ltac:(simpl; in_list)) as Hnn.
    pose proof (Hp (REFERENCES_ON_DELETE_CASCADE "auth.users" "id")
                  ltac:(simpl; in_list)) as Hfk.
    simpl in Hnn, Hfk. apply bool_decide_eq_true in Hnn as [u Hu].
    rewrite Hu in Hfk. apply bool_decide_eq_true in Hfk. eauto.
Qed.

Lemma consistent_record db r :
  consistent db = true → r ∈ rows_of db "patient_records" →
  (r !! "session_type" = None
   ∨ r !! "session_type" = Some "individual"
   ∨ r !! "session_type" = Some "couple"
   ∨ r !! "session_type" = Some "family"
   ∨ r !! "session_type" = Some "group")
  ∧ ∃ p, r !! "patient_id" = Some p
         ∧ p ∈ column_values db "patients" "id".
Proof.
  intros [_ Hall]%consistent_spec Hr.
  assert (patient_records ∈ schema) as Htb by (unfold schema; in_list).
  assert (∀ c, c ∈ tbl_columns patient_records →
            ∀ k, k ∈ col_constraints c →
                 satisfies db (col_name c) r k = true) as Hsat.
  { intros c Hc k Hk. by apply (Hall patient_records c Htb Hc). }
  split.
  - specialize (Hsat (Col "session_type" TEXT
                        [DEFAULT (Literal "individual");
                         CHECK_IN ["individual"; "couple"; "family"; "group"]])
                  ltac:(unfold patient_records; simpl; in_list)
                  (CHECK_IN ["individual"; "couple"; "family"; "group"])
                  ltac:(simpl; in_list)).
    simpl in Hsat. destruct (r !! "session_type") as [v|]; [|by left].
    apply bool_decide_eq_true in Hsat. right.
    repeat (apply elem_of_cons in Hsat as [-> | Hsat]); auto.
    by apply elem_of_nil in Hsat.
  - pose proof (Hsat (Col "patient_id" UUID
                        [NOT_NULL;
                         REFERENCES_ON_DELETE_CASCADE "patients" "id"])
                  ltac:(unfold patient_records; simpl; in_list)) as Hp.
    pose proof (Hp NOT_NULL ltac:(simpl; in_list)) as Hnn.
    pose proof (Hp (REFERENCES_ON_DELETE_CASCADE "patients" "id")
                  ltac:(simpl; in_list)) as Hfk.
    simpl in Hnn, Hfk. apply bool_decide_eq_true in Hnn as [p Hp'].
    rewrite Hp' in Hfk. apply bool_decide_eq_true in Hfk. eauto.
Qed.

(** ** Badges *)

Import Badges.

(** X1: the status badge.  A status that is none of active, inactive and
    discharged falls back on the badge of inactive, unless it is a name
    every object inherits, which gives a badge with no text and no class.
    For a patient stored in a consistent database the badge always has
    text: the CHECK constraint leaves only the three statuses and NULL, and
    NULL is drawn as inactive. *)
Theorem status_badge_falls_back_on_inactive :
  (∀ status,
     property_key status ∉ ["active"; "inactive"; "discharged"] →
     property_key status ∉ Object_prototype →
     getStatusBadge status = getStatusBadge (Some "inactive"))
  ∧ (∀ status, property_key status ∈ Object_prototype →
       getStatusBadge status = Variant None None)
  ∧ (∀ db r, consistent db = true → r ∈ rows_of db "patients" →
       label (getStatusBadge (r !! "status")) =
       Some (match r !! "status" with
             | Some "active" => "Ativo"
             | Some "discharged" => "Alta"
             | _ => "Inativo"
             end)).
Proof.
  split; [|split].
  - intros status Hown Hproto. unfold getStatusBadge.
    rewrite (bool_decide_eq_false_2 _ Hproto).
    assert (variants !! property_key status = None) as ->; [|done].
    unfold variants.
    rewrite !lookup_insert_ne, lookup_singleton_ne; [done|..];
      intros Heq; apply Hown; rewrite <- Heq; in_list.
  - intros status Hproto. unfold getStatusBadge.
    rewrite (bool_decide_eq_true_2 _ Hproto).
    assert (variants !! property_key status = None) as ->; [|done].
    unfold Object_prototype in Hproto.
    repeat (apply elem_of_cons in Hproto as [-> | Hproto]);
      try (by apply elem_of_nil in Hproto); reflexivity.
  - intros db r Hc Hr.
    destruct (consistent_patient db r Hc Hr)
      as ([-> | [-> | [-> | ->]]] & _); reflexivity.
Qed.

(** X1 on sample values: an unknown status, an inherited name, and the
    patient of a one-patient practice. *)
Lemma status_badge_falls_back_on_inactive_witness :
  getStatusBadge (Some "archived") = getStatusBadge (Some "inactive")
  ∧ getStatusBadge (Some "toString") = Variant None None
  ∧ label (getStatusBadge
             (Sample.patient_of Sample.bruno "33333333-cccc" !! "status"))
    = Some "Ativo".
Proof.
  destruct status_badge_falls_back_on_inactive as (Hother & Hproto & Hrow).
  split; [|split].
  - apply Hother; apply (bool_decide_unpack _); by vm_compute.
  - apply Hproto. apply (bool_decide_unpack _). by vm_compute.
  - rewrite (Hrow (Sample.practice_of Sample.bruno "33333333-cccc"));
      [reflexivity | apply practice_consistent | left].
Defined.

(** X2: the session-type label.  The four session types are shown under
    their Portuguese names; any other text is shown as it is, there is no
    fallback; null stays null; a name every object inherits gives the
    inherited member, which is not a text.  For a record stored in a
    consistent database the label is one of the four names, or null when
    the type is NULL. *)
Theorem session_type_label_or_raw :
  (∀ type, type ∉ ["individual"; "couple"; "family"; "group"] →
     type ∉ Object_prototype →
     getSessionTypeBadge (Some type) = text type)
  ∧ getSessionTypeBadge None = nothing
  ∧ (∀ type, type ∈ Object_prototype →
       getSessionTypeBadge (Some type) = inherited type)
  ∧ (∀ db r, consistent db = true → r ∈ rows_of db "patient_records" →
       getSessionTypeBadge (r !! "session_type") =
       match r !! "session_type" with
       | Some "individual" => text "Individual"
       | Some "couple" => text "Casal"
       | Some "family" => text "Família"
       | Some "group" => text "Grupo"
       | _ => nothing
       end).
Proof.
  split; [|split; [|split]].
  - intros type Hown Hproto. unfold getSessionTypeBadge. simpl.
    rewrite (bool_decide_eq_false_2 _ Hproto).
    assert (labels !! type = None) as ->; [|done].
    unfold labels.
    rewrite !lookup_insert_ne, lookup_singleton_ne; [done|..];
      intros Heq; apply Hown; rewrite <- Heq; in_list.
  - reflexivity.
  - intros type Hproto. unfold Object_prototype in Hproto.
    repeat (apply elem_of_cons in Hproto as [-> | Hproto]);
      try (by apply elem_of_nil in Hproto); reflexivity.
  - intros db r Hc Hr.
    destruct (consistent_record db r Hc Hr)
      as ([-> | [-> | [-> | [-> | ->]]]] & _); reflexivity.
Qed.

(** X2 on sample values: a type the table does not allow, an inherited
    name, and the record of a one-patient practice, whose type is NULL. *)
Lemma session_type_label_or_raw_witness :
  getSessionTypeBadge (Some "online") = text "online"
  ∧ getSessionTypeBadge (Some "valueOf") = inherited "valueOf"
  ∧ getSessionTypeBadge
      (Sample.record_of Sample.bruno "33333333-cccc" !! "session_type")
    = nothing.
Proof.
  destruct session_type_label_or_raw as (Hother & _ & Hproto & Hrow).
  split; [|split].
  - apply Hother; apply (bool_decide_unpack _); by vm_compute.
  - apply Hproto. apply (bool_decide_unpack _). by vm_compute.
  - rewrite (Hrow (Sample.practice_of Sample.bruno "33333333-cccc"));
      [reflexivity | apply practice_consistent | left].
Defined.

(** ** The sidebar *)

Import Sidebar.

Lemma active_unfold pathname :
  active pathname =
  (if bool_decide (pathname = "/dashboard") then ["Dashboard"] else [])
  ++ (if startsWith pathname "/patients" then ["Pacientes"] else [])
  ++ (if startsWith pathname "/patients/new" then ["Novo Paciente"] else []).
Proof.
  unfold active, menuItems. rewrite !filter_cons, filter_nil.
  change (isActive pathname ("Dashboard", "/dashboard").2)
    with (bool_decide (pathname = "/dashboard")).
  change (isActive pathname ("Pacientes", "/patients").2)
    with (startsWith pathname "/patients").
  change (isActive pathname ("Novo Paciente", "/patients/new").2)
    with (startsWith pathname "/patients/new").
  destruct (bool_decide (pathname = "/dashboard")),
    (startsWith pathname "/patients"), (startsWith pathname "/patients/new");
    reflexivity.
Qed.

(** X3: which entries of the sidebar are drawn as active.  Dashboard is
    active at the address /dashboard and nowhere else, and then alone;
    Pacientes is active at every address that starts with /patients; Novo
    Paciente at every address that starts with /patients/new, where
    Pacientes is active as well.  So the active entries are none, Dashboard
    alone, Pacientes alone, or Pacientes and Novo Paciente together. *)
Theorem sidebar_active_entries (pathname : string) :
  (active pathname = ["Dashboard"] ↔ pathname = "/dashboard")
  ∧ ("Pacientes" ∈ active pathname ↔ ∃ rest, pathname = "/patients" +:+ rest)
  ∧ ("Novo Paciente" ∈ active pathname ↔
     ∃ rest, pathname = "/patients/new" +:+ rest)
  ∧ ("Novo Paciente" ∈ active pathname → "Pacientes" ∈ active pathname)
  ∧ (active pathname = [] ∨ active pathname = ["Dashboard"]
     ∨ active pathname = ["Pacientes"]
     ∨ active pathname = ["Pacientes"; "Novo Paciente"]).
Proof.
  rewrite active_unfold.
  assert (startsWith pathname "/patients/new" = true →
          startsWith pathname "/patients" = true) as Hnew.
  { rewrite !startsWith_spec. intros [rest ->]. by exists ("/new" +:+ rest). }
  assert (pathname = "/dashboard" →
          startsWith pathname "/patients" = false) as Hdash by (by intros ->).
  rewrite <- !startsWith_spec.
  assert (∀ x y : string, x ≠ y → x ∈ [y] → False) as Hone
    by (intros x y Hne ?%list_elem_of_singleton; done).
  case_bool_decide as Hd.
  - rewrite (Hdash Hd).
    destruct (startsWith pathname "/patients/new") eqn:Hn;
      [by rewrite (Hnew eq_refl) in Hdash; specialize (Hdash Hd)|].
    simpl. repeat split;
      first [ done | by intros ?%Hone | auto ].
  - destruct (startsWith pathname "/patients") eqn:Hp,
      (startsWith pathname "/patients/new") eqn:Hn; simpl;
      try (by specialize (Hnew eq_refl));
      repeat split;
      first [ done | by intros ?%elem_of_nil | by intros ?%Hone
            | intros; solve [in_list] | auto ].
Qed.

(** X3 at the address of the new-patient form: both entries are active. *)
Lemma sidebar_active_entries_witness :
  "Pacientes" ∈ active "/patients/new".
Proof.
  destruct (sidebar_active_entries "/patients/new")
    as (_ & _ & Hnew & Himp & _).
  apply Himp, Hnew. by exists "".
Defined.

(** ** Signing in and up *)

(** X4: the sign-in and sign-up form.  Signing in calls [signIn] with the
    e-mail address and password, whatever the name field holds, never
    [signUp], and says nothing when it works.  Signing up with a blank name
    calls neither; with a name it calls [signUp] once, with the name as
    typed, and shows exactly one message.  The two messages of the service
    the page knows are shown in Portuguese. *)
Theorem auth_form_calls `{StringMethods}
    (email password fullName : string) (outcome : option string) :
  let login := Auth.handleSubmit true email password fullName outcome in
  let signup := Auth.handleSubmit false email password fullName outcome in
  head login = Some (signIn email password)
  ∧ (∀ a b c, signUp a b c ∉ login)
  ∧ (outcome = None → login = [signIn email password])
  ∧ (outcome = Some "Invalid login credentials" →
       login = [signIn email password;
                toast "Erro ao entrar" "Email ou senha incorretos"
                      (Some "destructive")])
  ∧ (trim fullName = "" →
       (∀ a b c, signUp a b c ∉ signup) ∧ (∀ a b, signIn a b ∉ signup)
       ∧ length signup = 1%nat)
  ∧ (trim fullName ≠ "" →
       head signup = Some (signUp email password fullName)
       ∧ (∀ a b, signIn a b ∉ signup) ∧ length signup = 2%nat)
  ∧ (∀ message, trim fullName ≠ "" → outcome = Some message →
       includes message "already registered" = true →
       signup = [signUp email password fullName;
                 toast "Erro ao cadastrar" "Este email já está cadastrado"
                       (Some "destructive")]).
Proof.
  cbv zeta. unfold Auth.handleSubmit.
  split; [by destruct outcome|].
  split.
  { intros a b c. destruct outcome; simpl;
      rewrite ?elem_of_cons, ?elem_of_nil; intros Hin;
      repeat destruct Hin as [Hin | Hin]; done. }
  split; [by intros ->|]. split; [by intros ->|].
  split.
  { intros Hblank. rewrite bool_decide_eq_true_2 by done.
    repeat split; try done; intros *;
      rewrite list_elem_of_singleton; done. }
  split.
  { intros Hname. rewrite bool_decide_eq_false_2 by done.
    destruct outcome; simpl; repeat split; try done;
      intros a b; rewrite !elem_of_cons, elem_of_nil;
      intros Hin; repeat destruct Hin as [Hin | Hin]; done. }
  intros message Hname -> Hinc. rewrite bool_decide_eq_false_2 by done.
  by rewrite Hinc.
Qed.

(** X4 with a name typed with spaces around it: the name goes to the
    service untrimmed. *)
Lemma auth_form_calls_witness :
  trim " Ana Souza " ≠ ""
  ∧ head (Auth.handleSubmit false "ana@clinic.example" "secret1"
            " Ana Souza " None)
    = Some (signUp "ana@clinic.example" "secret1" " Ana Souza ").
Proof.
  assert (trim " Ana Souza " ≠ "") as Hname by (vm_compute; discriminate).
  split; [exact Hname|].
  exact (proj1 (proj1 (proj2 (proj2 (proj2 (proj2 (proj2
           (auth_form_calls "ana@clinic.example" "secret1" " Ana Souza "
              None)))))) Hname)).
Defined.

(** ** Triggers and referential actions *)

(** X5: the [updated_at] trigger.  Every row an UPDATE rewrites comes out
    with [updated_at] set to the time of the statement, whatever the SET
    clause says about that column; the rows the statement does not reach
    are left as they were. *)
Theorem update_stamps_updated_at (k : clock) (who : caller) (t : string)
    (set : gmap string (option string)) (w : row → bool)
    (db db' : database) (rs : list row) :
  exec k who (Update t set w) db = Ok db' rs →
  let hit r := may_see who t UPDATE r && w r in
  (∀ r, r ∈ rs → r !! "updated_at" = Some (timestamp k))
  ∧ rs = (λ r, <["updated_at" := timestamp k]> (assign set r))
         <$> filter (λ r, hit r = true) (rows_of db t)
  ∧ rows_of db' t =
    (λ r, if hit r then <["updated_at" := timestamp k]> (assign set r) else r)
    <$> rows_of db t.
Proof.
  intros (Ht & -> & -> & _)%exec_update_Ok. cbv zeta.
  assert (∀ r, before_update t k (assign set r)
               = <["updated_at" := timestamp k]> (assign set r)) as Hb.
  { intros r. unfold before_update, update_updated_at_column.
    by rewrite bool_decide_eq_true_2. }
  assert ((λ r, if may_see who t UPDATE r && w r
                then before_update t k (assign set r) else r) <$>
          filter (λ r, (may_see who t UPDATE r && w r) = true) (rows_of db t)
          = (λ r, <["updated_at" := timestamp k]> (assign set r)) <$>
            filter (λ r, (may_see who t UPDATE r && w r) = true)
                   (rows_of db t)) as Hrs.
  { apply list_fmap_ext. intros i r Hr.
    apply list_elem_of_lookup_2, list_elem_of_filter in Hr as [-> _].
    apply Hb. }
  split; [|split].
  - rewrite Hrs. intros r (r0 & -> & _)%list_elem_of_fmap.
    apply lookup_insert_eq.
  - exact Hrs.
  - rewrite rows_of_set_rows. apply list_fmap_ext. intros i r _.
    by rewrite Hb.
Qed.

(** X5 on the sample data: Bruno renames his patient and tries to backdate
    the change. *)
Lemma update_stamps_updated_at_witness :
  ∃ db' r,
    exec Sample.later (Client (Some Sample.bruno))
      (Update "patients"
         {[ "full_name" := Some "Carla Dias";
            "updated_at" := Some "2000-01-01 00:00" ]} Sample.carla)
      Sample.shared_patient = Ok db' [r]
    ∧ r !! "full_name" = Some "Carla Dias"
    ∧ r !! "updated_at" = Some "2025-12-17 08:00".
Proof.
  eassert (exec Sample.later (Client (Some Sample.bruno))
             (Update "patients"
                {[ "full_name" := Some "Carla Dias";
                   "updated_at" := Some "2000-01-01 00:00" ]} Sample.carla)
             Sample.shared_patient = Ok _ [_]) as Hexec
    by (vm_compute; reflexivity).
  eexists _, _. split; [exact Hexec|]. split; [by vm_compute|].
  apply (proj1 (update_stamps_updated_at _ _ _ _ _ _ _ _ Hexec)). left.
Defined.

Lemma refers_to_spec c' c dead (r : row) :
  refers_to c' c dead r = true ↔
  ∃ v (d : row), r !! c' = Some v ∧ d ∈ dead ∧ d !! c = Some v.
Proof.
  unfold refers_to. destruct (r !! c') as [v|]; split.
  - intros (d & Hd & Hv)%bool_decide_eq_true%list_elem_of_omap. eauto.
  - intros (v' & d & [= <-] & Hd & Hv). apply bool_decide_eq_true.
    apply list_elem_of_omap. eauto.
  - done.
  - by intros (v & d & ? & _).
Qed.

(** X6: deleting patients takes their records along.  After a DELETE on
    [patients] the rows it returns are gone from the table, no record is
    left that refers to one of them, and the records that refer to other
    patients are all still there. *)
Theorem delete_patient_takes_records (k : clock) (who : caller)
    (w : row → bool) (db db' : database) (rs : list row) :
  exec k who (Delete "patients" w) db = Ok db' rs →
  rows_of db' "patients"
  = filter (λ r, (may_see who "patients" DELETE r && w r) = false)
           (rows_of db "patients")
  ∧ rows_of db' "patient_records"
    = filter (λ r, refers_to "patient_id" "id" rs r = false)
             (rows_of db "patient_records")
  ∧ (∀ d r p, d ∈ rs → d !! "id" = Some p →
       r ∈ rows_of db' "patient_records" → r !! "patient_id" ≠ Some p)
  ∧ (∀ r, r ∈ rows_of db "patient_records" →
       (∀ d, d ∈ rs → d !! "id" ≠ r !! "patient_id") →
       r ∈ rows_of db' "patient_records").
Proof.
  intros (_ & -> & ->)%exec_delete_Ok. cbv zeta.
  change (length schema) with 3. rewrite cascade_patients.
  set (dead := filter _ (rows_of db "patients")).
  assert (rows_of
            (set_rows "patients"
               (filter (λ r, (may_see who "patients" DELETE r && w r) = false)
                       (rows_of db "patients")) db) "patient_records"
          = rows_of db "patient_records") as Hrec
    by (by rewrite rows_of_set_rows_ne).
  split; [|split; [|split]].
  - rewrite rows_of_set_rows_ne by done. by rewrite rows_of_set_rows.
  - by rewrite rows_of_set_rows, Hrec.
  - intros d r p Hd Hid. rewrite rows_of_set_rows, Hrec.
    intros [Hno _]%list_elem_of_filter Hp.
    assert (refers_to "patient_id" "id" dead r = true) as Hyes
      by (apply refers_to_spec; eauto).
    congruence.
  - intros r Hr Hother. rewrite rows_of_set_rows, Hrec.
    apply list_elem_of_filter. split; [|done].
    apply not_true_is_false. intros (v & d & Hv & Hd & Hid)%refers_to_spec.
    apply (Hother d Hd). congruence.
Qed.

(** X6 on the sample data: Bruno deletes Carla, and the record about her
    is gone. *)
Lemma delete_patient_takes_records_witness :
  ∃ db' rs,
    exec Sample.later (Client (Some Sample.bruno))
      (Delete "patients" Sample.carla) Sample.shared_patient = Ok db' rs
    ∧ rows_of db' "patient_records"
      = filter (λ r, refers_to "patient_id" "id" rs r = false)
               (rows_of Sample.shared_patient "patient_records").
Proof.
  destruct (exec Sample.later (Client (Some Sample.bruno))
              (Delete "patients" Sample.carla) Sample.shared_patient)
    as [db' rs|e] eqn:Hexec; [|by vm_compute in Hexec].
  exists db', rs. split; [reflexivity|].
  exact (proj1 (proj2 (delete_patient_takes_records _ _ _ _ _ _ Hexec))).
Defined.

(** ** Callers without an identity *)

Lemma anonymous_sees_nothing t c r :
  t ∈ row_level_security → c ≠ INSERT →
  may_see (Client None) t c r = false.
Proof.
  intros Ht Hc. apply not_true_is_false. intros Hsee. simpl in Hsee.
  by destruct (visible_owner None t c r Ht Hc Hsee) as (u & ? & _).
Qed.

Lemma anonymous_writes_nothing t c r :
  t ∈ row_level_security → may_write (Client None) t c r = false.
Proof.
  intros Ht. apply not_true_is_false. intros Hw. simpl in Hw.
  by destruct (writable_owner None t c r Ht Hw) as (u & ? & _).
Qed.

Lemma filter_none {A} (P : A → Prop) `{∀ x, Decision (P x)} (l : list A) :
  (∀ x, x ∈ l → ¬ P x) → filter P l = [].
Proof.
  induction l as [|x l IH]; [done|]. intros Hl.
  rewrite filter_cons, decide_False by (apply Hl; left).
  apply IH. intros y Hy. apply Hl. by right.
Qed.

Lemma filter_all {A} (P : A → Prop) `{∀ x, Decision (P x)} (l : list A) :
  (∀ x, x ∈ l → P x) → filter P l = l.
Proof.
  induction l as [|x l IH]; [done|]. intros Hl.
  rewrite filter_cons, decide_True by (apply Hl; left).
  f_equal. apply IH. intros y Hy. apply Hl. by right.
Qed.

(** X7: a caller without an identity.  When the token carries no account,
    [auth.uid()] is NULL and no policy lets anything through: whatever
    statement such a caller gets an answer to, the answer holds no row and
    the accounts and every table are as they were; and the statement is not
    an INSERT, for no INSERT of such a caller is accepted. *)
Theorem anonymous_caller_gets_nothing (k : clock) (s : statement)
    (db db' : database) (rs : list row) :
  exec k (Client None) s db = Ok db' rs →
  rs = [] ∧ auth_users db' = auth_users db
  ∧ (∀ t, rows_of db' t = rows_of db t)
  ∧ ∀ t values, s ≠ Insert t values.
Proof.
  intros Hexec.
  destruct s as [t w | t values | t set w | t w].
  + apply exec_select_Ok in Hexec as (Ht & -> & ->).
    split; [|by repeat split]. apply filter_none. intros r _.
    by rewrite anonymous_sees_nothing.
  + apply exec_insert_Ok in Hexec as (tb & Htb & _ & _ & Hw & _).
    rewrite anonymous_writes_nothing in Hw; [done|].
    by eapply find_table_secured.
  + apply exec_update_Ok in Hexec as (Ht & -> & -> & _).
    assert (∀ r, (may_see (Client None) t UPDATE r && w r) = false) as Hno
      by (intros r; by rewrite anonymous_sees_nothing).
    split; [|split; [done|split; [|done]]].
    * rewrite filter_none; [done|]. intros r _. by rewrite Hno.
    * intros t'. destruct (decide (t = t')) as [<-|Hne];
        [|by rewrite rows_of_set_rows_ne].
      rewrite rows_of_set_rows. rewrite <- (list_fmap_id (rows_of db t)) at 2.
      apply list_fmap_ext. intros i r _. by rewrite Hno.
  + pose proof Hexec as (Ht & -> & _)%exec_delete_Ok.
    assert (∀ r, (may_see (Client None) t DELETE r && w r) = false) as Hno
      by (intros r; by rewrite anonymous_sees_nothing).
    assert (filter (λ r, (may_see (Client None) t DELETE r && w r) = true)
                   (rows_of db t) = []) as Hdead
      by (apply filter_none; intros r _; by rewrite Hno).
    split; [done|].
    split; [by apply exec_keeps_auth_users in Hexec|]. split; [|done].
    apply exec_delete_Ok in Hexec as (_ & _ & ->). rewrite Hdead.
    assert (filter (λ r, (may_see (Client None) t DELETE r && w r) = false)
                   (rows_of db t) = rows_of db t) as ->
      by (apply filter_all; intros r _; apply Hno).
    change (length schema) with 3. unfold row_level_security in Ht.
    intros t'.
    repeat (apply elem_of_cons in Ht as [-> | Ht]);
      try (by apply elem_of_nil in Ht);
      rewrite ?cascade_profiles, ?cascade_patients, ?cascade_patient_records.
    * destruct (decide ("profiles" = t')) as [<-|Hne];
        [apply rows_of_set_rows | by apply rows_of_set_rows_ne].
    * rewrite (filter_all (λ r, refers_to "patient_id" "id" [] r = false))
        by (intros r _; unfold refers_to; by destruct (r !! "patient_id")).
      destruct (decide ("patient_records" = t')) as [<-|Hne1].
      { rewrite rows_of_set_rows. by rewrite rows_of_set_rows_ne. }
      rewrite rows_of_set_rows_ne by done.
      destruct (decide ("patients" = t')) as [<-|Hne2];
        [apply rows_of_set_rows | by apply rows_of_set_rows_ne].
    * destruct (decide ("patient_records" = t')) as [<-|Hne];
        [apply rows_of_set_rows | by apply rows_of_set_rows_ne].
Qed.

(** X7 on a one-patient practice: a read without a token returns nothing. *)
Lemma anonymous_caller_gets_nothing_witness :
  ∃ db' rs,
    exec Sample.later (Client None) (Select "patients" (λ _, true))
      (Sample.practice_of Sample.bruno "33333333-cccc") = Ok db' rs
    ∧ rs = [].
Proof.
  eassert (exec Sample.later (Client None) (Select "patients" (λ _, true))
             (Sample.practice_of Sample.bruno "33333333-cccc") = Ok _ _)
    as Hexec by reflexivity.
  eexists _, _. split; [exact Hexec|].
  apply (anonymous_caller_gets_nothing _ _ _ _ _ Hexec).
Defined.

Ltac rows_of_set_rows :=
  repeat match goal with
  | |- context [rows_of (set_rows ?a ?rs ?d) ?b] =>
      first [ rewrite (rows_of_set_rows a rs d)
            | rewrite (rows_of_set_rows_ne a b rs d) by done ]
  end.

Lemma cascade_auth_users_rows n dead db :
  let db' := cascade (S (S n)) "auth.users" dead db in
  rows_of db' "patients"
  = filter (λ r, refers_to "psychologist_id" "id" dead r = false)
           (rows_of db "patients")
  ∧ rows_of db' "patient_records"
    = filter (λ r, refers_to "patient_id" "id"
                     (filter (λ p, refers_to "psychologist_id" "id" dead p
                                   = true)
                             (rows_of db "patients")) r = false)
        (filter (λ r, refers_to "psychologist_id" "id" dead r = false)
                (rows_of db "patient_records")).
Proof.
  cbv zeta. rewrite cascade_unfold, referencing_auth_users. cbn [foldr].
  rewrite cascade_profiles, cascade_patients, cascade_patient_records.
  split; rows_of_set_rows; reflexivity.
Qed.

(** X8: removing an account removes what it owned.  After an account is
    deleted from [auth.users], it is gone, and so are its profile, its
    patients and its records; every record that is left refers to a
    patient that is left, so the records other clinicians filed about its
    patients are gone too.  The profiles and the patients of the other
    accounts stay. *)
Theorem account_removal_cascades (id : uuid) (db db' : database)
    (rs : list row) :
  delete_auth_user id db = Ok db' rs →
  auth_users db' = filter (λ u, user_id u ≠ id) (auth_users db)
  ∧ (∀ r, r ∈ rows_of db' "profiles" →
       r ∈ rows_of db "profiles" ∧ r !! "id" ≠ Some id)
  ∧ (∀ r, r ∈ rows_of db' "patients" ↔
       r ∈ rows_of db "patients" ∧ r !! "psychologist_id" ≠ Some id)
  ∧ (∀ r, r ∈ rows_of db' "patient_records" →
       r ∈ rows_of db "patient_records"
       ∧ r !! "psychologist_id" ≠ Some id
       ∧ ∀ p, p ∈ rows_of db "patients" →
              p !! "psychologist_id" = Some id →
              is_Some (p !! "id") → p !! "id" ≠ r !! "patient_id")
  ∧ (∀ r, r ∈ rows_of db "profiles" → r !! "id" ≠ Some id →
       r ∈ rows_of db' "profiles").
Proof.
  intros Hdel. pose proof Hdel as [Husers Hprof]%delete_auth_user_Ok.
  unfold delete_auth_user in Hdel. apply commit_Ok in Hdel as (-> & _ & _).
  change (length schema) with 3.
  destruct (cascade_auth_users_rows 2 [{[ "id" := id ]}]
              (Database (filter (λ u, user_id u ≠ id) (auth_users db))
                        (public db))) as [Hpat Hrec].
  change (length schema) with 3 in Hprof, Husers.
  assert (∀ c (r : row),
            refers_to c "id" [{[ "id" := id ]}] r = false ↔ r !! c ≠ Some id)
    as Href.
  { intros c r. rewrite <- not_true_iff_false, refers_to_spec. split.
    - intros Hno Hc. apply Hno. exists id, {[ "id" := id ]}.
      split; [done|]. split; [left | apply lookup_singleton_eq].
    - intros Hc (v & d & Hv & ->%list_elem_of_singleton & Hd).
      rewrite lookup_singleton_eq in Hd. congruence. }
  split; [exact Husers|]. split; [|split; [|split]].
  - intros r. rewrite Hprof, list_elem_of_filter, Href. tauto.
  - intros r. rewrite Hpat, list_elem_of_filter, Href. tauto.
  - intros r. rewrite Hrec, !list_elem_of_filter, Href.
    intros (Hnoref & Hpsy & Hr). split; [done|]. split; [done|].
    intros p Hp Hown [x Hx] Heq.
    apply not_true_iff_false in Hnoref. apply Hnoref, refers_to_spec.
    exists x, p. split; [congruence|]. split; [|done].
    apply list_elem_of_filter. split; [|done].
    apply refers_to_spec. exists id, {[ "id" := id ]}.
    split; [done|]. split; [left | apply lookup_singleton_eq].
  - intros r Hr Hid. rewrite Hprof, list_elem_of_filter, Href. tauto.
Qed.

(** X8 on the sample data: Bruno's account is removed; his patient goes,
    and with her the record Ana filed about her. *)
Lemma account_removal_cascades_witness :
  ∃ db' rs,
    delete_auth_user Sample.bruno Sample.shared_patient = Ok db' rs
    ∧ (∀ r, r ∈ rows_of db' "patients" →
            r !! "psychologist_id" ≠ Some Sample.bruno)
    ∧ rows_of db' "patient_records" = [].
Proof.
  destruct (delete_auth_user Sample.bruno Sample.shared_patient)
    as [db' rs|e] eqn:Hdel; [|by vm_compute in Hdel].
  exists db', rs. split; [reflexivity|]. split.
  - intros r Hr.
    by apply (proj1 (proj2 (proj2 (account_removal_cascades _ _ _ _ Hdel)))).
  - vm_compute in Hdel. by injection Hdel as <- _.
Defined.

(** ** When an INSERT is accepted *)

Lemma column_values_insert t (r : row) db t0 c0 :
  column_values (set_rows t (rows_of db t ++ [r]) db) t0 c0
  = column_values db t0 c0
    ++ (if bool_decide (t0 = t ∧ t0 ≠ "auth.users")
        then omap (λ r : row, r !! c0) [r] else []).
Proof.
  unfold column_values.   case_bool_decide as Hauth.
  - rewrite (bool_decide_eq_false_2 (t0 = t ∧ t0 ≠ "auth.users")) by tauto. by rewrite app_nil_r.
  - destruct (decide (t0 = t)) as [->|Hne].
    + rewrite (bool_decide_eq_true_2 (t = t ∧ t ≠ "auth.users")) by done.
      by rewrite rows_of_set_rows, omap_app.
    + rewrite (bool_decide_eq_false_2 (t0 = t ∧ t0 ≠ "auth.users")) by tauto.
      by rewrite rows_of_set_rows_ne, app_nil_r.
Qed.

Lemma satisfies_mono db db' c (r : row) k :
  (∀ t0 c0 v, v ∈ column_values db t0 c0 → v ∈ column_values db' t0 c0) →
  satisfies db c r k = true → satisfies db' c r k = true.
Proof.
  intros Hmono. destruct k as [| |t0 c0| |vs]; simpl; try done.
  destruct (r !! c) as [v|]; [|done].
  rewrite !bool_decide_eq_true. apply Hmono.
Qed.

Lemma schema_find_table tb : tb ∈ schema → find_table (tbl_name tb) = Some tb.
Proof.
  unfold schema. intros Htb.
  repeat (apply elem_of_cons in Htb as [-> | Htb]);
    try (by apply elem_of_nil in Htb); reflexivity.
Qed.

Lemma schema_not_auth_users tb : tb ∈ schema → tbl_name tb ≠ "auth.users".
Proof.
  unfold schema. intros Htb.
  repeat (apply elem_of_cons in Htb as [-> | Htb]);
    try (by apply elem_of_nil in Htb); done.
Qed.

(** Appending a row keeps the database consistent when the row meets the
    constraints of its table and its key is new. *)
Lemma consistent_insert t tb (r : row) db :
  let db' := set_rows t (rows_of db t ++ [r]) db in
  find_table t = Some tb → consistent db = true →
  (∀ c k, c ∈ tbl_columns tb → k ∈ col_constraints c →
          satisfies db' (col_name c) r k = true) →
  (∀ c v, c ∈ tbl_columns tb → is_primary_key c = true →
          r !! col_name c = Some v → v ∉ column_values db t (col_name c)) →
  consistent db' = true.
Proof.
  intros db' Htb [Hnd Hall]%consistent_spec Hnew Hkey.
  assert (∀ t0 c0 v, v ∈ column_values db t0 c0 → v ∈ column_values db' t0 c0)
    as Hmono.
  { intros t0 c0 v Hv. unfold db'. rewrite column_values_insert.
    apply elem_of_app. by left. }
  apply consistent_spec. split; [exact Hnd|].
  intros tb' c Htb' Hc. destruct (Hall tb' c Htb' Hc) as [Hrows Hpk].
  pose proof (schema_find_table tb' Htb') as Hfind.
  pose proof (schema_not_auth_users tb' Htb') as Hna.
  split.
  - intros r' k Hr' Hk. unfold db' in Hr'.
    destruct (decide (t = tbl_name tb')) as [->|Hne].
    + rewrite rows_of_set_rows in Hr'.
      apply elem_of_app in Hr' as [Hr' | ->%list_elem_of_singleton].
      * eapply satisfies_mono; eauto.
      * assert (tb' = tb) as -> by congruence. by apply Hnew.
    + rewrite rows_of_set_rows_ne in Hr' by done.
      eapply satisfies_mono; eauto.
  - intros Hkeyc. unfold db'. rewrite column_values_insert.
    destruct (decide (tbl_name tb' = t)) as [<-|Hne].
    + rewrite bool_decide_eq_true_2 by done.
      assert (tb' = tb) as -> by congruence.
      apply NoDup_app. split; [by apply Hpk|]. simpl.
      destruct (r !! col_name c) as [v|] eqn:Hv; simpl.
      * split; [|apply NoDup_singleton].
        intros x Hx ->%list_elem_of_singleton. by eapply Hkey.
      * split; [by intros x _ ?%elem_of_nil | apply NoDup_nil_2].
    + rewrite bool_decide_eq_false_2 by tauto. rewrite app_nil_r.
      by apply Hpk.
Qed.

Lemma consistent_add_user db NEW :
  consistent db = true → user_id NEW ∉ user_id <$> auth_users db →
  consistent (Database (auth_users db ++ [NEW]) (public db)) = true.
Proof.
  intros [Hnd Hall]%consistent_spec Hnew.
  set (db' := Database (auth_users db ++ [NEW]) (public db)).
  assert (∀ t0 c0 v, v ∈ column_values db t0 c0 → v ∈ column_values db' t0 c0)
    as Hmono.
  { intros t0 c0 v. unfold column_values. simpl.
    repeat case_bool_decide; try done.
    rewrite fmap_app, elem_of_app. by left. }
  apply consistent_spec. split.
  - simpl. rewrite fmap_app. apply NoDup_app. split; [done|]. split.
    + intros x Hx ->%list_elem_of_singleton. done.
    + apply NoDup_singleton.
  - intros tb c Htb Hc. destruct (Hall tb c Htb Hc) as [Hrows Hpk]. split.
    + intros r k Hr Hk. eapply satisfies_mono; eauto.
    + intros Hkey. specialize (Hpk Hkey).
      pose proof (schema_not_auth_users tb Htb) as Hna.
      unfold column_values in *. by rewrite bool_decide_eq_false_2 in * by done.
Qed.

Lemma consistent_profile db (r : row) v :
  consistent db = true → r ∈ rows_of db "profiles" → r !! "id" = Some v →
  v ∈ user_id <$> auth_users db.
Proof.
  intros [_ Hall]%consistent_spec Hr Hv.
  assert (profiles ∈ schema) as Htb by (unfold schema; in_list).
  pose proof (proj1 (Hall profiles
                  (Col "id" UUID
                     [PRIMARY_KEY;
                      REFERENCES_ON_DELETE_CASCADE "auth.users" "id"])
                  Htb ltac:(unfold profiles; simpl; in_list))
                r (REFERENCES_ON_DELETE_CASCADE "auth.users" "id") Hr
                ltac:(simpl; in_list)) as Hfk.
  simpl in Hfk. rewrite Hv in Hfk. by apply bool_decide_eq_true in Hfk.
Qed.

(** X9: when signing up works.  In a consistent database, inserting an
    account whose id is not in use yet always works, and brings the profile
    with it; with an id that is in use the insert is refused as a whole,
    and neither an account nor a profile is added. *)
Theorem sign_up_succeeds (k : clock) (NEW : auth_user) (db : database) :
  consistent db = true →
  (user_id NEW ∉ user_id <$> auth_users db →
     ∃ db' r, insert_auth_user k NEW db = Ok db' [r]
              ∧ auth_users db' = auth_users db ++ [NEW]
              ∧ rows_of db' "profiles" = rows_of db "profiles" ++ [r]
              ∧ r !! "id" = Some (user_id NEW)
              ∧ r !! "created_at" = Some (timestamp k)
              ∧ r !! "updated_at" = Some (timestamp k)
              ∧ r !! "crp" = None ∧ r !! "phone" = None)
  ∧ (user_id NEW ∈ user_id <$> auth_users db →
     insert_auth_user k NEW db = Error constraint_violation).
Proof.
  intros Hc. split.
  - intros Hnew.
    set (db1 := Database (auth_users db ++ [NEW]) (public db)).
    set (values := ({[ "id" := Some (user_id NEW);
                       "full_name" :=
                         Some (COALESCE
                                 (arrow_text (raw_user_meta_data NEW)
                                             "full_name")
                                 "Psicólogo(a)") ]}
                    : gmap string (option string))).
    set (r := new_row k profiles values).
    pose proof profiles_columns_NoDup as Hnd.
    assert (∀ col, col ∈ tbl_columns profiles →
              r !! col_name col =
              match values !! col_name col with
              | Some v => v
              | None => eval_default k <$> column_default col
              end) as Hlook
      by (intros col Hcol; by apply new_row_lookup).
    assert (consistent (set_rows "profiles" (rows_of db1 "profiles" ++ [r]) db1)
            = true) as Hc'.
    { apply (consistent_insert "profiles" profiles r db1);
        [reflexivity | by apply consistent_add_user | |].
      - intros c kc Hcol Hk. pose proof (Hlook c Hcol) as Hr.
        unfold profiles in Hcol. simpl in Hcol.
        repeat (apply elem_of_cons in Hcol as [-> | Hcol]);
          try (by apply elem_of_nil in Hcol);
          simpl in Hk;
          repeat (apply elem_of_cons in Hk as [-> | Hk]);
          try (by apply elem_of_nil in Hk);
          simpl; simpl in Hr; rewrite ?Hr; try reflexivity.
        apply bool_decide_eq_true. unfold column_values. simpl.
        rewrite fmap_app, elem_of_app. right. left.
      - intros c v Hcol Hkey Hv. pose proof (Hlook c Hcol) as Hr.
        unfold profiles in Hcol. simpl in Hcol.
        repeat (apply elem_of_cons in Hcol as [-> | Hcol]);
          try (by apply elem_of_nil in Hcol); try discriminate.
        simpl in Hr, Hv. rewrite Hr in Hv. injection Hv as <-.
        unfold column_values. simpl.
        intros (r0 & Hr0 & Hid)%list_elem_of_omap.
        apply Hnew. by apply (consistent_profile db r0). }
    exists (set_rows "profiles" (rows_of db1 "profiles" ++ [r]) db1), r.
    split.
    { unfold insert_auth_user, handle_new_user, exec. fold db1 values.
      change (find_table "profiles") with (Some profiles). cbv iota beta.
      assert (known_columns profiles values = true) as -> by reflexivity.
      cbv zeta. fold r. simpl may_write. cbv iota.
      unfold commit. by rewrite Hc'. }
    split; [reflexivity|]. split; [apply rows_of_set_rows|].
    repeat split;
      match goal with
      | |- r !! ?c = _ =>
          let col := eval cbv in
            (list_find (λ col, col_name col = c) (tbl_columns profiles)) in
          match col with
          | Some (_, ?col) =>
              rewrite (Hlook col ltac:(unfold profiles; simpl; in_list));
              reflexivity
          end
      end.
  - intros Hused. unfold insert_auth_user, handle_new_user, exec.
    change (find_table "profiles") with (Some profiles). cbv iota beta.
    match goal with
    | |- context [known_columns profiles ?v] =>
        assert (known_columns profiles v = true) as -> by reflexivity
    end.
    cbv zeta. simpl may_write. cbv iota. unfold commit, consistent.
    rewrite bool_decide_eq_false_2; [done|].
    simpl. rewrite fmap_app. intros [_ [Hdis _]]%NoDup_app.
    apply (Hdis _ Hused). left.
Qed.

(** X9 on the sample data: a third clinician signs up. *)
Lemma sign_up_succeeds_witness :
  let NEW := AuthUser "88888888-1111" None in
  consistent Sample.shared_patient = true
  ∧ (user_id NEW ∉ user_id <$> auth_users Sample.shared_patient)
  ∧ ∃ db' r, insert_auth_user Sample.later NEW Sample.shared_patient
             = Ok db' [r]
             ∧ r !! "id" = Some "88888888-1111".
Proof.
  cbv zeta.
  assert (consistent Sample.shared_patient = true) as Hc by (by vm_compute).
  assert (user_id (AuthUser "88888888-1111" None)
          ∉ (user_id <$> auth_users Sample.shared_patient)) as Hnew.
  { apply (bool_decide_unpack _). by vm_compute. }
  split; [exact Hc|]. split; [exact Hnew|].
  destruct (proj1 (sign_up_succeeds Sample.later _ _ Hc) Hnew)
    as (db' & r & Hins & _ & _ & Hid & _).
  exists db', r. by split.
Defined.

(** ** The new-patient form, end to end *)

Lemma new_patient_row_generated `{StringMethods} k u f :
  let r := new_row k patients (NewPatient.new_patient u f) in
  r !! "id" = Some (random_uuid k)
  ∧ r !! "status" = Some (NewPatient.status f)
  ∧ r !! "created_at" = Some (timestamp k)
  ∧ r !! "updated_at" = Some (timestamp k).
Proof.
  pose proof patients_columns_NoDup as Hnd. cbv zeta.
  repeat split;
    match goal with
    | |- _ !! ?c = _ =>
        let col := eval cbv in
          (list_find (λ col, col_name col = c) (tbl_columns patients)) in
        match col with
        | Some (_, ?col) =>
            rewrite (new_row_lookup k patients _ col Hnd
                       ltac:(unfold patients; simpl; in_list));
            reflexivity
        end
    end.
Qed.

Lemma respond_insert_single k who t values db :
  respond k who (from t |> insert_ values |> select_ |> single_) db
  = match exec k who (Insert t values) db with
    | Error e => (db, failed (database_error e))
    | Ok db' rs => (db', shaped single rs None)
    end.
Proof. reflexivity. Qed.

Lemma exec_insert_accepted k who t tb values db :
  let r := new_row k tb values in
  let db' := set_rows t (rows_of db t ++ [r]) db in
  find_table t = Some tb → known_columns tb values = true →
  may_write who t INSERT r = true → consistent db' = true →
  exec k who (Insert t values) db = Ok db' [r].
Proof.
  intros r db' Htb Hknown Hw Hc. unfold exec. rewrite Htb, Hknown.
  cbv zeta. fold r. rewrite Hw. fold db'. unfold commit. by rewrite Hc.
Qed.

Lemma consistent_add_patient db (r : row) id u name status ca ua :
  consistent db = true →
  r !! "id" = Some id → id ∉ column_values db "patients" "id" →
  r !! "psychologist_id" = Some u → u ∈ user_id <$> auth_users db →
  r !! "full_name" = Some name →
  r !! "status" = Some status →
  status ∈ ["active"; "inactive"; "discharged"] →
  r !! "created_at" = Some ca → r !! "updated_at" = Some ua →
  consistent (set_rows "patients" (rows_of db "patients" ++ [r]) db) = true.
Proof.
  intros Hc Hid Hfresh Hpsy Hu Hfull Hst Hstatus Hca Hua.
  apply (consistent_insert "patients" patients r db); [reflexivity | done | |].
  - intros c kc Hcol Hk. unfold patients in Hcol. simpl in Hcol.
    repeat (apply elem_of_cons in Hcol as [-> | Hcol]);
      try (by apply elem_of_nil in Hcol);
      simpl in Hk;
      repeat (apply elem_of_cons in Hk as [-> | Hk]);
      try (by apply elem_of_nil in Hk);
      cbn [satisfies col_name];
      rewrite ?Hid, ?Hpsy, ?Hfull, ?Hst, ?Hca, ?Hua; try reflexivity.
    + by apply bool_decide_eq_true.
    + by apply bool_decide_eq_true.
  - intros c v Hcol Hkey Hv. unfold patients in Hcol. simpl in Hcol.
    repeat (apply elem_of_cons in Hcol as [-> | Hcol]);
      try (by apply elem_of_nil in Hcol); try discriminate.
    simpl in Hv. rewrite Hid in Hv. by injection Hv as <-.
Qed.

(** X10: a patient is stored.  Someone is signed in with account [u], the
    token is theirs, the name is not blank, the status is one of the three
    the form offers, the date of birth is empty or a date, the texts are
    ones the database can hold, and the id the database draws is not
    taken.  Then submitting the form stores exactly one new row of
    [patients], owned by [u], with the drawn id, the trimmed name, the
    status chosen, both timestamps at the time of the insert, and for
    every optional field the text typed, or NULL when it is empty; the
    page announces it and moves to the new patient. *)
Theorem new_patient_is_stored `{StringMethods}
    (k : clock) (u : uuid) (f : NewPatient.formData) (db : database) :
  consistent db = true →
  u ∈ user_id <$> auth_users db →
  random_uuid k ∉ column_values db "patients" "id" →
  trim (NewPatient.full_name f) ≠ "" →
  NewPatient.status f ∈ ["active"; "inactive"; "discharged"] →
  Typed.patient_form f →
  ∃ r : row,
    NewPatient.handleSubmit (respond k (Client (Some u))) (Some u) f db
    = (set_rows "patients" (rows_of db "patients" ++ [r]) db,
       [ sent (NewPatient.insert_patient u f); NewPatient.created;
         navigate ("/patients/" +:+ random_uuid k) ])
    ∧ r !! "id" = Some (random_uuid k)
    ∧ r !! "psychologist_id" = Some u
    ∧ r !! "full_name" = Some (trim (NewPatient.full_name f))
    ∧ r !! "status" = Some (NewPatient.status f)
    ∧ r !! "created_at" = Some (timestamp k)
    ∧ r !! "updated_at" = Some (timestamp k)
    ∧ ∀ c get, (c, get) ∈ NewPatient.optional_fields →
               (get f = "" → r !! c = None)
               ∧ (get f ≠ "" → r !! c = Some (get f)).
Proof.
  intros Hc Hu Hfresh Hname Hstatus _.
  destruct (new_patient_row k u f) as (Hfull & Hpsy & Hopt).
  destruct (new_patient_row_generated k u f) as (Hid & Hst & Hca & Hua).
  assert (known_columns patients (NewPatient.new_patient u f) = true)
    as Hknown by (by vm_compute).
  revert Hfull Hpsy Hopt Hid Hst Hca Hua.
  pose proof (exec_insert_accepted k (Client (Some u)) "patients" patients
                (NewPatient.new_patient u f) db) as Hexec.
  cbv zeta in Hexec. revert Hexec.
  generalize (new_row k patients (NewPatient.new_patient u f)).
  intros r Hexec Hfull Hpsy Hopt Hid Hst Hca Hua.
  exists r.
  split; [|split; [exact Hid|split; [exact Hpsy|split; [exact Hfull|
           split; [exact Hst|split; [exact Hca|split; [exact Hua|]]]]]]].
  - unfold NewPatient.handleSubmit. rewrite bool_decide_eq_false_2 by done.
    unfold NewPatient.insert_patient at 1. rewrite respond_insert_single.
    rewrite Hexec; [|reflexivity|exact Hknown| |].
    + cbn [shaped data error]. by rewrite Hid.
    + apply (owner_permitted u "patients" INSERT r); [by vm_compute|].
      rewrite owner_patients. exact Hpsy.
    + by apply (consistent_add_patient db r (random_uuid k) u
                  (trim (NewPatient.full_name f)) (NewPatient.status f)
                  (timestamp k) (timestamp k)).
  - intros c get Hin. rewrite (Hopt c get Hin). apply or_null_spec.
Qed.

(** X10 on the sample form: Ana registers Davi. *)
Lemma new_patient_is_stored_witness :
  ∃ r : row,
    NewPatient.handleSubmit
      (respond Sample.later (Client (Some Sample.ana))) (Some Sample.ana)
      Sample.form Sample.two_accounts
    = (set_rows "patients" (rows_of Sample.two_accounts "patients" ++ [r])
         Sample.two_accounts,
       [ sent (NewPatient.insert_patient Sample.ana Sample.form);
         NewPatient.created; navigate "/patients/55555555-eeee" ])
    ∧ r !! "full_name" = Some "Davi Lima" ∧ r !! "email" = None.
Proof.
  assert (consistent Sample.two_accounts = true) as Hc by (by vm_compute).
  assert (Sample.ana ∈ user_id <$> auth_users Sample.two_accounts) as Hu
    by (apply (bool_decide_unpack _); by vm_compute).
  assert (random_uuid Sample.later
          ∉ column_values Sample.two_accounts "patients" "id") as Hfresh
    by (apply (bool_decide_unpack _); by vm_compute).
  assert (trim (NewPatient.full_name Sample.form) ≠ "") as Hname
    by (vm_compute; discriminate).
  assert (NewPatient.status Sample.form
          ∈ ["active"; "inactive"; "discharged"]) as Hstatus by left.
  assert (Typed.patient_form Sample.form) as Hdate.
  { split; [by left|]. split; [reflexivity|]. intros c get Hin.
    unfold NewPatient.optional_fields in Hin.
    repeat (apply elem_of_cons in Hin as [Heq | Hin];
            [injection Heq as -> ->; reflexivity|]).
    apply elem_of_nil in Hin. contradiction. }
  destruct (new_patient_is_stored Sample.later Sample.ana Sample.form
              Sample.two_accounts Hc Hu Hfresh Hname Hstatus Hdate)
    as (r & Hout & _ & _ & Hfull & _ & _ & _ & Hopt).
  exists r. split; [exact Hout|]. split; [exact Hfull|].
  apply (Hopt "email" NewPatient.email); [left|reflexivity].
Defined.

(** X11: a patient is refused.  With a name that is not blank, the INSERT
    is sent and refused, the database stays as it was and the page shows
    the error message, whenever the token is not that of the account the
    page puts in [psychologist_id], the status is none of the three the
    table allows, or the account is not in [auth.users]. *)
Theorem new_patient_is_refused `{StringMethods}
    (k : clock) (uid : option uuid) (u : uuid) (f : NewPatient.formData)
    (db : database) :
  trim (NewPatient.full_name f) ≠ "" →
  uid ≠ Some u
  ∨ NewPatient.status f ∉ ["active"; "inactive"; "discharged"]
  ∨ u ∉ user_id <$> auth_users db →
  NewPatient.handleSubmit (respond k (Client uid)) (Some u) f db
  = (db, sent (NewPatient.insert_patient u f) :: NewPatient.not_created).
Proof.
  intros Hname Hbad.
  unfold NewPatient.handleSubmit. rewrite bool_decide_eq_false_2 by done.
  unfold NewPatient.insert_patient at 1. rewrite respond_insert_single.
  destruct (exec k (Client uid) (Insert "patients" _) db) as [db' rs|e]
    eqn:Hexec; [exfalso|done].
  apply exec_insert_Ok in Hexec as (tb & Htb & -> & -> & Hw & Hc').
  change (find_table "patients") with (Some patients) in Htb.
  injection Htb as <-.
  set (r := new_row k patients (NewPatient.new_patient u f)) in *.
  destruct (new_patient_row k u f) as (_ & Hpsy & _).
  destruct (new_patient_row_generated k u f) as (_ & Hst & _).
  fold r in Hpsy, Hst.
  assert (r ∈ rows_of (set_rows "patients" (rows_of db "patients" ++ [r]) db)
                      "patients") as Hr
    by (rewrite rows_of_set_rows; apply elem_of_app; right; left).
  destruct (consistent_patient _ r Hc' Hr) as (Hstatus & _ & _ & u' & Hu' & Hin).
  destruct Hbad as [Huid | [Hstat | Huser]].
  - apply Huid. rewrite <- Hpsy, <- owner_patients.
    symmetry. apply (may_write_owner uid "patients" INSERT r); [|done].
    unfold row_level_security. in_list.
  - apply Hstat. rewrite Hst in Hstatus.
    destruct Hstatus as [? | [[= ->] | [[= ->] | [= ->]]]]; [done|in_list..].
  - apply Huser. rewrite Hpsy in Hu'. by injection Hu' as <-.
Qed.

(** X11 on the sample form: Ana's page submits while the token is Bruno's. *)
Lemma new_patient_is_refused_witness :
  NewPatient.handleSubmit
    (respond Sample.later (Client (Some Sample.bruno))) (Some Sample.ana)
    Sample.form Sample.two_accounts
  = (Sample.two_accounts,
     sent (NewPatient.insert_patient Sample.ana Sample.form)
     :: NewPatient.not_created).
Proof.
  apply new_patient_is_refused.
  - vm_compute; discriminate.
  - left. discriminate.
Defined.

(** ** What the pages show under row security *)

Lemma respond_read_own k u q db ce ho :
  method q = select ce ho → clinical (table_ q) →
  respond k (Client (Some u)) q db
  = (db,
     let rs := filter (λ r, matches (filters q) r = true)
                      (owned_by u (table_ q) db) in
     let cnt := if ce then Some (length rs) else None in
     if ho then Response null cnt None
     else shaped (expect q) (limited (limit_ q) (sorted (ordering q) rs)) cnt).
Proof.
  intros Hm Ht. unfold respond, selected. rewrite Hm.
  rewrite exec_select_clinical by done. by destruct ho.
Qed.

Lemma matches_one c v (r : row) :
  matches [(c, v)] r = true ↔ r !! c = Some v.
Proof.
  unfold matches. simpl. by rewrite andb_true_r, bool_decide_eq_true.
Qed.

Lemma row_le_total c asc : Total (row_le c asc).
Proof.
  intros r1 r2. unfold row_le, key_le.
  destruct asc, (r1 !! c) as [x|], (r2 !! c) as [y|]; auto;
    destruct (String.leb_total x y); auto.
Qed.

(** X12: the dashboard counts the caller's own rows.  Run for account [u]
    under row security, the dashboard shows as total the number of [u]'s
    patients, as active the number of those with status active, as records
    the number of [u]'s records, and lists at most five of [u]'s patients,
    the first five in descending order of [created_at].  So the active
    count never exceeds the total, and nobody else's rows are counted or
    listed. *)
Theorem dashboard_counts_own_rows (k : clock) (u : uuid)
    (st : Dashboard.state) (db : database) :
  let out := Dashboard.fetchDashboardData (respond k (Client (Some u))) st db in
  let own := owned_by u "patients" db in
  out.1.1 = db
  ∧ Dashboard.loading out.1.2 = false
  ∧ Dashboard.totalPatients (Dashboard.stats out.1.2) = length own
  ∧ Dashboard.activePatients (Dashboard.stats out.1.2)
    = length (filter (λ r, r !! "status" = Some "active") own)
  ∧ Dashboard.totalRecords (Dashboard.stats out.1.2)
    = length (owned_by u "patient_records" db)
  ∧ (Dashboard.activePatients (Dashboard.stats out.1.2)
     ≤ Dashboard.totalPatients (Dashboard.stats out.1.2))%nat
  ∧ (∃ rs, rs ≡ₚ own ∧ Sorted (row_le "created_at" false) rs
           ∧ Dashboard.patients out.1.2 = take 5 rs)
  ∧ (length (Dashboard.patients out.1.2) ≤ 5)%nat
  ∧ (∀ r, r ∈ Dashboard.patients out.1.2 → r ∈ own).
Proof.
  cbv zeta. unfold Dashboard.fetchDashboardData.
  rewrite (respond_read_own k u Dashboard.recent_patients db false false)
    by (reflexivity || by left).
  cbn [error shaped limited sorted Dashboard.recent_patients from select_
       order limit method ordering limit_ expect filters table_ fst snd].
  rewrite (respond_read_own k u Dashboard.count_patients db true true)
    by (reflexivity || by left).
  rewrite (respond_read_own k u Dashboard.count_active_patients db true true)
    by (reflexivity || by left).
  rewrite (respond_read_own k u Dashboard.count_records db true true)
    by (reflexivity || by right).
  cbn [fst snd Dashboard.stats Dashboard.patients Dashboard.loading
       Dashboard.totalPatients Dashboard.activePatients
       Dashboard.totalRecords count data or_zero or_empty default
       Dashboard.count_patients Dashboard.count_active_patients
       Dashboard.count_records from select_count_head eq filters table_ app].
  assert (∀ l : list row, filter (λ r, matches [] r = true) l = l) as Hall
    by (intros l; by apply filter_all).
  assert (∀ l : list row,
            filter (λ r, matches [("status", "active")] r = true) l
            = filter (λ r, r !! "status" = Some "active") l) as Hact
    by (intros l; apply list_filter_iff; intros r; apply matches_one).
  rewrite !Hall, Hact.
  split; [done|]. split; [done|]. split; [done|]. split; [done|].
  split; [done|]. split; [apply length_filter|].
  split; [|split].
  - exists (merge_sort (row_le "created_at" false) (owned_by u "patients" db)).
    split; [apply merge_sort_Permutation|]. split; [|done].
    pose proof (row_le_total "created_at" false) as Htotal.
    apply (Sorted_merge_sort _).
  - rewrite length_take. lia.
  - intros r (i & Hi & _)%elem_of_take.
    apply list_elem_of_lookup_2 in Hi.
    by rewrite merge_sort_Permutation in Hi.
Qed.

(** X12 on a one-patient practice: Bruno's dashboard counts one patient. *)
Lemma dashboard_counts_own_rows_witness :
  Dashboard.totalPatients
    (Dashboard.stats
       (Dashboard.fetchDashboardData
          (respond Sample.later (Client (Some Sample.bruno)))
          Dashboard.initial
          (Sample.practice_of Sample.bruno "33333333-cccc")).1.2)
  = 1%nat.
Proof.
  pose proof (dashboard_counts_own_rows Sample.later Sample.bruno
                Dashboard.initial
                (Sample.practice_of Sample.bruno "33333333-cccc")) as H.
  cbv zeta in H. destruct H as (_ & _ & Htotal & _).
  rewrite Htotal. reflexivity.
Defined.

(** X13: the patient list is the caller's patients, in order.  Run for
    account [u] under row security, the list page ends up holding exactly
    [u]'s patients, each once, in ascending order of [full_name] as the
    database compares it, and shows those that match the search term. *)
Theorem patient_list_is_own_and_sorted `{StringMethods}
    (k : clock) (u : uuid) (st : Patients.state) (db : database) :
  let out := Patients.fetchPatients (respond k (Client (Some u))) st db in
  out.1.1 = db
  ∧ out.2 = [sent Patients.all_patients]
  ∧ Patients.loading out.1.2 = false
  ∧ Patients.searchTerm out.1.2 = Patients.searchTerm st
  ∧ (∃ rs, rs ≡ₚ owned_by u "patients" db
           ∧ Sorted (row_le "full_name" true) rs
           ∧ Patients.patients out.1.2 = Patients.as_Patient <$> rs)
  ∧ Patients.filteredPatients out.1.2
    = Patients.filtered (Patients.searchTerm st) (Patients.patients out.1.2).
Proof.
  cbv zeta. unfold Patients.fetchPatients.
  rewrite (respond_read_own k u Patients.all_patients db false false)
    by (reflexivity || by left).
  cbn [error shaped limited sorted Patients.all_patients from select_ order
       method ordering limit_ expect filters table_ fst snd data or_empty].
  rewrite (filter_all (λ r, matches [] r = true)) by done.
  repeat split; try done.
  exists (merge_sort (row_le "full_name" true) (owned_by u "patients" db)).
  split; [apply merge_sort_Permutation|]. split; [|done].
  pose proof (row_le_total "full_name" true) as Htotal.
  apply (Sorted_merge_sort _).
Qed.

(** X13 on a one-patient practice: Bruno's list page sends its one query. *)
Lemma patient_list_is_own_and_sorted_witness :
  (Patients.fetchPatients
     (respond Sample.later (Client (Some Sample.bruno))) Patients.initial
     (Sample.practice_of Sample.bruno "33333333-cccc")).2
  = [sent Patients.all_patients].
Proof.
  pose proof (patient_list_is_own_and_sorted Sample.later Sample.bruno
                Patients.initial
                (Sample.practice_of Sample.bruno "33333333-cccc")) as H.
  cbv zeta in H. destruct H as (_ & Hsent & _). exact Hsent.
Defined.

Lemma unique_by_key {A B} `{EqDecision B} (f : A → option B)
    (l : list A) x v :
  NoDup (omap f l) → x ∈ l → f x = Some v →
  filter (λ y, f y = Some v) l = [x].
Proof.
  induction l as [|y l IH]; [by intros _ ?%elem_of_nil|].
  intros Hnd Hx Hv. rewrite filter_cons.
  assert (∀ z, z ∈ l → f z = Some v → v ∈ omap f l) as Hin
    by (intros z Hz Hfz; apply list_elem_of_omap; eauto).
  simpl in Hnd. apply elem_of_cons in Hx as [<- | Hx].
  - rewrite Hv in Hnd. apply NoDup_cons in Hnd as [Hnot _].
    rewrite decide_True by done. f_equal.
    apply filter_none. intros z Hz Hfz. by apply Hnot, (Hin z).
  - destruct (f y) as [b|] eqn:Hy.
    + apply NoDup_cons in Hnd as [Hnot Hnd].
      rewrite decide_False; [by apply IH|].
      intros [= ->]. by apply Hnot, (Hin x).
    + rewrite decide_False by done. by apply IH.
Qed.

Lemma consistent_patient_ids db :
  consistent db = true → NoDup (column_values db "patients" "id").
Proof.
  intros [_ Hall]%consistent_spec.
  assert (patients ∈ schema) as Htb by (unfold schema; in_list).
  by apply (Hall patients (Col "id" UUID [PRIMARY_KEY; DEFAULT gen_random_uuid])
              Htb ltac:(unfold patients; simpl; in_list)).
Qed.

(** X14: the detail page of a patient that is not the caller's.  The
    address carries a uuid in the form the database prints, and none of
    [u]'s patients has it, be it the id of nobody's patient or of another
    clinician's.  Then, run for account [u] under row security, the page
    reads nothing into its state, shows no error, and goes back to the
    patient list.  (An address whose id is not a uuid is refused by the
    database, and one that spells a uuid otherwise is compared as the
    value it spells; neither is covered here.) *)
Theorem detail_page_of_foreign_patient_redirects (k : clock) (u : uuid)
    (id : string) (st : PatientDetail.state) (db : database) :
  Typed.is_uuid id = true →
  (∀ r, r ∈ owned_by u "patients" db → r !! "id" ≠ Some id) →
  PatientDetail.fetchPatientData (respond k (Client (Some u))) id st db
  = (db,
     PatientDetail.State (PatientDetail.patient st) (PatientDetail.records st)
       false (PatientDetail.isNewRecordOpen st) (PatientDetail.newRecord st),
     [ sent (PatientDetail.the_patient id);
       sent (PatientDetail.the_records id); navigate "/patients" ]).
Proof.
  intros _ Hnone. unfold PatientDetail.fetchPatientData.
  rewrite (respond_read_own k u (PatientDetail.the_patient id) db false false)
    by (reflexivity || by left).
  rewrite (respond_read_own k u (PatientDetail.the_records id) db false false)
    by (reflexivity || by right).
  cbn [PatientDetail.the_patient PatientDetail.the_records from select_ eq
       order maybeSingle_ method ordering limit_ expect filters table_ app
       limited sorted].
  rewrite (filter_none (λ r, matches [("id", id)] r = true))
    by (intros r Hr ?%matches_one; by apply (Hnone r)).
  reflexivity.
Qed.

(** X14 on a one-patient practice: Ana opens an address with the id of a
    patient that is not hers. *)
Lemma detail_page_of_foreign_patient_redirects_witness :
  let id := "9b2f6c1e-3d4a-4b5c-8d7e-0a1b2c3d4e5f" in
  (PatientDetail.fetchPatientData
     (respond Sample.later (Client (Some Sample.ana))) id
     (PatientDetail.initial "2025-12-17")
     (Sample.practice_of Sample.bruno id)).2
  = [ sent (PatientDetail.the_patient id);
      sent (PatientDetail.the_records id);
      navigate "/patients" ].
Proof.
  cbv zeta. rewrite detail_page_of_foreign_patient_redirects;
    [reflexivity | reflexivity |].
  intros r Hr. by apply elem_of_nil in Hr.
Defined.

Lemma fetchPatientData_own k u id st db (p : row) :
  NoDup (column_values db "patients" "id") →
  p ∈ owned_by u "patients" db → p !! "id" = Some id →
  PatientDetail.fetchPatientData (respond k (Client (Some u))) id st db
  = (db,
     PatientDetail.State (Some p)
       (merge_sort (row_le "session_date" false)
          (filter (λ r, r !! "patient_id" = Some id)
                  (owned_by u "patient_records" db)))
       false (PatientDetail.isNewRecordOpen st) (PatientDetail.newRecord st),
     [ sent (PatientDetail.the_patient id);
       sent (PatientDetail.the_records id) ]).
Proof.
  intros Hnd Hp Hid.
  assert (filter (λ r, matches [("id", id)] r = true)
                 (owned_by u "patients" db) = [p]) as Hone.
  { unfold owned_by in *. rewrite list_filter_filter.
    rewrite (list_filter_iff _ (λ r, owner "patients" r = Some u
                                     ∧ r !! "id" = Some id))
      by (intros r; rewrite matches_one; tauto).
    rewrite <- list_filter_filter.
    apply list_elem_of_filter in Hp as [Ho Hp].
    rewrite (unique_by_key (λ r : row, r !! "id") _ p id); [|done..].
    by rewrite filter_cons, decide_True. }
  unfold PatientDetail.fetchPatientData.
  rewrite (respond_read_own k u (PatientDetail.the_patient id) db false false)
    by (reflexivity || by left).
  rewrite (respond_read_own k u (PatientDetail.the_records id) db false false)
    by (reflexivity || by right).
  cbn [PatientDetail.the_patient PatientDetail.the_records from select_ eq
       order maybeSingle_ method ordering limit_ expect filters table_ app
       limited sorted].
  rewrite Hone.
  by rewrite (list_filter_iff (λ r, matches [("patient_id", id)] r = true)
                (λ r, r !! "patient_id" = Some id))
    by (intros r; apply matches_one).
Qed.

(** X15: the detail page of a patient of the caller.  In a consistent
    database, run for account [u] under row security with the id of one of
    [u]'s patients, the page shows that patient and exactly [u]'s records
    about them, in descending order of [session_date] as the database
    compares it, and sends nothing but its two reads. *)
Theorem detail_page_shows_own_patient (k : clock) (u : uuid) (id : string)
    (st : PatientDetail.state) (db : database) (p : row) :
  consistent db = true →
  p ∈ owned_by u "patients" db → p !! "id" = Some id →
  ∃ rs,
    rs ≡ₚ filter (λ r, r !! "patient_id" = Some id)
                 (owned_by u "patient_records" db)
    ∧ Sorted (row_le "session_date" false) rs
    ∧ PatientDetail.fetchPatientData (respond k (Client (Some u))) id st db
      = (db,
         PatientDetail.State (Some p) rs false
           (PatientDetail.isNewRecordOpen st) (PatientDetail.newRecord st),
         [ sent (PatientDetail.the_patient id);
           sent (PatientDetail.the_records id) ]).
Proof.
  intros Hc Hp Hid.
  exists (merge_sort (row_le "session_date" false)
            (filter (λ r, r !! "patient_id" = Some id)
                    (owned_by u "patient_records" db))).
  split; [|split].
  - apply merge_sort_Permutation.
  - pose proof (row_le_total "session_date" false) as Htotal.
    apply (Sorted_merge_sort _).
  - apply fetchPatientData_own; [|done..].
    unfold column_values. simpl.
    by apply consistent_patient_ids in Hc.
Qed.

(** X15 on a one-patient practice: Bruno opens his patient. *)
Lemma detail_page_shows_own_patient_witness :
  let db := Sample.practice_of Sample.bruno "33333333-cccc" in
  let p := Sample.patient_of Sample.bruno "33333333-cccc" in
  ∃ rs,
    rs ≡ₚ filter (λ r, r !! "patient_id" = Some "33333333-cccc")
                 (owned_by Sample.bruno "patient_records" db)
    ∧ PatientDetail.fetchPatientData
        (respond Sample.later (Client (Some Sample.bruno))) "33333333-cccc"
        (PatientDetail.initial "2025-12-17") db
      = (db,
         PatientDetail.State (Some p) rs false false
           (PatientDetail.blank "2025-12-17"),
         [ sent (PatientDetail.the_patient "33333333-cccc");
           sent (PatientDetail.the_records "33333333-cccc") ]).
Proof.
  cbv zeta.
  destruct (detail_page_shows_own_patient Sample.later Sample.bruno
              "33333333-cccc" (PatientDetail.initial "2025-12-17")
              (Sample.practice_of Sample.bruno "33333333-cccc")
              (Sample.patient_of Sample.bruno "33333333-cccc"))
    as (rs & Hperm & _ & Hrun).
  - apply practice_consistent.
  - apply list_elem_of_filter. split; [reflexivity|left].
  - reflexivity.
  - exists rs. split; [exact Hperm|exact Hrun].
Defined.

(** ** What the list page draws *)

Import PatientsView.

Lemma filter_nil_iff {A} (f : A → bool) (l : list A) :
  List.filter f l = [] ↔ ∀ x, x ∈ l → f x = false.
Proof.
  induction l as [|y l IH]; simpl.
  - split; [by intros _ x ?%elem_of_nil | done].
  - destruct (f y) eqn:Hy.
    + split; [done|]. intros Hall.
      rewrite (Hall y) in Hy by left. discriminate.
    + rewrite IH. split.
      * intros Hall x [-> | Hx]%elem_of_cons; auto.
      * intros Hall x Hx. apply Hall. by right.
Qed.

Lemma filtered_empty_term `{StringMethods} ps : Patients.filtered "" ps = ps.
Proof.
  unfold Patients.filtered. induction ps as [|p ps IH]; [done|]. simpl.
  unfold Patients.search_matches at 1.
  by rewrite toLowerCase_empty, includes_empty, IH.
Qed.

Lemma fetchPatients_own `{StringMethods} k u st db :
  (Patients.fetchPatients (respond k (Client (Some u))) st db).1.2
  = let got := Patients.as_Patient <$>
                 merge_sort (row_le "full_name" true)
                            (owned_by u "patients" db) in
    Patients.State got (Patients.filtered (Patients.searchTerm st) got)
                   (Patients.searchTerm st) false.
Proof.
  unfold Patients.fetchPatients.
  rewrite (respond_read_own k u Patients.all_patients db false false)
    by (reflexivity || by left).
  cbn [error shaped limited sorted Patients.all_patients from select_ order
       method ordering limit_ expect filters table_ fst snd data or_empty].
  by rewrite (filter_all (λ r, matches [] r = true)) by done.
Qed.

(** X16: what the list page draws once it has loaded.  Run for account [u]
    under row security, the page never stays on the spinner.  It invites
    to register a first patient exactly when the search box is empty and
    [u] has no patient; it says that nothing was found exactly when the
    search box is not empty and none of [u]'s patients matches the term;
    with an empty search box and at least one patient it draws a card for
    every patient it holds; and every card it draws is for one of [u]'s
    patients that the term finds. *)
Theorem list_page_views `{StringMethods} (k : clock) (u : uuid)
    (st : Patients.state) (db : database) :
  let out := (Patients.fetchPatients (respond k (Client (Some u))) st db).1.2 in
  let term := Patients.searchTerm st in
  let own := owned_by u "patients" db in
  render out ≠ spinner
  ∧ (render out = empty "Você ainda não tem pacientes cadastrados." true
     ↔ term = "" ∧ own = [])
  ∧ (render out = empty "Nenhum paciente encontrado com esse termo." false
     ↔ term ≠ ""
       ∧ ∀ r, r ∈ own →
              Patients.search_matches term (Patients.as_Patient r) = false)
  ∧ (term = "" → own ≠ [] → render out = cards (Patients.patients out))
  ∧ (∀ ps p, render out = cards ps → p ∈ ps →
       Patients.found term p
       ∧ ∃ r, r ∈ own ∧ p = Patients.as_Patient r).
Proof.
  cbv zeta. rewrite fetchPatients_own. cbv zeta.
  set (own := owned_by u "patients" db).
  set (srt := merge_sort (row_le "full_name" true) own).
  set (term := Patients.searchTerm st).
  assert (srt ≡ₚ own) as Hperm by apply merge_sort_Permutation.
  assert (srt = [] ↔ own = []) as Hnil.
  { split; intros Heq; rewrite Heq in Hperm.
    - by apply Permutation_nil_l in Hperm.
    - by apply Permutation_nil_r in Hperm. }
  assert (Patients.filtered term (Patients.as_Patient <$> srt) = [] ↔
          ∀ r, r ∈ own →
               Patients.search_matches term (Patients.as_Patient r) = false)
    as Hnone.
  { unfold Patients.filtered. rewrite filter_nil_iff. split.
    - intros Hall r Hr. apply Hall, list_elem_of_fmap_2. by rewrite Hperm.
    - intros Hall p (r & -> & Hr)%list_elem_of_fmap. apply Hall.
      by rewrite <- Hperm. }
  unfold render.
  cbn [Patients.loading Patients.filteredPatients Patients.searchTerm
       Patients.patients].
  split; [|split; [|split; [|split]]].
  - destruct (Patients.filtered term _); [case_bool_decide|]; done.
  - split.
    + destruct (Patients.filtered term _) eqn:Hf; [|done].
      case_bool_decide as Hterm; [|done]. intros _. split; [done|].
      apply Hnil. rewrite Hterm, filtered_empty_term in Hf.
      by apply fmap_nil_inv in Hf.
    + intros [Hterm Hown]. apply Hnil in Hown.
      rewrite Hown, Hterm. simpl.
      first [done | by rewrite bool_decide_eq_true_2].
  - split.
    + destruct (Patients.filtered term _) eqn:Hf; [|done].
      case_bool_decide as Hterm; [done|]. intros _. split; [done|].
      by apply Hnone.
    + intros [Hterm Hall]. apply Hnone in Hall. rewrite Hall.
      by rewrite bool_decide_eq_false_2.
  - intros Hterm Hown. rewrite Hterm, filtered_empty_term.
    destruct srt as [|r srt'] eqn:Hsrt; [|done].
    exfalso. by apply Hown, Hnil.
  - intros ps p Hcards Hp.
    assert (p ∈ Patients.filtered term (Patients.as_Patient <$> srt)) as Hin.
    { destruct (Patients.filtered term _); [by case_bool_decide|].
      by injection Hcards as ->. }
    unfold Patients.filtered in Hin.
    apply list_elem_of_In, filter_In in Hin as [Hin Hm].
    apply list_elem_of_In, list_elem_of_fmap in Hin as (r & -> & Hr).
    split; [by apply search_matches_found|].
    exists r. by rewrite <- Hperm.
Qed.

(** X16 on a one-patient practice: Ana, who has no patient, is invited to
    register one. *)
Lemma list_page_views_witness :
  render (Patients.fetchPatients
            (respond Sample.later (Client (Some Sample.ana)))
            Patients.initial
            (Sample.practice_of Sample.bruno "33333333-cccc")).1.2
  = empty "Você ainda não tem pacientes cadastrados." true.
Proof.
  pose proof (list_page_views Sample.later Sample.ana Patients.initial
                (Sample.practice_of Sample.bruno "33333333-cccc")) as H.
  cbv zeta in H. destruct H as (_ & Hfirst & _).
  apply Hfirst. split; reflexivity.
Defined.

(** ** Narrowing the search *)






(** ** From the form fields to the INSERT *)

(** X18: typing in the new-patient form.  Setting one field changes, in
    the object the page would insert, the member of that name and no
    other.  An optional field goes in as typed, or as null when it is
    emptied; the name goes in trimmed, the status as chosen.  The owner is
    the signed-in account whatever is typed, and a name that is none of
    the form's fields leaves the form as it was. *)
Theorem form_edit_reaches_payload `{StringMethods} (u : uuid)
    (field value : string) (f : NewPatient.formData) :
  let f' := Forms.handleChange field value f in
  (∀ c, c ≠ field →
        NewPatient.new_patient u f' !! c = NewPatient.new_patient u f !! c)
  ∧ (∀ get, (field, get) ∈ NewPatient.optional_fields →
       get f' = value
       ∧ (value = "" → NewPatient.new_patient u f' !! field = Some None)
       ∧ (value ≠ "" →
            NewPatient.new_patient u f' !! field = Some (Some value)))
  ∧ (field = "full_name" →
       NewPatient.new_patient u f' !! field = Some (Some (trim value)))
  ∧ (field = "status" →
       NewPatient.new_patient u f' !! field = Some (Some value))
  ∧ NewPatient.new_patient u f' !! "psychologist_id" = Some (Some u)
  ∧ (field ∉ "full_name" :: "status" :: NewPatient.optional_fields.*1 →
       f' = f).
Proof.
  cbv zeta. split; [|split; [|split; [|split; [|split]]]].
  - intros c Hc.
    destruct (decide (c ∈ "psychologist_id" :: "full_name" :: "status"
                          :: NewPatient.optional_fields.*1)) as [Hin|Hout].
    + simpl in Hin.
      repeat (apply elem_of_cons in Hin as [-> | Hin]);
        try (by apply elem_of_nil in Hin);
        unfold Forms.handleChange; cbv zeta beta;
        match goal with
        | |- _ !! ?k = _ =>
            rewrite ?(bool_decide_eq_false_2 (field = k)) by congruence
        end;
        reflexivity.
    + unfold NewPatient.new_patient.
      rewrite !lookup_insert_ne, !lookup_singleton_ne; [done|..];
        intros <-; apply Hout; simpl; in_list.
  - intros get Hin. unfold NewPatient.optional_fields in Hin.
    repeat (apply elem_of_cons in Hin as [Heq | Hin];
            [injection Heq as -> ->; split; [reflexivity|];
             match goal with
             | |- (_ → ?m !! ?c = _) ∧ _ =>
                 change (m !! c) with (Some (or_null value))
             end;
             split; intros Hv; f_equal; by apply or_null_spec|]).
    by apply elem_of_nil in Hin.
  - intros ->. reflexivity.
  - intros ->. reflexivity.
  - reflexivity.
  - intros Hout. simpl in Hout. unfold Forms.handleChange. cbv zeta beta.
    rewrite !bool_decide_eq_false_2; [by destruct f|..];
      intros ->; apply Hout; in_list.
Qed.

(** X18 on the sample form: the e-mail address is typed, then emptied. *)
Lemma form_edit_reaches_payload_witness :
  NewPatient.new_patient Sample.ana
    (Forms.handleChange "email" "davi@mail.example" Sample.form) !! "phone"
  = Some (Some "555-0101")
  ∧ NewPatient.new_patient Sample.ana
      (Forms.handleChange "email" "" Sample.form) !! "email"
    = Some None.
Proof.
  split.
  - rewrite (proj1 (form_edit_reaches_payload Sample.ana "email"
                      "davi@mail.example" Sample.form));
      [reflexivity|discriminate].
  - apply (proj1 (proj2 (form_edit_reaches_payload Sample.ana "email" ""
                           Sample.form)) NewPatient.email);
      [unfold NewPatient.optional_fields; in_list | reflexivity].
Defined.

(** X19: typing in the new-record form.  Setting one field changes, in
    the object the page would insert, the member of that name and no
    other.  The date and the type of the session go in as typed, also when
    emptied; the six text fields go in as typed, or as null when emptied.
    The patient and the owner are those of the page whatever is typed. *)
Theorem record_edit_reaches_payload (p : row) (u : uuid)
    (field value : string) (n : PatientDetail.NewRecord) :
  let n' := Forms.handleNewRecordChange field value n in
  let sent_as c := PatientDetail.new_record p u n' !! c in
  (∀ c, c ≠ field →
        sent_as c = PatientDetail.new_record p u n !! c)
  ∧ (field ∈ ["session_date"; "session_type"] →
       sent_as field = Some (Some value))
  ∧ (field ∈ ["main_complaint"; "session_notes"; "observations";
              "next_session_goals"; "mood_state"; "interventions"] →
       (value = "" → sent_as field = Some None)
       ∧ (value ≠ "" → sent_as field = Some (Some value)))
  ∧ sent_as "psychologist_id" = Some (Some u)
  ∧ sent_as "patient_id" = Some <$> p !! "id".
Proof.
  cbv zeta. unfold PatientDetail.new_record.
  split; [|split; [|split; [|split]]].
  - intros c Hc.
    assert (∀ m m' : gmap string (option string),
              m !! c = m' !! c →
              match p !! "id" with
              | Some pid => <["patient_id" := Some pid]> m
              | None => m
              end !! c
              = match p !! "id" with
                | Some pid => <["patient_id" := Some pid]> m'
                | None => m'
                end !! c) as Hframe.
    { intros m m' Hm. destruct (p !! "id") as [pid|]; [|done].
      destruct (decide (c = "patient_id")) as [->|Hne].
      - by rewrite !lookup_insert_eq.
      - by rewrite !lookup_insert_ne. }
    apply Hframe.
    destruct (decide (c ∈ ["psychologist_id"; "session_date"; "session_type";
                           "main_complaint"; "session_notes"; "observations";
                           "next_session_goals"; "mood_state";
                           "interventions"])) as [Hin|Hout].
    + repeat (apply elem_of_cons in Hin as [-> | Hin]);
        try (by apply elem_of_nil in Hin);
        unfold Forms.handleNewRecordChange; cbv zeta beta;
        match goal with
        | |- _ !! ?k = _ =>
            rewrite ?(bool_decide_eq_false_2 (field = k)) by congruence
        end;
        reflexivity.
    + rewrite !lookup_insert_ne, !lookup_singleton_ne; [done|..];
        intros <-; apply Hout; in_list.
  - intros Hin.
    repeat (apply elem_of_cons in Hin as [-> | Hin]);
      try (by apply elem_of_nil in Hin);
      destruct (p !! "id"); reflexivity.
  - intros Hin.
    repeat (apply elem_of_cons in Hin as [-> | Hin]);
      try (by apply elem_of_nil in Hin);
      match goal with
      | |- (_ → ?m !! ?c = _) ∧ _ =>
          assert (m !! c = Some (or_null value)) as ->
            by (destruct (p !! "id"); reflexivity)
      end;
      split; intros Hv; f_equal; by apply or_null_spec.
  - destruct (p !! "id"); reflexivity.
  - destruct (p !! "id"); reflexivity.
Qed.

(** X19 on a blank form: the notes are typed; the session type stays. *)
Lemma record_edit_reaches_payload_witness :
  PatientDetail.new_record
    (Sample.patient_of Sample.bruno "33333333-cccc") Sample.bruno
    (Forms.handleNewRecordChange "session_notes" "first session"
       (PatientDetail.blank "2025-12-17")) !! "session_type"
  = Some (Some "individual").
Proof.
  pose proof (record_edit_reaches_payload
                (Sample.patient_of Sample.bruno "33333333-cccc") Sample.bruno
                "session_notes" "first session"
                (PatientDetail.blank "2025-12-17")) as H.
  cbv zeta in H. destruct H as (Hframe & _).
  rewrite Hframe; [reflexivity|discriminate].
Defined.

(** ** The new-record form, end to end *)

Lemma patient_records_columns_NoDup :
  NoDup (col_name <$> tbl_columns patient_records).
Proof. apply (bool_decide_unpack _). vm_compute. exact I. Qed.

Lemma new_record_row k (p : row) u n :
  let r := new_row k patient_records (PatientDetail.new_record p u n) in
  r !! "id" = Some (random_uuid k)
  ∧ r !! "patient_id" = p !! "id"
  ∧ r !! "psychologist_id" = Some u
  ∧ r !! "session_date" = Some (PatientDetail.session_date n)
  ∧ r !! "session_type" = Some (PatientDetail.session_type n)
  ∧ r !! "session_notes" = or_null (PatientDetail.session_notes n)
  ∧ r !! "created_at" = Some (timestamp k)
  ∧ r !! "updated_at" = Some (timestamp k).
Proof.
  pose proof patient_records_columns_NoDup as Hnd. cbv zeta.
  repeat split;
    match goal with
    | |- _ !! ?c = _ =>
        let col := eval cbv in
          (list_find (λ col, col_name col = c) (tbl_columns patient_records)) in
        match col with
        | Some (_, ?col) =>
            rewrite (new_row_lookup k patient_records _ col Hnd
                       ltac:(unfold patient_records; simpl; in_list));
            unfold PatientDetail.new_record;
            destruct (p !! "id"); reflexivity
        end
    end.
Qed.

Lemma new_record_known (p : row) u n :
  known_columns patient_records (PatientDetail.new_record p u n) = true.
Proof.
  unfold PatientDetail.new_record. destruct (p !! "id"); by vm_compute.
Qed.

Lemma consistent_add_record db (r : row) id pid u date type ca ua :
  consistent db = true →
  r !! "id" = Some id → id ∉ column_values db "patient_records" "id" →
  r !! "patient_id" = Some pid → pid ∈ column_values db "patients" "id" →
  r !! "psychologist_id" = Some u → u ∈ user_id <$> auth_users db →
  r !! "session_date" = Some date →
  r !! "session_type" = Some type →
  type ∈ ["individual"; "couple"; "family"; "group"] →
  r !! "created_at" = Some ca → r !! "updated_at" = Some ua →
  consistent (set_rows "patient_records"
                (rows_of db "patient_records" ++ [r]) db) = true.
Proof.
  intros Hc Hid Hfresh Hpid Hpatient Hpsy Hu Hdate Htype Hin Hca Hua.
  apply (consistent_insert "patient_records" patient_records r db);
    [reflexivity | done | |].
  - intros c kc Hcol Hk. unfold patient_records in Hcol. simpl in Hcol.
    repeat (apply elem_of_cons in Hcol as [-> | Hcol]);
      try (by apply elem_of_nil in Hcol);
      simpl in Hk;
      repeat (apply elem_of_cons in Hk as [-> | Hk]);
      try (by apply elem_of_nil in Hk);
      cbn [satisfies col_name];
      rewrite ?Hid, ?Hpid, ?Hpsy, ?Hdate, ?Htype, ?Hca, ?Hua;
      try reflexivity;
      apply bool_decide_eq_true;
      first [ done | rewrite column_values_insert; apply elem_of_app; by left ].
  - intros c v Hcol Hkey Hv. unfold patient_records in Hcol. simpl in Hcol.
    repeat (apply elem_of_cons in Hcol as [-> | Hcol]);
      try (by apply elem_of_nil in Hcol); try discriminate.
    simpl in Hv. rewrite Hid in Hv. by injection Hv as <-.
Qed.

Lemma respond_insert_plain k who t values db :
  respond k who (from t |> insert_ values) db
  = match exec k who (Insert t values) db with
    | Error e => (db, failed (database_error e))
    | Ok db' rs => (db', Response null None None)
    end.
Proof. reflexivity. Qed.

(** Saving the new-record form for a patient of the signed-in account. *)
Lemma handleCreateRecord_stores (k : clock) (u : uuid) (id today : string)
    (st : PatientDetail.state) (db : database) (p : row) :
  let n := PatientDetail.newRecord st in
  consistent db = true →
  PatientDetail.patient st = Some p →
  p ∈ owned_by u "patients" db → p !! "id" = Some id →
  PatientDetail.session_type n ∈ ["individual"; "couple"; "family"; "group"] →
  random_uuid k ∉ column_values db "patient_records" "id" →
  ∃ (r : row) (rs : list row),
    PatientDetail.handleCreateRecord (respond k (Client (Some u))) (Some u)
      id today st db
    = (set_rows "patient_records" (rows_of db "patient_records" ++ [r]) db,
       PatientDetail.State (Some p) rs false false (PatientDetail.blank today),
       [ sent (PatientDetail.insert_record p u n);
         PatientDetail.record_created;
         sent (PatientDetail.the_patient id);
         sent (PatientDetail.the_records id) ])
    ∧ r ∈ rs
    ∧ rs ≡ₚ filter (λ r', r' !! "patient_id" = Some id)
                   (owned_by u "patient_records" db) ++ [r]
    ∧ Sorted (row_le "session_date" false) rs
    ∧ r !! "id" = Some (random_uuid k)
    ∧ r !! "patient_id" = Some id
    ∧ r !! "psychologist_id" = Some u
    ∧ r !! "session_date" = Some (PatientDetail.session_date n)
    ∧ r !! "session_type" = Some (PatientDetail.session_type n)
    ∧ r !! "session_notes" = or_null (PatientDetail.session_notes n).
Proof.
  intros n Hc Hpatient Hp Hid Htype Hfresh.
  destruct (new_record_row k p u n)
    as (Hrid & Hrpid & Hrpsy & Hrdate & Hrtype & Hrnotes & Hrca & Hrua).
  rewrite Hid in Hrpid.
  pose proof (exec_insert_accepted k (Client (Some u)) "patient_records"
                patient_records (PatientDetail.new_record p u n) db) as Hexec.
  cbv zeta in Hexec.
  revert Hrid Hrpid Hrpsy Hrdate Hrtype Hrnotes Hrca Hrua Hexec.
  generalize (new_row k patient_records (PatientDetail.new_record p u n)).
  intros r Hrid Hrpid Hrpsy Hrdate Hrtype Hrnotes Hrca Hrua Hexec.
  set (db1 := set_rows "patient_records"
                (rows_of db "patient_records" ++ [r]) db) in *.
  pose proof Hp as [Howner Hrow]%list_elem_of_filter.
  destruct (consistent_patient db p Hc Hrow) as (_ & _ & _ & u' & Hu' & Hu).
  rewrite owner_patients, Hu' in Howner. injection Howner as ->.
  assert (consistent db1 = true) as Hc1.
  { apply (consistent_add_record db r (random_uuid k) id u
             (PatientDetail.session_date n) (PatientDetail.session_type n)
             (timestamp k) (timestamp k)); try done.
    unfold column_values. simpl. apply list_elem_of_omap. eauto. }
  assert (exec k (Client (Some u))
            (Insert "patient_records" (PatientDetail.new_record p u n)) db
          = Ok db1 [r]) as Hok.
  { apply Hexec; [reflexivity | apply new_record_known | | done].
    apply (owner_permitted u "patient_records" INSERT r); [by vm_compute|].
    by rewrite owner_patient_records. }
  clear Hexec.
  assert (owned_by u "patient_records" db1
          = owned_by u "patient_records" db ++ [r]) as Hown.
  { unfold db1. rewrite owned_by_set_rows, filter_app. unfold owned_by.
    f_equal. rewrite filter_cons, decide_True; [done|].
    by rewrite owner_patient_records. }
  set (rs := merge_sort (row_le "session_date" false)
               (filter (λ r', r' !! "patient_id" = Some id)
                       (owned_by u "patient_records" db1))).
  assert (rs ≡ₚ filter (λ r', r' !! "patient_id" = Some id)
                       (owned_by u "patient_records" db) ++ [r]) as Hperm.
  { unfold rs. rewrite merge_sort_Permutation, Hown, filter_app.
    by rewrite (filter_cons _ r), decide_True. }
  exists r, rs. split; [|split; [|split; [done|split; [|done]]]].
  - unfold PatientDetail.handleCreateRecord. rewrite Hpatient.
    unfold PatientDetail.insert_record at 1. rewrite respond_insert_plain.
    fold n. rewrite Hok. cbn [error].
    rewrite (fetchPatientData_own k u id _ db1 p);
      [reflexivity | by apply consistent_patient_ids | | done].
    unfold db1. by rewrite owned_by_set_rows_ne.
  - rewrite Hperm. apply elem_of_app. right. left.
  - pose proof (row_le_total "session_date" false) as Htotal.
    apply (Sorted_merge_sort _).
Qed.

(** X20: a session record is not stored.  Without a signed-in account or
    without a patient on the page, saving does nothing at all.  Otherwise
    the INSERT is sent, and whenever the token is not that of the
    signed-in account, the session type is none of the four the table
    allows, or the patient on the page has no id or one, in the form the
    database prints, that is not or no longer in the table, the database
    refuses it and stays as it was; the page reports the failure and keeps
    its state, the dialog and what was typed included. *)
Theorem record_is_refused (k : clock) (uid user : option uuid)
    (id today : string) (st : PatientDetail.state) (db : database) :
  (∀ request, user = None ∨ PatientDetail.patient st = None →
     PatientDetail.handleCreateRecord request user id today st db
     = (db, st, []))
  ∧ (∀ u p, user = Some u → PatientDetail.patient st = Some p →
       uid ≠ Some u
       ∨ PatientDetail.session_type (PatientDetail.newRecord st)
           ∉ ["individual"; "couple"; "family"; "group"]
       ∨ (∀ pid, p !! "id" = Some pid →
                 Typed.is_uuid pid = true
                 ∧ pid ∉ column_values db "patients" "id") →
       PatientDetail.handleCreateRecord (respond k (Client uid)) user id
         today st db
       = (db, st,
          sent (PatientDetail.insert_record p u (PatientDetail.newRecord st))
          :: PatientDetail.record_not_created)).
Proof.
  split.
  - intros request [-> | Hnone]; unfold PatientDetail.handleCreateRecord.
    + reflexivity.
    + rewrite Hnone. by destruct user.
  - intros u p -> Hpatient Hbad.
    unfold PatientDetail.handleCreateRecord. rewrite Hpatient.
    unfold PatientDetail.insert_record at 1. rewrite respond_insert_plain.
    destruct (exec k (Client uid) (Insert "patient_records" _) db)
      as [db' rs|e] eqn:Hexec; [exfalso|done].
    apply exec_insert_Ok in Hexec as (tb & Htb & -> & -> & Hw & Hc').
    change (find_table "patient_records") with (Some patient_records) in Htb.
    injection Htb as <-.
    destruct (new_record_row k p u (PatientDetail.newRecord st))
      as (_ & Hpid & Hpsy & _ & Htype & _).
    revert Hw Hc' Hpid Hpsy Htype.
    generalize (new_row k patient_records
                  (PatientDetail.new_record p u (PatientDetail.newRecord st))).
    intros r Hw Hc' Hpid Hpsy Htype.
    assert (r ∈ rows_of (set_rows "patient_records"
                           (rows_of db "patient_records" ++ [r]) db)
                        "patient_records") as Hr
      by (rewrite rows_of_set_rows; apply elem_of_app; right; left).
    destruct (consistent_record _ r Hc' Hr) as (Hcheck & pid & Hpid' & Hin).
    destruct Hbad as [Huid | [Hty | Hgone]].
    + apply Huid. rewrite <- Hpsy, <- owner_patient_records.
      symmetry. apply (may_write_owner uid "patient_records" INSERT r); [|done].
      unfold row_level_security. in_list.
    + apply Hty. rewrite Htype in Hcheck.
      destruct Hcheck as [? | [[= ->] | [[= ->] | [[= ->] | [= ->]]]]];
        [done|in_list..].
    + rewrite Hpid in Hpid'. apply (proj2 (Hgone pid Hpid')).
      rewrite column_values_insert in Hin.
      rewrite bool_decide_eq_false_2 in Hin by (by intros [? _]).
      by rewrite app_nil_r in Hin.
Qed.

(** X20 on a one-patient practice: Bruno's page saves while the token is
    Ana's. *)
Lemma record_is_refused_witness :
  let db := Sample.practice_of Sample.bruno "33333333-cccc" in
  let p := Sample.patient_of Sample.bruno "33333333-cccc" in
  let st := PatientDetail.State (Some p) [] false true
              (PatientDetail.blank "2025-12-17") in
  PatientDetail.handleCreateRecord
    (respond Sample.later (Client (Some Sample.ana))) (Some Sample.bruno)
    "33333333-cccc" "2025-12-17" st db
  = (db, st,
     sent (PatientDetail.insert_record p Sample.bruno
             (PatientDetail.blank "2025-12-17"))
     :: PatientDetail.record_not_created).
Proof.
  cbv zeta.
  apply (proj2 (record_is_refused Sample.later (Some Sample.ana)
                  (Some Sample.bruno) "33333333-cccc" "2025-12-17"
                  (PatientDetail.State
                     (Some (Sample.patient_of Sample.bruno "33333333-cccc"))
                     [] false true (PatientDetail.blank "2025-12-17"))
                  (Sample.practice_of Sample.bruno "33333333-cccc"))
           Sample.bruno (Sample.patient_of Sample.bruno "33333333-cccc")
           eq_refl eq_refl).
  left. discriminate.
Defined.

(** * What the pages do with the database *)

(** ** Reads rest on row security *)





(** ** Creating and reading patients *)

Lemma insert_patient_accepted `{StringMethods} k u f db :
  consistent db = true → u ∈ user_id <$> auth_users db →
  random_uuid k ∉ column_values db "patients" "id" →
  NewPatient.status f ∈ ["active"; "inactive"; "discharged"] →
  let r := new_row k patients (NewPatient.new_patient u f) in
  let db' := set_rows "patients" (rows_of db "patients" ++ [r]) db in
  exec k (Client (Some u)) (Insert "patients" (NewPatient.new_patient u f)) db
  = Ok db' [r]
  ∧ consistent db' = true.
Proof.
  intros Hc Hu Hfresh Hstatus.
  destruct (new_patient_row k u f) as (Hfull & Hpsy & _).
  destruct (new_patient_row_generated k u f) as (Hid & Hst & Hca & Hua).
  assert (known_columns patients (NewPatient.new_patient u f) = true)
    as Hknown by (by vm_compute).
  pose proof (exec_insert_accepted k (Client (Some u)) "patients" patients
                (NewPatient.new_patient u f) db) as Hexec.
  cbv zeta in *. revert Hfull Hpsy Hid Hst Hca Hua Hexec.
  generalize (new_row k patients (NewPatient.new_patient u f)).
  intros r Hfull Hpsy Hid Hst Hca Hua Hexec.
  assert (consistent (set_rows "patients" (rows_of db "patients" ++ [r]) db)
          = true) as Hc'
    by (by apply (consistent_add_patient db r (random_uuid k) u
                    (trim (NewPatient.full_name f)) (NewPatient.status f)
                    (timestamp k) (timestamp k))).
  split; [|exact Hc'].
  apply Hexec; [reflexivity | exact Hknown | | exact Hc'].
  apply (owner_permitted u "patients" INSERT r); [by vm_compute|].
  rewrite owner_patients. exact Hpsy.
Qed.

(** C5, as the code has it.  An authenticated psychologist can create a
    patient: with a name that is not blank, a status the form offers, a
    date of birth that is empty or a date and texts the database can
    hold, submitting the new-patient form stores one new row of
    [patients] under their account, with what was typed, and moves to its
    page; the list page then has the new patient, and the detail page
    under the new id shows it.  They can read their
    patients: the list page holds exactly their patients, each once, and
    the detail page under the id of one of their patients shows that
    patient.  No page sends an UPDATE or a DELETE on [patients], although
    the policies would let the owner of a patient do all four. *)
Theorem patients_created_and_read `{StringMethods} :
  (∀ (k : clock) (u : uuid) (f : NewPatient.formData) (db : database),
     consistent db = true →
     u ∈ user_id <$> auth_users db →
     random_uuid k ∉ column_values db "patients" "id" →
     trim (NewPatient.full_name f) ≠ "" →
     NewPatient.status f ∈ ["active"; "inactive"; "discharged"] →
     Typed.patient_form f →
     ∃ r : row,
       let db' := set_rows "patients" (rows_of db "patients" ++ [r]) db in
       NewPatient.handleSubmit (respond k (Client (Some u))) (Some u) f db
       = (db',
          [ sent (NewPatient.insert_patient u f); NewPatient.created;
            navigate ("/patients/" +:+ random_uuid k) ])
       ∧ r !! "id" = Some (random_uuid k)
       ∧ r !! "psychologist_id" = Some u
       ∧ r !! "full_name" = Some (trim (NewPatient.full_name f))
       ∧ r !! "status" = Some (NewPatient.status f)
       ∧ (∀ c get, (c, get) ∈ NewPatient.optional_fields →
                   (get f = "" → r !! c = None)
                   ∧ (get f ≠ "" → r !! c = Some (get f)))
       ∧ (∀ k' st,
            ∃ shown,
              shown ∈ Patients.patients
                        (Patients.fetchPatients (respond k' (Client (Some u)))
                           st db').1.2
              ∧ Patients.id shown = random_uuid k
              ∧ Patients.full_name shown = trim (NewPatient.full_name f)
              ∧ Patients.status shown = NewPatient.status f)
       ∧ (∀ k' st,
            PatientDetail.patient
              (PatientDetail.fetchPatientData (respond k' (Client (Some u)))
                 (random_uuid k) st db').1.2
            = Some r))
  ∧ (∀ (k : clock) (u : uuid) (st : Patients.state) (db : database),
       ∃ rs, rs ≡ₚ owned_by u "patients" db
             ∧ Patients.patients
                 (Patients.fetchPatients (respond k (Client (Some u))) st
                    db).1.2
               = Patients.as_Patient <$> rs)
  ∧ (∀ (k : clock) (u : uuid) (id : string) (st : PatientDetail.state)
       (db : database) (p : row),
       consistent db = true →
       p ∈ owned_by u "patients" db → p !! "id" = Some id →
       PatientDetail.patient
         (PatientDetail.fetchPatientData (respond k (Client (Some u))) id st
            db).1.2
       = Some p)
  ∧ ¬ offered "patients" UPDATE ∧ ¬ offered "patients" DELETE
  ∧ (∀ c u r, owner "patients" r = Some u →
       permitted (Some u) "patients" c r = true).
Proof.
  split; [|split; [|split; [|split; [|split]]]].
  - intros k u f db Hc Hu Hfresh Hname Hstatus _.
    destruct (insert_patient_accepted k u f db Hc Hu Hfresh Hstatus)
      as [Hexec Hc'].
    destruct (new_patient_row k u f) as (Hfull & Hpsy & Hopt).
    destruct (new_patient_row_generated k u f) as (Hid & Hst & _).
    cbv zeta in *. revert Hexec Hc' Hfull Hpsy Hopt Hid Hst.
    generalize (new_row k patients (NewPatient.new_patient u f)).
    intros r Hexec Hc' Hfull Hpsy Hopt Hid Hst.
    set (db' := set_rows "patients" (rows_of db "patients" ++ [r]) db) in *.
    assert (r ∈ owned_by u "patients" db') as Hown.
    { unfold db'. rewrite owned_by_set_rows. apply list_elem_of_filter.
      split; [by rewrite owner_patients|]. apply elem_of_app. right. left. }
    exists r. cbv zeta. fold db'.
    split; [|split; [exact Hid|split; [exact Hpsy|split; [exact Hfull|
             split; [exact Hst|split; [|split]]]]]].
    + unfold NewPatient.handleSubmit. rewrite bool_decide_eq_false_2 by done.
      unfold NewPatient.insert_patient at 1. rewrite respond_insert_single.
      rewrite Hexec. cbn [shaped data error]. by rewrite Hid.
    + intros c get Hin. rewrite (Hopt c get Hin). apply or_null_spec.
    + intros k' st. exists (Patients.as_Patient r).
      split; [|unfold Patients.as_Patient;
               cbn [Patients.id Patients.full_name Patients.status];
               rewrite Hid, Hfull, Hst; by repeat split].
      rewrite fetchPatients_own. cbn [Patients.patients].
      apply list_elem_of_fmap_2. by rewrite merge_sort_Permutation.
    + intros k' st.
      rewrite (fetchPatientData_own k' u (random_uuid k) st db' r);
        [reflexivity | by apply consistent_patient_ids | exact Hown
        | exact Hid].
  - intros k u st db.
    exists (merge_sort (row_le "full_name" true) (owned_by u "patients" db)).
    split; [apply merge_sort_Permutation|]. by rewrite fetchPatients_own.
  - intros k u id st db p Hc Hp Hid.
    rewrite (fetchPatientData_own k u id st db p);
      [reflexivity | by apply consistent_patient_ids | exact Hp | exact Hid].
  - apply not_offered_update_delete; auto.
  - apply not_offered_update_delete; auto.
  - intros c u r Ho. apply owner_permitted; [|done].
    destruct c; vm_compute; discriminate.
Qed.

(** C5 on the sample form: Ana registers Davi, and her list page has him. *)
Lemma patients_created_and_read_witness :
  ∃ r : row,
    let db' := set_rows "patients"
                 (rows_of Sample.two_accounts "patients" ++ [r])
                 Sample.two_accounts in
    NewPatient.handleSubmit
      (respond Sample.later (Client (Some Sample.ana))) (Some Sample.ana)
      Sample.form Sample.two_accounts
    = (db',
       [ sent (NewPatient.insert_patient Sample.ana Sample.form);
         NewPatient.created; navigate "/patients/55555555-eeee" ])
    ∧ r !! "full_name" = Some "Davi Lima"
    ∧ ∃ shown,
        shown ∈ Patients.patients
                  (Patients.fetchPatients
                     (respond Sample.later (Client (Some Sample.ana)))
                     Patients.initial db').1.2
        ∧ Patients.full_name shown = "Davi Lima".
Proof.
  assert (consistent Sample.two_accounts = true) as Hc by (by vm_compute).
  assert (Sample.ana ∈ user_id <$> auth_users Sample.two_accounts) as Hu
    by (apply (bool_decide_unpack _); by vm_compute).
  assert (random_uuid Sample.later
          ∉ column_values Sample.two_accounts "patients" "id") as Hfresh
    by (apply (bool_decide_unpack _); by vm_compute).
  assert (trim (NewPatient.full_name Sample.form) ≠ "") as Hname
    by (vm_compute; discriminate).
  assert (NewPatient.status Sample.form
          ∈ ["active"; "inactive"; "discharged"]) as Hstatus by left.
  assert (Typed.patient_form Sample.form) as Hdate.
  { split; [by left|]. split; [reflexivity|]. intros c get Hin.
    unfold NewPatient.optional_fields in Hin.
    repeat (apply elem_of_cons in Hin as [Heq | Hin];
            [injection Heq as -> ->; reflexivity|]).
    apply elem_of_nil in Hin. contradiction. }
  destruct (proj1 (@patients_created_and_read ascii_methods) Sample.later
              Sample.ana Sample.form Sample.two_accounts Hc Hu Hfresh Hname
              Hstatus Hdate)
    as (r & Hout & _ & _ & Hfull & _ & _ & Hlist & _).
  exists r. split; [exact Hout|]. split; [exact Hfull|].
  destruct (Hlist Sample.later Patients.initial)
    as (shown & Hin & _ & Hshown & _).
  exists shown. split; [exact Hin|exact Hshown].
Defined.

(** ** Creating and reading session records *)

(** C6, as the code has it.  An authenticated psychologist can create a
    session record for a patient: on the detail page of one of their
    patients, with a session type the form offers, a session date that is
    a date and texts the database can hold, saving the form stores one
    new row of [patient_records],
    for that patient and under their account, with what was typed; the
    page reads again and the new record is in the list it shows.  They
    can read the patient's records: the detail page of one of their
    patients holds exactly their records about that patient, each once.
    No page sends an UPDATE or a DELETE on
    [patient_records], although the policies would let the owner of a
    record do all four. *)
Theorem records_created_and_read :
  (∀ (k : clock) (u : uuid) (id today : string) (st : PatientDetail.state)
     (db : database) (p : row),
     let n := PatientDetail.newRecord st in
     consistent db = true →
     PatientDetail.patient st = Some p →
     p ∈ owned_by u "patients" db → p !! "id" = Some id →
     PatientDetail.session_type n
       ∈ ["individual"; "couple"; "family"; "group"] →
     Typed.record_form n →
     random_uuid k ∉ column_values db "patient_records" "id" →
     ∃ (r : row) (rs : list row),
       PatientDetail.handleCreateRecord (respond k (Client (Some u))) (Some u)
         id today st db
       = (set_rows "patient_records" (rows_of db "patient_records" ++ [r]) db,
          PatientDetail.State (Some p) rs false false
            (PatientDetail.blank today),
          [ sent (PatientDetail.insert_record p u n);
            PatientDetail.record_created;
            sent (PatientDetail.the_patient id);
            sent (PatientDetail.the_records id) ])
       ∧ r ∈ rs
       ∧ rs ≡ₚ filter (λ r', r' !! "patient_id" = Some id)
                      (owned_by u "patient_records" db) ++ [r]
       ∧ r !! "id" = Some (random_uuid k)
       ∧ r !! "patient_id" = Some id
       ∧ r !! "psychologist_id" = Some u
       ∧ r !! "session_date" = Some (PatientDetail.session_date n)
       ∧ r !! "session_type" = Some (PatientDetail.session_type n)
       ∧ (PatientDetail.session_notes n = "" → r !! "session_notes" = None)
       ∧ (PatientDetail.session_notes n ≠ "" →
            r !! "session_notes" = Some (PatientDetail.session_notes n)))
  ∧ (∀ (k : clock) (u : uuid) (id : string) (st : PatientDetail.state)
       (db : database) (p : row),
       consistent db = true →
       p ∈ owned_by u "patients" db → p !! "id" = Some id →
       ∃ rs, rs ≡ₚ filter (λ r, r !! "patient_id" = Some id)
                          (owned_by u "patient_records" db)
             ∧ PatientDetail.records
                 (PatientDetail.fetchPatientData (respond k (Client (Some u)))
                    id st db).1.2
               = rs)
  ∧ ¬ offered "patient_records" UPDATE ∧ ¬ offered "patient_records" DELETE
  ∧ (∀ c u r, owner "patient_records" r = Some u →
       permitted (Some u) "patient_records" c r = true).
Proof.
  split; [|split; [|split; [|split]]].
  - intros k u id today st db p n Hc Hpatient Hp Hid Htype _ Hfresh.
    destruct (handleCreateRecord_stores k u id today st db p Hc Hpatient Hp
                Hid Htype Hfresh)
      as (r & rs & Hrun & Hin & Hperm & _ & Hrid & Hrpid & Hrpsy & Hrdate
          & Hrtype & Hrnotes).
    exists r, rs. split; [exact Hrun|]. split; [exact Hin|].
    split; [exact Hperm|]. split; [exact Hrid|]. split; [exact Hrpid|].
    split; [exact Hrpsy|]. split; [exact Hrdate|]. split; [exact Hrtype|].
    rewrite Hrnotes. apply or_null_spec.
  - intros k u id st db p Hc Hp Hid.
    exists (merge_sort (row_le "session_date" false)
              (filter (λ r, r !! "patient_id" = Some id)
                      (owned_by u "patient_records" db))).
    split; [apply merge_sort_Permutation|].
    rewrite (fetchPatientData_own k u id st db p);
      [reflexivity | by apply consistent_patient_ids | exact Hp | exact Hid].
  - apply not_offered_update_delete; auto.
  - apply not_offered_update_delete; auto.
  - intros c u r Ho. apply owner_permitted; [|done].
    destruct c; vm_compute; discriminate.
Qed.

(** C6 on a one-patient practice: Bruno files a session about his
    patient, and the page then lists it. *)
Lemma records_created_and_read_witness :
  let db := Sample.practice_of Sample.bruno "33333333-cccc" in
  let p := Sample.patient_of Sample.bruno "33333333-cccc" in
  let st := PatientDetail.State (Some p) [] false true
              (PatientDetail.blank "2025-12-17") in
  ∃ (r : row) (rs : list row),
    PatientDetail.handleCreateRecord
      (respond Sample.later (Client (Some Sample.bruno))) (Some Sample.bruno)
      "33333333-cccc" "2025-12-17" st db
    = (set_rows "patient_records" (rows_of db "patient_records" ++ [r]) db,
       PatientDetail.State (Some p) rs false false
         (PatientDetail.blank "2025-12-17"),
       [ sent (PatientDetail.insert_record p Sample.bruno
                 (PatientDetail.blank "2025-12-17"));
         PatientDetail.record_created;
         sent (PatientDetail.the_patient "33333333-cccc");
         sent (PatientDetail.the_records "33333333-cccc") ])
    ∧ r ∈ rs ∧ r !! "patient_id" = Some "33333333-cccc".
Proof.
  cbv zeta.
  destruct (proj1 records_created_and_read Sample.later Sample.bruno
              "33333333-cccc" "2025-12-17"
              (PatientDetail.State
                 (Some (Sample.patient_of Sample.bruno "33333333-cccc")) []
                 false true (PatientDetail.blank "2025-12-17"))
              (Sample.practice_of Sample.bruno "33333333-cccc")
              (Sample.patient_of Sample.bruno "33333333-cccc"))
    as (r & rs & Hrun & Hin & _ & _ & Hpid & _).
  - apply practice_consistent.
  - reflexivity.
  - apply list_elem_of_filter. split; [reflexivity|left].
  - reflexivity.
  - left.
  - split; [reflexivity|]. by repeat constructor.
  - apply (bool_decide_unpack _). by vm_compute.
  - exists r, rs. split; [exact Hrun|]. split; [exact Hin|exact Hpid].
Defined.
